(** * reddit-text-analysis: the resumable, rate-limited retrieval engine

    A shallow embedding of [src/pushshift_api.py], of the copy of the
    [Pushshift] class in [src/reddit_utils.py] together with the record
    flattening functions of that file, of the driver
    [src/archive_subreddit.py], and of the excerpt function and the
    flattening loop of [src/experiment_1.py].

    Conventions.
    - Python values that travel through JSON are terms of [json]; a Python
      [dict] is an association list in insertion order, a [float] is a
      rational number.
    - A Python exception is a term of [exn]; fallible code returns
      [result].  The message string of an exception is not modelled, its
      payload attributes are.
    - The monotonic clock ([time.perf_counter]) is a rational number of
      seconds held in the [World]; time that passes outside the control of
      the program (scheduling, network latency, work of the consumer) is
      drawn from the oracle [jitter] at every clock reading.
    - A generator is a [frame] that is resumed by a step function. *)

From Stdlib Require Import ZArith QArith Qminmax Lqa Lia String Ascii List DecimalString.
From Stdlib Require DecimalPos.
From stdpp Require Import base list strings gmap.

Set Warnings "-register-all".
Open Scope Z_scope.
Open Scope string_scope.

(** ** Python values *)

Inductive json : Type :=
| JNull
| JBool (b : bool)
| JNum (n : Z)
| JFloat (q : Q)
| JStr (s : string)
| JArr (xs : list json)
| JObj (kvs : list (string * json)).

Inductive exn : Type :=
| PushshiftHTTPError (status_code : Z)
| PushshiftJSONError (response_text : string)
| PushshiftKeyError (response_json : json)
| NotImplementedError
| TypeError
| KeyError (key : string)
| IndexError
| AttributeError
| FileNotFoundError (path : string)
| TransportError (name : string)
| PrawError (name : string).

Inductive result (A : Type) : Type :=
| Ok (a : A)
| Raise (e : exn).
Arguments Ok {A} a.
Arguments Raise {A} e.

#[global] Instance result_ret : MRet result := fun A a => Ok a.

#[global] Instance result_bind : MBind result := fun A B k r =>
  match r with
  | Ok a => k a
  | Raise e => Raise e
  end.

(** [d[k]] on an insertion-ordered dict. *)
Fixpoint dict_get (k : string) (kvs : list (string * json)) : option json :=
  match kvs with
  | [] => None
  | (k', v) :: rest => if String.eqb k k' then Some v else dict_get k rest
  end.

Definition dict_keys (kvs : list (string * json)) : list string := map fst kvs.

(** [o[k]] for a string key [k]: only a dict can be subscripted by a
    string; a missing key is a [KeyError], every other value a [TypeError]. *)
Definition getitem (o : json) (k : string) : result json :=
  match o with
  | JObj kvs =>
      match dict_get k kvs with
      | Some v => Ok v
      | None => Raise (KeyError k)
      end
  | _ => Raise TypeError
  end.

(** Truth value of a Python object, as tested by [not items]. *)
Definition truthy (v : json) : bool :=
  match v with
  | JNull => false
  | JBool b => b
  | JNum n => negb (n =? 0)%Z
  | JFloat q => negb (Qeq_bool q 0)
  | JStr s => negb (String.eqb s "")
  | JArr xs => match xs with [] => false | _ => true end
  | JObj kvs => match kvs with [] => false | _ => true end
  end.

(** [str(n)] for an [int], as an f-string renders it. *)
Definition str_int (n : Z) : string := NilZero.string_of_int (Z.to_int n).

(** [str(len(xs))]. *)
Definition str_len {A : Type} (xs : list A) : string := str_int (Z.of_nat (length xs)).

(** ** The world a [Pushshift] session talks to *)

Record request : Type := mkRequest {
  path : string;
  params : list (string * json)
}.

(** What [Response] offers to the code: the status, the raw text and the
    outcome of [Response.json()] ([None] when the text is not JSON). *)
Record response : Type := mkResponse {
  status_code : Z;
  text : string;
  parsed : option json
}.

(** What a [get] comes to: a response, or an exception of the transport
    that is not an [HTTPError], named by its class (a connection failure;
    retries that are used up). *)
Inductive get_result : Type :=
| GetRaises (name : string)
| GetReturns (r : response).

Record World : Type := mkWorld {
  clock : Q;
  jitter : list Q;
  sleeps : list Q;
  served : list request;
  endpoint : nat -> request -> get_result
}.

(** [time.perf_counter()]: the time that has gone by since the last
    observation is taken from the oracle. *)
Definition perf_counter (w : World) : Q * World :=
  let j := hd 0%Q (jitter w) in
  let t := (clock w + j)%Q in
  (t, mkWorld t (tl (jitter w)) (sleeps w) (served w) (endpoint w)).

(** [time.sleep(d)]: the clock advances by [d]; oversleeping shows at the
    next reading of the clock. *)
Definition sleep (d : Q) (w : World) : World :=
  mkWorld (clock w + d)%Q (jitter w) (sleeps w ++ [d]) (served w) (endpoint w).

(** [Session.get(path, params=params)] below the retry adapter: the
    [i]-th request of the session comes to [endpoint i], the outcome of the
    last attempt made for it. *)
Definition http_get (rq : request) (w : World) : get_result * World :=
  (endpoint w (length (served w)) rq,
   mkWorld (clock w) (jitter w) (sleeps w) (served w ++ [rq]) (endpoint w)).

(** [Response.raise_for_status()] raises [HTTPError] for a 4xx or 5xx
    status. *)
Definition raise_for_status (r : response) : bool :=
  (400 <=? status_code r)%Z && (status_code r <? 600)%Z.

(** ** Generator frames *)

(** [pending_items] is [float('inf')] or an [int]. *)
Inductive pending : Type :=
| PInf
| PInt (n : Z).

(** [pending_items > 0]. *)
Definition pending_pos (p : pending) : bool :=
  match p with
  | PInf => true
  | PInt n => (0 <? n)%Z
  end.

(** [pending_items -= 1]. *)
Definition pending_dec (p : pending) : pending :=
  match p with
  | PInf => PInf
  | PInt n => PInt (n - 1)
  end.

(** [items[:None if pending_items == float('inf') else pending_items]] for
    a list [items]; the bound is positive wherever the slice is taken, a
    non-positive one is clamped like the conversion to [nat] does. *)
Definition slice_upto (items : list json) (p : pending) : list json :=
  match p with
  | PInf => items
  | PInt n => take (Z.to_nat n) items
  end.

(** The suspended body of [_query_items]: not yet started (the arguments
    are held), inside the [while] loop with the remaining items of the
    [for] loop ([[]] when the loop test comes next), or finished. *)
Inductive frame : Type :=
| FStart (count : option Z) (before : json)
| FLoop (pending_items : pending) (before : json) (rest : list json)
| FDone.

Record generator : Type := mkGenerator {
  item_type : string;
  subreddit_or_id : string;
  gframe : frame
}.

(** One resumption of a generator: an item is yielded, the body goes round
    its loop without yielding ([Paused]), returns or raises. *)
Inductive step_result : Type :=
| Yield (item : json)
| Paused
| StopIteration
| Raised (e : exn).

(** Consuming a generator to its end, as [list(gen)] would, for a class
    [P] whose generator is resumed by [step]: the items yielded and how the
    iteration ended ([None] when the fuel ran out). *)
Fixpoint drain {P : Type}
  (step : P -> generator -> World -> step_result * generator * P * World)
  (fuel : nat) (self : P) (g : generator) (w : World)
  : list json * option step_result * P * World :=
  match fuel with
  | O => ([], None, self, w)
  | S fuel' =>
      match step self g w with
      | (Yield item, g', self', w') =>
          let '(items, r, self'', w'') := drain step fuel' self' g' w' in
          (item :: items, r, self'', w'')
      | (Paused, g', self', w') => drain step fuel' self' g' w'
      | (r, _, self', w') => ([], Some r, self', w')
      end
  end.

(** ** [src/pushshift_api.py]: class [Pushshift] *)

Module pushshift_api.

Record Pushshift : Type := mkPushshift {
  _wait_between_secs : Q;
  _last_request_time : Q;
  _request_size : Z
}.

Definition server_ratelimit_per_minute : Q := 60.

(** [Pushshift.__init__]; the adapter mounted at lines 48 and 49 is the
    same for every instance, see [get]. *)
Definition init : Pushshift :=
  mkPushshift (60 / server_ratelimit_per_minute)%Q 0%Q 500.

(** The statuses of [Retry(total=10, backoff_factor=0.1,
    status_forcelist=[429, 500, 502, 503, 504, 524])]. *)
Definition status_forcelist : list Z := [429; 500; 502; 503; 504; 524].

(** What the adapter makes of the outcome of the last attempt: when that
    is still a response with a status of the list, the retries are used up
    and [RetryError] is raised, which is no [HTTPError]; every other
    response is returned. *)
Definition retry_adapter (a : get_result) : get_result :=
  match a with
  | GetReturns resp =>
      if existsb (Z.eqb (status_code resp)) status_forcelist
      then GetRaises "RetryError"
      else GetReturns resp
  | GetRaises name => GetRaises name
  end.

(** [self.get(path, params=params)], through the adapter. *)
Definition get (rq : request) (w : World) : get_result * World :=
  let '(a, w') := http_get rq w in
  (retry_adapter a, w').

(** [_handle_ratelimit_before_request].  Readings of the clock and
    durations are exact; the interpreter rounds every difference to a
    binary64 number, which keeps the order of the values. *)
Definition _handle_ratelimit_before_request (self : Pushshift) (w : World)
  : Pushshift * World :=
  let '(t1, w1) := perf_counter w in
  let w2 := sleep (Qmax 0 (_wait_between_secs self - (t1 - _last_request_time self))) w1 in
  let '(t2, w3) := perf_counter w2 in
  (mkPushshift (_wait_between_secs self) t2 (_request_size self), w3).

(** [query_submission_count]. *)
Definition query_submission_count (self : Pushshift) (subreddit : string) (w : World)
  : result json * Pushshift * World :=
  let '(self1, w1) := _handle_ratelimit_before_request self w in
  let '(r, w2) :=
    get (mkRequest "reddit/search/submission"
                [("subreddit", JStr subreddit); ("metadata", JBool true)]) w1 in
  match r with
  | GetRaises name => (Raise (TransportError name), self1, w2)
  | GetReturns resp =>
      if raise_for_status resp
      then (Raise (PushshiftHTTPError (status_code resp)), self1, w2)
      else
        match parsed resp with
        | None => (Raise (PushshiftJSONError (text resp)), self1, w2)
        | Some body =>
            match (m ← getitem body "metadata"; getitem m "total_results") with
            | Ok v => (Ok v, self1, w2)
            | Raise (KeyError _) => (Raise (PushshiftKeyError body), self1, w2)
            | Raise e => (Raise e, self1, w2)
            end
        end
  end.

(** Calling the generator function [_query_items] runs none of its body. *)
Definition _query_items (item_type subreddit_or_id : string)
  (count : option Z) (before : json) : generator :=
  mkGenerator item_type subreddit_or_id (FStart count before).

Definition query_submissions (subreddit : string) (count : option Z) (before : json)
  : generator :=
  _query_items "submission" subreddit count before.

Definition query_comments (submission_id : string) (count : option Z) (before : json)
  : generator :=
  _query_items "comment" submission_id count before.

(** One iteration of the [while] loop of [_query_items] up to the start of
    its [for] loop: the rate limit, the page request, the three checks of
    the response, the test for an empty page and the slice.  A [data]
    member that is true but no list cannot be sliced, or yields items that
    cannot be subscripted by a string: an exception that is none of the
    three of this module, written [TypeError]. *)
Definition request_page (self : Pushshift) (item_type subreddit_or_id : string)
  (pending_items : pending) (before : json) (w : World)
  : step_result * frame * Pushshift * World :=
  let '(self1, w1) := _handle_ratelimit_before_request self w in
  let id_key := if String.eqb item_type "submission" then "subreddit" else "link_id" in
  let params := [(id_key, JStr subreddit_or_id);
                 ("size", JNum (_request_size self1));
                 ("before", before)] in
  let '(r, w2) := get (mkRequest ("reddit/search/" ++ item_type) params) w1 in
  match r with
  | GetRaises name => (Raised (TransportError name), FDone, self1, w2)
  | GetReturns resp =>
      if raise_for_status resp
      then (Raised (PushshiftHTTPError (status_code resp)), FDone, self1, w2)
      else
        match parsed resp with
        | None => (Raised (PushshiftJSONError (text resp)), FDone, self1, w2)
        | Some body =>
            match getitem body "data" with
            | Raise (KeyError _) => (Raised (PushshiftKeyError body), FDone, self1, w2)
            | Raise e => (Raised e, FDone, self1, w2)
            | Ok items =>
                if negb (truthy items)
                then (StopIteration, FDone, self1, w2)
                else
                  match items with
                  | JArr l => (Paused, FLoop pending_items before (slice_upto l pending_items), self1, w2)
                  | _ => (Raised TypeError, FDone, self1, w2)
                  end
            end
        end
  end.

(** Resuming the generator: the body runs to its next [yield], to the next
    turn of one of its loops, to its end or to an exception. *)
Definition step (self : Pushshift) (g : generator) (w : World)
  : step_result * generator * Pushshift * World :=
  let ret (x : step_result * frame * Pushshift * World) :=
    let '(r, f, s, w') := x in
    (r, mkGenerator (item_type g) (subreddit_or_id g) f, s, w') in
  match gframe g with
  | FStart count before =>
      if String.eqb (item_type g) "submission" || String.eqb (item_type g) "comment"
      then ret (Paused,
                FLoop (match count with None => PInf | Some n => PInt n end) before [],
                self, w)
      else ret (Raised NotImplementedError, FDone, self, w)
  | FLoop pending_items before [] =>
      if pending_pos pending_items
      then ret (request_page self (item_type g) (subreddit_or_id g) pending_items before w)
      else ret (StopIteration, FDone, self, w)
  | FLoop pending_items before (item :: rest) =>
      match getitem item "created_utc" with
      | Ok before' => ret (Yield item, FLoop (pending_dec pending_items) before' rest, self, w)
      | Raise e => ret (Raised e, FDone, self, w)
      end
  | FDone => ret (StopIteration, FDone, self, w)
  end.

(** [n] calls of [_handle_ratelimit_before_request] in a row: for each, the
    time slept and the value left in [_last_request_time]. *)
Fixpoint acquire_n (n : nat) (self : Pushshift) (w : World) : list (Q * Q) :=
  match n with
  | O => []
  | S n' =>
      let '(self', w') := _handle_ratelimit_before_request self w in
      (List.last (sleeps w') 0%Q, _last_request_time self') :: acquire_n n' self' w'
  end.

End pushshift_api.

(** ** [src/reddit_utils.py] *)

Module reddit_utils.

(** *** The second definition of class [Pushshift] (the one the driver
    imports) *)

Record Pushshift : Type := mkPushshift {
  _wait_between_secs : Q;
  _last_request_time : Q;
  _request_size : Z
}.

Definition server_ratelimit_per_minute : Q := 60.

(** [Pushshift.__init__]; the adapter mounted at lines 48 and 49 is the
    same for every instance, see [get]. *)
Definition init : Pushshift :=
  mkPushshift (60 / server_ratelimit_per_minute)%Q 0%Q 500.

(** The statuses of [Retry(total=10, backoff_factor=0.1,
    status_forcelist=[429, 500, 502, 503, 504, 524])]. *)
Definition status_forcelist : list Z := [429; 500; 502; 503; 504; 524].

(** What the adapter makes of the outcome of the last attempt: when that
    is still a response with a status of the list, the retries are used up
    and [RetryError] is raised, which is no [HTTPError]; every other
    response is returned. *)
Definition retry_adapter (a : get_result) : get_result :=
  match a with
  | GetReturns resp =>
      if existsb (Z.eqb (status_code resp)) status_forcelist
      then GetRaises "RetryError"
      else GetReturns resp
  | GetRaises name => GetRaises name
  end.

(** [self.get(path, params=params)], through the adapter. *)
Definition get (rq : request) (w : World) : get_result * World :=
  let '(a, w') := http_get rq w in
  (retry_adapter a, w').

(** [_handle_ratelimit_before_request].  Readings of the clock and
    durations are exact; the interpreter rounds every difference to a
    binary64 number, which keeps the order of the values. *)
Definition _handle_ratelimit_before_request (self : Pushshift) (w : World)
  : Pushshift * World :=
  let '(t1, w1) := perf_counter w in
  let w2 := sleep (Qmax 0 (_wait_between_secs self - (t1 - _last_request_time self))) w1 in
  let '(t2, w3) := perf_counter w2 in
  (mkPushshift (_wait_between_secs self) t2 (_request_size self), w3).

(** [query_submission_count]. *)
Definition query_submission_count (self : Pushshift) (subreddit : string) (w : World)
  : result json * Pushshift * World :=
  let '(self1, w1) := _handle_ratelimit_before_request self w in
  let '(r, w2) :=
    get (mkRequest "reddit/search/submission"
                [("subreddit", JStr subreddit); ("metadata", JBool true)]) w1 in
  match r with
  | GetRaises name => (Raise (TransportError name), self1, w2)
  | GetReturns resp =>
      if raise_for_status resp
      then (Raise (PushshiftHTTPError (status_code resp)), self1, w2)
      else
        match parsed resp with
        | None => (Raise (PushshiftJSONError (text resp)), self1, w2)
        | Some body =>
            match (m ← getitem body "metadata"; getitem m "total_results") with
            | Ok v => (Ok v, self1, w2)
            | Raise (KeyError _) => (Raise (PushshiftKeyError body), self1, w2)
            | Raise e => (Raise e, self1, w2)
            end
        end
  end.

(** Calling the generator function [_query_items] runs none of its body. *)
Definition _query_items (item_type subreddit_or_id : string)
  (count : option Z) (before : json) : generator :=
  mkGenerator item_type subreddit_or_id (FStart count before).

Definition query_submissions (subreddit : string) (count : option Z) (before : json)
  : generator :=
  _query_items "submission" subreddit count before.

Definition query_comments (submission_id : string) (count : option Z) (before : json)
  : generator :=
  _query_items "comment" submission_id count before.

(** One iteration of the [while] loop of [_query_items] up to the start of
    its [for] loop: the rate limit, the page request, the three checks of
    the response, the test for an empty page and the slice.  A [data]
    member that is true but no list cannot be sliced, or yields items that
    cannot be subscripted by a string: an exception that is none of the
    three of this module, written [TypeError]. *)
Definition request_page (self : Pushshift) (item_type subreddit_or_id : string)
  (pending_items : pending) (before : json) (w : World)
  : step_result * frame * Pushshift * World :=
  let '(self1, w1) := _handle_ratelimit_before_request self w in
  let id_key := if String.eqb item_type "submission" then "subreddit" else "link_id" in
  let params := [(id_key, JStr subreddit_or_id);
                 ("size", JNum (_request_size self1));
                 ("before", before)] in
  let '(r, w2) := get (mkRequest ("reddit/search/" ++ item_type) params) w1 in
  match r with
  | GetRaises name => (Raised (TransportError name), FDone, self1, w2)
  | GetReturns resp =>
      if raise_for_status resp
      then (Raised (PushshiftHTTPError (status_code resp)), FDone, self1, w2)
      else
        match parsed resp with
        | None => (Raised (PushshiftJSONError (text resp)), FDone, self1, w2)
        | Some body =>
            match getitem body "data" with
            | Raise (KeyError _) => (Raised (PushshiftKeyError body), FDone, self1, w2)
            | Raise e => (Raised e, FDone, self1, w2)
            | Ok items =>
                if negb (truthy items)
                then (StopIteration, FDone, self1, w2)
                else
                  match items with
                  | JArr l => (Paused, FLoop pending_items before (slice_upto l pending_items), self1, w2)
                  | _ => (Raised TypeError, FDone, self1, w2)
                  end
            end
        end
  end.

(** Resuming the generator: the body runs to its next [yield], to the next
    turn of one of its loops, to its end or to an exception. *)
Definition step (self : Pushshift) (g : generator) (w : World)
  : step_result * generator * Pushshift * World :=
  let ret (x : step_result * frame * Pushshift * World) :=
    let '(r, f, s, w') := x in
    (r, mkGenerator (item_type g) (subreddit_or_id g) f, s, w') in
  match gframe g with
  | FStart count before =>
      if String.eqb (item_type g) "submission" || String.eqb (item_type g) "comment"
      then ret (Paused,
                FLoop (match count with None => PInf | Some n => PInt n end) before [],
                self, w)
      else ret (Raised NotImplementedError, FDone, self, w)
  | FLoop pending_items before [] =>
      if pending_pos pending_items
      then ret (request_page self (item_type g) (subreddit_or_id g) pending_items before w)
      else ret (StopIteration, FDone, self, w)
  | FLoop pending_items before (item :: rest) =>
      match getitem item "created_utc" with
      | Ok before' => ret (Yield item, FLoop (pending_dec pending_items) before' rest, self, w)
      | Raise e => ret (Raised e, FDone, self, w)
      end
  | FDone => ret (StopIteration, FDone, self, w)
  end.

(** *** Records of the detail API, as far as the code reads them *)

(** An attribute value that is not a container. *)
Inductive scalar : Type :=
| SNone
| SBool (b : bool)
| SInt (n : Z)
| SFloat (q : Q)
| SStr (s : string).

Definition json_of_scalar (v : scalar) : json :=
  match v with
  | SNone => JNull
  | SBool b => JBool b
  | SInt n => JNum n
  | SFloat q => JFloat q
  | SStr s => JStr s
  end.

(** [praw.models.Submission]; [author] is [None] for a deleted account,
    otherwise its [name] is given; [created_utc] is taken in whole
    seconds. *)
Module Submission.
Record t : Type := mk {
  author : option string;
  author_flair_text : scalar;
  created_utc : Z;
  distinguished : scalar;
  edited : scalar;
  id : string;
  is_original_content : bool;
  link_flair_text : scalar;
  locked : bool;
  name : string;
  num_comments : Z;
  over_18 : bool;
  permalink : string;
  removed_by_category : scalar;
  score : Z;
  selftext : string;
  spoiler : bool;
  stickied : bool;
  subreddit_display_name : string;
  title : string;
  upvote_ratio : scalar;
  url : string
}.
End Submission.

(** [praw.models.Comment] after [replace_more]: a tree of comments. *)
Module Comment.
Inductive t : Type := mk {
  author : option string;
  body : string;
  created_utc : Z;
  distinguished : scalar;
  edited : scalar;
  id : string;
  is_submitter : bool;
  link_id : string;
  parent_id : string;
  permalink : string;
  replies : list t;
  score : Z;
  stickied : bool
}.
End Comment.

(** [x.author and x.author.name]. *)
Definition author_name (author : option string) : json :=
  match author with
  | None => JNull
  | Some n => JStr n
  end.

(** *** [datetime.fromtimestamp(ts).strftime('%Y-%m-%d %H:%M:%S')], with
    the local time zone taken to be UTC

    The text is the one of the interpreter for the years 1000 to 9999;
    beyond the year 9999 the interpreter raises [ValueError], which is
    left out here: what is proved of the success of an enrichment says
    that the time stamps are in that range. *)

Definition pad (width : nat) (n : Z) : string :=
  let s := str_int n in
  String.concat "" (repeat "0" (width - String.length s)) ++ s.

(** The civil date of a day number counted from 1970-01-01. *)
Definition civil_from_days (days : Z) : Z * Z * Z :=
  let z := days + 719468 in
  let era := z / 146097 in
  let doe := z - era * 146097 in
  let yoe := (doe - doe / 1460 + doe / 36524 - doe / 146096) / 365 in
  let doy := doe - (365 * yoe + yoe / 4 - yoe / 100) in
  let mp := (5 * doy + 2) / 153 in
  let d := doy - (153 * mp + 2) / 5 + 1 in
  let m := if (mp <? 10)%Z then mp + 3 else mp - 9 in
  let y := yoe + era * 400 + (if (m <=? 2)%Z then 1 else 0) in
  (y, m, d).

Definition strftime (ts : Z) : string :=
  let '(y, m, d) := civil_from_days (ts / 86400) in
  let secs := ts mod 86400 in
  pad 4 y ++ "-" ++ pad 2 m ++ "-" ++ pad 2 d ++ " " ++
  pad 2 (secs / 3600) ++ ":" ++ pad 2 (secs mod 3600 / 60) ++ ":" ++ pad 2 (secs mod 60).

(** [submission_to_dict]. *)
Definition submission_to_dict (submission : Submission.t) : list (string * json) :=
  [ ("author_name", author_name (Submission.author submission));
    ("author_flair_text", json_of_scalar (Submission.author_flair_text submission));
    ("comments", JNull);
    ("created_utc", JStr (strftime (Submission.created_utc submission)));
    ("distinguished", json_of_scalar (Submission.distinguished submission));
    ("edited", json_of_scalar (Submission.edited submission));
    ("id", JStr (Submission.id submission));
    ("is_original_content", JBool (Submission.is_original_content submission));
    ("link_flair_text", json_of_scalar (Submission.link_flair_text submission));
    ("locked", JBool (Submission.locked submission));
    ("name", JStr (Submission.name submission));
    ("num_comments", JNum (Submission.num_comments submission));
    ("over_18", JBool (Submission.over_18 submission));
    ("permalink", JStr (Submission.permalink submission));
    ("removed_by_category", json_of_scalar (Submission.removed_by_category submission));
    ("score", JNum (Submission.score submission));
    ("selftext", JStr (Submission.selftext submission));
    ("spoiler", JBool (Submission.spoiler submission));
    ("stickied", JBool (Submission.stickied submission));
    ("subreddit_display_name", JStr (Submission.subreddit_display_name submission));
    ("title", JStr (Submission.title submission));
    ("upvote_ratio", json_of_scalar (Submission.upvote_ratio submission));
    ("url", JStr (Submission.url submission)) ].

(** [comment_to_dict]. *)
Fixpoint comment_to_dict (comment : Comment.t) : json :=
  JObj
  [ ("author_name", author_name (Comment.author comment));
    ("body", JStr (Comment.body comment));
    ("created_utc", JStr (strftime (Comment.created_utc comment)));
    ("distinguished", json_of_scalar (Comment.distinguished comment));
    ("edited", json_of_scalar (Comment.edited comment));
    ("id", JStr (Comment.id comment));
    ("is_submitter", JBool (Comment.is_submitter comment));
    ("link_id", JStr (Comment.link_id comment));
    ("parent_id", JStr (Comment.parent_id comment));
    ("permalink", JStr (Comment.permalink comment));
    ("replies", JArr (map comment_to_dict (Comment.replies comment)));
    ("score", JNum (Comment.score comment));
    ("stickied", JBool (Comment.stickied comment)) ].

End reddit_utils.

(** ** [src/archive_subreddit.py] *)

Module archive_subreddit.
Import reddit_utils.

Definition SAVE_EVERY_N_SUBMISSIONS : Z := 100.

Inductive fs_op : Type :=
| WriteText (name : string)
| Unlink (name : string).

(** What the driver talks to besides the discovery API: the wall clock
    (the successive values of [round(time.time_ns() / 1_000_000)]), the
    directory [ARCHIVES_DIR] (file name to the list of records that the
    text of the file decodes to), a log of the operations on it, and the
    detail API (for an identifier, the submission with its comment forest
    after [replace_more], or the exception of the client). *)
Record Env : Type := mkEnv {
  world : World;
  time_ms : list Z;
  files : gmap string (list json);
  fs_log : list fs_op;
  reddit : json -> result (Submission.t * list Comment.t)
}.

Definition set_world (w : World) (env : Env) : Env :=
  mkEnv w (time_ms env) (files env) (fs_log env) (reddit env).

(** [round(time.time_ns() / 1_000_000)]. *)
Definition now_ms (env : Env) : Z * Env :=
  (hd 0 (time_ms env),
   mkEnv (world env) (tl (time_ms env)) (files env) (fs_log env) (reddit env)).

(** [Path.write_text]: the file is created or replaced. *)
Definition write_text (name : string) (content : list json) (env : Env) : Env :=
  mkEnv (world env) (time_ms env) (<[name := content]> (files env))
        (fs_log env ++ [WriteText name]) (reddit env).

(** [Path.unlink]: a missing file is an error. *)
Definition unlink (name : string) (env : Env) : result unit * Env :=
  match files env !! name with
  | None => (Raise (FileNotFoundError name), env)
  | Some _ =>
      (Ok tt,
       mkEnv (world env) (time_ms env) (delete name (files env))
             (fs_log env ++ [Unlink name]) (reddit env))
  end.

(** *** The pattern of line 79,
    [intermediate_{subreddit}_(?P<max_submissions>\d+|inf)_(?P<t_start>\d+)_(?P<t_end>\d+).json],
    applied with [re.match] (anchored at the start only).  The name of the
    subreddit is taken to be free of regular-expression operators, so that
    it stands for itself (line 79 does not escape it: what is proved of
    the pattern for every name of a file is said of such subreddits), and
    the digits of a name are those of 0 to 9. *)

Definition is_digit (c : ascii) : bool :=
  (48 <=? nat_of_ascii c)%nat && (nat_of_ascii c <=? 57)%nat.

Fixpoint strip_prefix (p s : string) : option string :=
  match p with
  | EmptyString => Some s
  | String a p' =>
      match s with
      | String b s' => if Ascii.eqb a b then strip_prefix p' s' else None
      | EmptyString => None
      end
  end.

(** The longest run of digits at the start of [s], and what follows. *)
Fixpoint span_digits (s : string) : string * string :=
  match s with
  | String c s' =>
      if is_digit c
      then let '(d, r) := span_digits s' in (String c d, r)
      else (EmptyString, s)
  | EmptyString => (EmptyString, EmptyString)
  end.

(** [\d+]: at least one digit, as many as there are. *)
Definition digits1 (s : string) : option (string * string) :=
  match span_digits s with
  | (EmptyString, _) => None
  | (d, r) => Some (d, r)
  end.

(** [.json]: any character but a newline, then [json]. *)
Definition dot_json (s : string) : bool :=
  match s with
  | String c s' => negb (Ascii.eqb c "010") && bool_decide (is_Some (strip_prefix "json" s'))
  | EmptyString => false
  end.

(** All of [s] but its last character. *)
Fixpoint but_last (s : string) : string :=
  match s with
  | String c EmptyString => EmptyString
  | String c s' => String c (but_last s')
  | EmptyString => EmptyString
  end.

(** The three named groups of a match.  The last [\d+] gives one digit
    back to the dot when [json] follows the digits directly. *)
Definition pattern_match (subreddit name : string) : option (string * string * string) :=
  r0 ← strip_prefix ("intermediate_" ++ subreddit ++ "_") name;
  '(max_submissions, r1) ←
    match digits1 r0 with
    | Some m => Some m
    | None => r ← strip_prefix "inf" r0; Some ("inf", r)
    end;
  r2 ← strip_prefix "_" r1;
  '(t_start, r3) ← digits1 r2;
  r4 ← strip_prefix "_" r3;
  '(t_end, r5) ← digits1 r4;
  if dot_json r5 then Some (max_submissions, t_start, t_end)
  else if bool_decide (is_Some (strip_prefix "json" r5)) && (2 <=? String.length t_end)%nat
       then Some (max_submissions, t_start, but_last t_end)
       else None.

(** [int(s)] for a string of digits. *)
Definition int (s : string) : Z :=
  fold_left (fun acc c => 10 * acc + Z.of_nat (nat_of_ascii c - 48))
            (list_ascii_of_string s) 0.

(** *** The local variables of [main] *)

Record Locals : Type := mkLocals {
  subreddit : string;
  max_submissions : option Z;
  t_start_ms : Z;
  t_end_ms : Z;
  before : json;
  posts : list json;
  archive_file : option string
}.

(** Lines 78 to 96, from the answers of the operator: the name of the
    subreddit, the archive chosen (if any) and, for a fresh start, the
    bound entered (if any). *)
Definition resolve_resume (subreddit : string) (choice : option string)
  (prompted : option Z) (env : Env) : result Locals * Env :=
  match choice with
  | Some name =>
      match pattern_match subreddit name with
      | None => (Raise AttributeError, env)
      | Some (g_max, g_start, g_end) =>
          let max_submissions :=
            if String.eqb g_max "inf" then None else Some (int g_max) in
          match files env !! name with
          | None => (Raise (FileNotFoundError name), env)
          | Some posts =>
              match last posts with
              | None => (Raise IndexError, env)
              | Some p =>
                  match getitem p "created_utc" with
                  | Raise e => (Raise e, env)
                  | Ok before =>
                      (Ok (mkLocals subreddit max_submissions (int g_start) (int g_end)
                                    before posts (Some name)), env)
                  end
              end
          end
      end
  | None =>
      let '(t, env') := now_ms env in
      (Ok (mkLocals subreddit prompted t t JNull [] None), env')
  end.

(** [max_submissions - len(posts)]: [None] has no subtraction. *)
Definition remaining_count (max_submissions : option Z) (posts : list json) : result Z :=
  match max_submissions with
  | None => Raise TypeError
  | Some n => Ok (n - Z.of_nat (length posts))
  end.

(** [d[k] = v]: an existing key keeps its place. *)
Fixpoint dict_set (k : string) (v : json) (kvs : list (string * json))
  : list (string * json) :=
  match kvs with
  | [] => [(k, v)]
  | (k', v') :: rest =>
      if String.eqb k k' then (k, v) :: rest else (k', v') :: dict_set k v rest
  end.

Fixpoint insert_item (kv : string * json) (sorted : list (string * json))
  : list (string * json) :=
  match sorted with
  | [] => [kv]
  | kv' :: rest =>
      if String.leb (fst kv) (fst kv') then kv :: kv' :: rest
      else kv' :: insert_item kv rest
  end.

(** [dict(sorted(d.items()))]: the keys of a dict differ, so the order of
    the pairs is the order of their keys. *)
Definition sorted_items (kvs : list (string * json)) : list (string * json) :=
  fold_right insert_item [] kvs.

(** Lines 112 to 116: the record appended for a raw item. *)
Definition enrich (item : json) (env : Env) : result json :=
  id ← getitem item "id";
  '(submission, comments) ← reddit env id;
  let submission := submission_to_dict submission in
  let submission := dict_set "comments" (JArr (map comment_to_dict comments)) submission in
  Ok (JObj (sorted_items submission)).

(** [f'{max_submissions}']. *)
Definition str_optional_int (n : option Z) : string :=
  match n with
  | None => "None"
  | Some n => str_int n
  end.

Definition intermediate_name (st : Locals) : string :=
  "intermediate_" ++ subreddit st ++ "_" ++ str_optional_int (max_submissions st) ++ "_"
  ++ str_int (t_start_ms st) ++ "_" ++ str_int (t_end_ms st) ++ ".json".

Definition final_name (st : Locals) : string :=
  subreddit st ++ "_" ++ str_len (posts st) ++ "_"
  ++ str_int (t_start_ms st) ++ "_" ++ str_int (t_end_ms st) ++ ".json".

(** Lines 123 to 128 and 131 to 136: write the new file, then delete the
    previous one. *)
Definition save (name : string) (st : Locals) (env : Env) : result Locals * Env :=
  let old_archive_file := archive_file st in
  let st' := mkLocals (subreddit st) (max_submissions st) (t_start_ms st) (t_end_ms st)
                      (before st) (posts st) (Some name) in
  let env1 := write_text name (posts st) env in
  match old_archive_file with
  | None => (Ok st', env1)
  | Some old =>
      match unlink old env1 with
      | (Ok _, env2) => (Ok st', env2)
      | (Raise e, env2) => (Raise e, env2)
      end
  end.

Definition save_intermediate (st : Locals) (env : Env) : result Locals * Env :=
  save (intermediate_name st) st env.

Definition save_final (st : Locals) (env : Env) : result Locals * Env :=
  save (final_name st) st env.

(** The body of the [for] loop, lines 112 to 128. *)
Definition loop_body (st : Locals) (item : json) (env : Env) : result Locals * Env :=
  match enrich item env with
  | Raise e => (Raise e, env)
  | Ok submission =>
      let posts' := (posts st ++ [submission])%list in
      let '(t_end, env1) := now_ms env in
      let st1 := mkLocals (subreddit st) (max_submissions st) (t_start_ms st) t_end
                          (before st) posts' (archive_file st) in
      if (Z.of_nat (length posts') mod SAVE_EVERY_N_SUBMISSIONS =? 0)%Z
      then save_intermediate st1 env1
      else (Ok st1, env1)
  end.

Inductive outcome : Type :=
| Completed (st : Locals)
| Failed (e : exn)
| OutOfFuel.

(** The [for] loop of line 111 over the generator. *)
Fixpoint for_loop (fuel : nat) (pushshift : Pushshift) (g : generator)
  (st : Locals) (env : Env) : outcome * Locals * Env :=
  match fuel with
  | O => (OutOfFuel, st, env)
  | S fuel' =>
      match step pushshift g (world env) with
      | (Yield item, g', pushshift', w') =>
          match loop_body st item (set_world w' env) with
          | (Ok st', env') => for_loop fuel' pushshift' g' st' env'
          | (Raise e, env') => (Failed e, st, env')
          end
      | (Paused, g', pushshift', w') => for_loop fuel' pushshift' g' st (set_world w' env)
      | (StopIteration, _, _, w') => (Completed st, st, set_world w' env)
      | (Raised e, _, _, w') => (Failed e, st, set_world w' env)
      end
  end.

(** [main], after the prompts. *)
Definition main (fuel : nat) (subreddit : string) (choice : option string)
  (prompted : option Z) (env : Env) : outcome * Env :=
  match resolve_resume subreddit choice prompted env with
  | (Raise e, env1) => (Failed e, env1)
  | (Ok st, env1) =>
      match remaining_count (max_submissions st) (posts st) with
      | Raise e => (Failed e, env1)
      | Ok count =>
          match for_loop fuel init (query_submissions subreddit (Some count) (before st))
                         st env1 with
          | (Completed st1, _, env2) =>
              match save_final st1 env2 with
              | (Ok st2, env3) => (Completed st2, env3)
              | (Raise e, env3) => (Failed e, env3)
              end
          | (r, _, env2) => (r, env2)
          end
      end
  end.

(** *** [prompt_archive_choice], lines 42 to 73

    Of the terminal, the lines that [input] will still return are kept;
    what is printed is not, but the conversions made to print the list of
    archives are, as they can raise.  An exception that leaves the prompt
    is named by its class. *)

Inductive prompted (A : Type) : Type :=
| Answer (a : A)
| Uncaught (name : string).
Arguments Answer {A} a.
Arguments Uncaught {A} name.

(** [xs[i]] for a Python list: a negative index counts from the end. *)
Definition list_index {A : Type} (xs : list A) (i : Z) : option A :=
  if (i <? 0)%Z
  then (if (i + Z.of_nat (length xs) <? 0)%Z then None
        else xs !! Z.to_nat (i + Z.of_nat (length xs)))
  else xs !! Z.to_nat i.

Section Prompt.

(** What the interpreter decides: [str.isdigit], [int] on a text ([None]
    for a [ValueError]), and [datetime.fromtimestamp(float(text) / 1000.0)]
    (the date, or the exception raised for a time out of range). *)
Variable isdigit : string -> bool.
Variable int_text : string -> option Z.
Variable fromtimestamp_ms : string -> prompted string.

(** Lines 57 to 64: one line is printed for every archive. *)
Fixpoint list_archives (subreddit : string) (existing_archives : list string)
  : prompted unit :=
  match existing_archives with
  | [] => Answer tt
  | file :: rest =>
      match pattern_match subreddit file with
      | None => Uncaught "AttributeError"
      | Some (max_submissions, t_start, t_end) =>
          (* the group took part in the match: it is never [None] *)
          match int_text max_submissions with
          | None => Uncaught "ValueError"
          | Some _ =>
              match fromtimestamp_ms t_start with
              | Uncaught e => Uncaught e
              | Answer _ =>
                  match fromtimestamp_ms t_end with
                  | Uncaught e => Uncaught e
                  | Answer _ => list_archives subreddit rest
                  end
              end
          end
      end
  end.

(** Lines 66 to 73: the loop ends with an answer or with the end of the
    input. *)
Fixpoint choose (existing_archives : list string) (stdin : list string)
  : prompted (option string) * list string :=
  match stdin with
  | [] => (Uncaught "EOFError", [])
  | choice :: rest =>
      if String.eqb choice "" then (Answer None, rest)
      else if negb (isdigit choice) then choose existing_archives rest
      else
        match int_text choice with
        | None => (Uncaught "ValueError", rest)
        | Some n =>
            if negb ((1 <=? n)%Z && (n <=? Z.of_nat (length existing_archives))%Z)
            then choose existing_archives rest
            else
              match list_index existing_archives (n - 1) with
              | Some file => (Answer (Some file), rest)
              | None => (Uncaught "IndexError", rest)
              end
        end
  end.

(** [prompt_archive_choice], for the names that [ARCHIVES_DIR.iterdir()]
    gives, in its order. *)
Definition prompt_archive_choice (subreddit : string) (names stdin : list string)
  : prompted (option string) * list string :=
  let existing_archives :=
    filter (fun file => is_Some (pattern_match subreddit file)) names in
  match existing_archives with
  | [] => (Answer None, stdin)
  | _ =>
      match list_archives subreddit existing_archives with
      | Uncaught e => (Uncaught e, stdin)
      | Answer _ => choose existing_archives stdin
      end
  end.

End Prompt.

End archive_subreddit.

(** ** [src/experiment_1.py] *)

Module experiment_1.

(** *** Strings and lists of the interpreter *)

(** [text.split(sep)] for a separator of one character. *)
Fixpoint split (sep : ascii) (text : string) : list string :=
  match text with
  | EmptyString => [EmptyString]
  | String c rest =>
      if Ascii.eqb c sep then EmptyString :: split sep rest
      else
        match split sep rest with
        | s :: ss => String c s :: ss
        | [] => [String c EmptyString]
        end
  end.

(** [sub in s]. *)
Fixpoint contains (sub s : string) : bool :=
  String.prefix sub s
  || match s with
     | String _ s' => contains sub s'
     | EmptyString => false
     end.

(** The place of a slice bound in a list of length [len]. *)
Definition slice_bound (len i : Z) : Z :=
  if (i <? 0)%Z then Z.max 0 (i + len) else Z.min i len.

(** [xs[start:stop]]. *)
Definition slice {A : Type} (xs : list A) (start stop : Z) : list A :=
  let len := Z.of_nat (length xs) in
  let i := slice_bound len start in
  let j := slice_bound len stop in
  take (Z.to_nat (j - i)) (drop (Z.to_nat i) xs).

(** The index of the first element that passes [test], counted from [i]. *)
Fixpoint first_match (test : string -> bool) (i : Z) (sentences : list string)
  : option Z :=
  match sentences with
  | [] => None
  | sentence :: rest =>
      if test sentence then Some i else first_match test (i + 1) rest
  end.

Section Excerpt.

(** [str.casefold], which the Unicode tables of the interpreter fix. *)
Variable casefold : string -> string.

(** [sentences_around_keyword], lines 11 to 19. *)
Definition sentences_around_keyword (text keyword : string) (n : Z)
  (case_sensitive : bool) : string :=
  let sentences := split "." text in
  let test sentence :=
    if negb case_sensitive
    then contains (casefold keyword) (casefold sentence)
    else contains keyword sentence in
  match first_match test 0 sentences with
  | Some i =>
      let start := Z.max 0 (i - n) in
      let end_ := Z.min (Z.of_nat (length sentences)) (i + n + 1) in
      String.concat "." (slice sentences start end_)
  | None => ""
  end.

End Excerpt.

(** *** The flattening loop of [main], lines 31 to 48 *)

(** [stack.pop()]: the last element, and the list without it. *)
Definition pop {A : Type} (stack : list A) : option (A * list A) :=
  match last stack with
  | Some x => Some (x, removelast stack)
  | None => None
  end.

(** What [list.extend] appends for a value: the elements of a list, the
    characters of a string, the keys of a dict; no other value can be
    iterated. *)
Definition iterate (v : json) : option (list json) :=
  match v with
  | JArr xs => Some xs
  | JStr s => Some (map (fun c => JStr (String c EmptyString)) (list_ascii_of_string s))
  | JObj kvs => Some (map (fun kv => JStr (fst kv)) kvs)
  | _ => None
  end.

(** [del d[k]] for a key that is there. *)
Fixpoint dict_del (k : string) (kvs : list (string * json)) : list (string * json) :=
  match kvs with
  | [] => []
  | (k', v) :: rest => if String.eqb k k' then rest else (k', v) :: dict_del k rest
  end.

(** [k in d]. *)
Definition has_key (k : string) (kvs : list (string * json)) : bool :=
  match dict_get k kvs with
  | Some _ => true
  | None => false
  end.

(** [d.get(k)] when it is true, as the tests of lines 37 and 40 take it. *)
Definition get_true (k : string) (kvs : list (string * json)) : option json :=
  match dict_get k kvs with
  | Some v => if truthy v then Some v else None
  | None => None
  end.

(** The two lists, or the class of the exception that ends the loop. *)
Inductive flattened : Type :=
| Flattened (submissions comments_and_replies : list json)
| Error (name : string)
| OutOfFuel.

(** Lines 37 to 42 for the dict [s]: the stack and the dict afterwards,
    [None] when [extend] raises. *)
Definition unfold_item (stack : list json) (s : list (string * json))
  : option (list json * list (string * json)) :=
  match get_true "comments" s with
  | Some v =>
      match iterate v with
      | Some xs => Some ((stack ++ xs)%list, dict_del "comments" s)
      | None => None
      end
  | None =>
      match get_true "replies" s with
      | Some v =>
          match iterate v with
          | Some xs => Some ((stack ++ xs)%list, dict_del "replies" s)
          | None => None
          end
      | None => Some (stack, s)
      end
  end.

(** The [while] loop, one turn for every unit of fuel. *)
Fixpoint flatten (fuel : nat) (stack submissions comments_and_replies : list json)
  : flattened :=
  match fuel with
  | O => OutOfFuel
  | S fuel' =>
      match pop stack with
      | None => Flattened submissions comments_and_replies
      | Some (JObj s, stack) =>
          match unfold_item stack s with
          | None => Error "TypeError"
          | Some (stack, s) =>
              if has_key "selftext" s
              then flatten fuel' stack (submissions ++ [JObj s])%list comments_and_replies
              else if has_key "body" s
              then flatten fuel' stack submissions (comments_and_replies ++ [JObj s])%list
              else Error "ValueError"
          end
      | Some (_, _) => Error "AttributeError"
      end
  end.

End experiment_1.

(** ** Vocabulary of the properties *)

(** Time does not run backwards: every amount drawn from the oracle is
    non-negative. *)
Definition nonneg_jitter (w : World) : Prop :=
  Forall (fun j => (0 <= j)%Q) (jitter w).

(** Each acquisition of a run ends at least [wait] after the one before
    it, the first at least [wait] after [t0]. *)
Fixpoint spaced (wait t0 : Q) (acqs : list (Q * Q)) : Prop :=
  match acqs with
  | [] => True
  | (_, t) :: rest => (t0 + wait <= t)%Q /\ spaced wait t rest
  end.

(** *** Sample inputs *)

(** A world whose monotonic clock stands at a quarter of a second. *)
Definition early_world : World :=
  mkWorld (1 # 4) [] [] [] (fun _ _ => GetRaises "ConnectionError").

(** A world with some scheduling noise. *)
Definition noisy_world : World :=
  mkWorld 1000 [(1 # 10)%Q; 0%Q; 2%Q; (1 # 100)%Q] [] [] (fun _ _ => GetRaises "ConnectionError").


(** *** The two definitions of class [Pushshift] *)

(** The instance of the class of [reddit_utils] that holds what an
    instance of the class of [pushshift_api] holds, and back. *)
Definition to_reddit_utils (p : pushshift_api.Pushshift) : reddit_utils.Pushshift :=
  reddit_utils.mkPushshift
    (pushshift_api._wait_between_secs p)
    (pushshift_api._last_request_time p)
    (pushshift_api._request_size p).

Definition of_reddit_utils (p : reddit_utils.Pushshift) : pushshift_api.Pushshift :=
  pushshift_api.mkPushshift
    (reddit_utils._wait_between_secs p)
    (reddit_utils._last_request_time p)
    (reddit_utils._request_size p).

(** The outcome of a method, seen through [to_reddit_utils]. *)
Definition seen_from_reddit_utils {A : Type}
  (x : A * pushshift_api.Pushshift * World) : A * reddit_utils.Pushshift * World :=
  let '(a, p, w) := x in (a, to_reddit_utils p, w).

(** *** Pages of the discovery endpoint *)

(** The request for one page, as [_query_items] builds it. *)
Definition page_request (item_type subreddit_or_id : string) (size : Z) (before : json)
  : request :=
  mkRequest ("reddit/search/" ++ item_type)
    [(if String.eqb item_type "submission" then "subreddit" else "link_id",
      JStr subreddit_or_id);
     ("size", JNum size);
     ("before", before)].

(** A parsed body without a [data] field, whatever its shape. *)
Definition lacks_data (body : json) : Prop :=
  forall v, getitem body "data" <> Ok v.

(** A world whose endpoint answers every request with the JSON text
    [[]]. *)
Definition array_world : World :=
  mkWorld 100 [] [] [] (fun _ _ => GetReturns (mkResponse 200 "[]" (Some (JArr [])))).

(** The answer [a] of the endpoint is a well-formed page holding
    [items]. *)
Definition is_page (a : get_result) (items : list json) : Prop :=
  exists resp body,
    a = GetReturns resp /\ raise_for_status resp = false
    /\ parsed resp = Some body /\ getitem body "data" = Ok (JArr items).

(** From now on the endpoint of [w] answers the successive requests with
    the successive [pages], and with empty pages when these are used up. *)
Definition serves_pages (w : World) (pages : list (list json)) : Prop :=
  forall i rq, is_page (endpoint w (length (served w) + i) rq) (nth i pages []).

(** A raw item has a creation timestamp (the contract of the feed). *)
Definition is_raw_item (item : json) : Prop :=
  exists v, getitem item "created_utc" = Ok v.

(** The items that a sequence of pages makes available: those of the
    pages before the first empty one. *)
Fixpoint feed (pages : list (list json)) : list json :=
  match pages with
  | [] => []
  | [] :: _ => []
  | p :: rest => (p ++ feed rest)%list
  end.

(** The number of pages that are requested to get [n] items. *)
Fixpoint page_requests (n : Z) (pages : list (list json)) : nat :=
  if (n <=? 0)%Z then 0%nat
  else
    match pages with
    | [] => 1%nat
    | [] :: _ => 1%nat
    | p :: rest => S (page_requests (n - Z.of_nat (length p)) rest)
    end.

(** [ceil(n / size)]. *)
Definition ceil_div (n size : Z) : Z := (n + size - 1) / size.

(** Every page that is not empty is full. *)
Definition full_pages (size : Z) (pages : list (list json)) : Prop :=
  Forall (fun p => p = [] \/ size <= Z.of_nat (length p)) pages.

(** A stub of the endpoint that plays a script of pages. *)
Definition page_response (items : list json) : get_result :=
  GetReturns (mkResponse 200 "" (Some (JObj [("data", JArr items)]))).

Definition scripted (pages : list (list json)) : nat -> request -> get_result :=
  fun i _ => page_response (nth i pages []).

Definition scripted_world (pages : list (list json)) : World :=
  mkWorld 100 [] [] [] (scripted pages).

Definition raw_item (id : string) (created_utc : Z) : json :=
  JObj [("id", JStr id); ("created_utc", JNum created_utc)].

(** One page with one item, and nothing after it. *)
Definition short_feed : list (list json) := [[raw_item "a" 9]].

(** Two pages of two items (section 8 of the specification). *)
Definition two_pages : list (list json) :=
  [[raw_item "a" 9; raw_item "b" 8]; [raw_item "c" 7; raw_item "d" 6]].

(** *** Records with sorted keys *)

(** The keys increase strictly in the order of Python on strings (code
    point by code point, a proper prefix first). *)
Fixpoint keys_sorted (ks : list string) : bool :=
  match ks with
  | k1 :: rest =>
      match rest with
      | k2 :: _ => String.ltb k1 k2 && keys_sorted rest
      | [] => true
      end
  | [] => true
  end.

(** A value all of whose dicts, at any depth, have their keys sorted. *)
Fixpoint deep_sorted (v : json) : bool :=
  match v with
  | JArr xs => forallb deep_sorted xs
  | JObj kvs =>
      keys_sorted (map fst kvs) && forallb (fun kv => deep_sorted (snd kv)) kvs
  | _ => true
  end.

(** *** A sample session *)

(** A stub of the detail API: every identifier names a submission of
    2023-01-01 with one comment that has one reply. *)
Definition sample_submission (id : json) : reddit_utils.Submission.t :=
  reddit_utils.Submission.mk
    (Some "alice") reddit_utils.SNone 1672531200 reddit_utils.SNone
    (reddit_utils.SBool false)
    (match id with JStr s => s | _ => "" end)
    false reddit_utils.SNone false "t3_a" 2 false "/r/x/comments/a"
    reddit_utils.SNone 10 "text" false false "x" "title"
    (reddit_utils.SFloat (97 # 100)) "https://example.org".

Definition sample_reply : reddit_utils.Comment.t :=
  reddit_utils.Comment.mk None "reply" 1672531300 reddit_utils.SNone
    (reddit_utils.SBool false) "c2" true "t3_a" "t1_c1" "/r/x/comments/a/c2" [] 1 false.

Definition sample_comment : reddit_utils.Comment.t :=
  reddit_utils.Comment.mk (Some "bob") "comment" 1672531250 reddit_utils.SNone
    (reddit_utils.SFloat 1672531260) "c1" false "t3_a" "t3_a" "/r/x/comments/a/c1"
    [sample_reply] 3 false.

Definition sample_reddit (id : json)
  : result (reddit_utils.Submission.t * list reddit_utils.Comment.t) :=
  Ok (sample_submission id, [sample_comment]).

(** An empty directory, a wall clock that shows 5, 6, 7, ... milliseconds
    and a feed of two pages. *)
Definition sample_env : archive_subreddit.Env :=
  archive_subreddit.mkEnv (scripted_world two_pages) [5; 6; 7; 8; 9; 10] ∅ []
    sample_reddit.

(** *** The log of the directory *)

(** The name of the file written last. *)
Fixpoint last_written (log : list archive_subreddit.fs_op) : option string :=
  match log with
  | [] => None
  | op :: rest =>
      match last_written rest with
      | Some name => Some name
      | None =>
          match op with
          | archive_subreddit.WriteText name => Some name
          | archive_subreddit.Unlink _ => None
          end
      end
  end.

(** The session that asks for 50 submissions of [sample_env]. *)
Definition sample_run : archive_subreddit.outcome * archive_subreddit.Env :=
  archive_subreddit.main 20 "x" None (Some 50) sample_env.

(** *** Sessions that resume *)

(** The record that [sample_reddit] gives for a raw item. *)
Definition sample_record : json :=
  match archive_subreddit.enrich (raw_item "a" 9) sample_env with
  | Ok record => record
  | Raise _ => JNull
  end.

(** The checkpoint of a session that asked for 150 submissions, written
    when it had 100 of them, in a directory that holds nothing else; the
    feed has nothing more to give. *)
Definition checkpoint_150 : string := "intermediate_x_150_5_7.json".

Definition resumable_env : archive_subreddit.Env :=
  archive_subreddit.mkEnv (scripted_world []) [8; 9]
    {[ checkpoint_150 := repeat sample_record 100 ]} [] sample_reddit.

(** The checkpoint of a session that asked for 300 submissions, written
    at millisecond 7 when it had 100 of them; a wall clock that shows
    millisecond 7 again at every reading; an endpoint that gives one page
    of 100 items and then answers with status 500. *)
Definition checkpoint_300 : string := "intermediate_x_300_5_7.json".

Definition failing_endpoint : nat -> request -> get_result :=
  fun i _ =>
    match i with
    | O => page_response (repeat (raw_item "a" 9) 100)
    | S _ => GetReturns (mkResponse 500 "Internal Server Error" None)
    end.

Definition stuck_clock_env : archive_subreddit.Env :=
  archive_subreddit.mkEnv (mkWorld 100 [] [] [] failing_endpoint) (repeat 7 100)
    {[ checkpoint_300 := repeat sample_record 100 ]} [] sample_reddit.

(** *** How long a bounded generator can go on *)

(** The slice that is being yielded is within what is pending. *)
Definition frame_ok (f : frame) : Prop :=
  match f with
  | FLoop (PInt m) _ rest => (length rest <= Z.to_nat m)%nat
  | _ => True
  end.


(** The generator was made with a bound. *)
Definition frame_bounded (f : frame) : Prop :=
  match f with
  | FStart None _ => False
  | FLoop PInf _ _ => False
  | _ => True
  end.

(** The file that a session holds, if it holds one, is an intermediate
    archive of the subreddit [sub]. *)
Definition intermediate_of (sub : string) (file : option string) : Prop :=
  match file with
  | None => True
  | Some f => exists r, f = "intermediate_" ++ sub ++ "_" ++ r
  end.

(** *** Discovery with any count *)

(** The creation timestamp that the loop copies into [before]. *)
Definition created_utc_of (item : json) : json :=
  match getitem item "created_utc" with
  | Ok v => v
  | Raise _ => JNull
  end.

(** The value of [before] after the items of a slice have been yielded. *)
Definition last_cursor (before : json) (items : list json) : json :=
  fold_left (fun _ item => created_utc_of item) items before.

(** What is pending after [k] more items. *)
Definition pending_after (p : pending) (k : nat) : pending :=
  Nat.iter k pending_dec p.

(** The items that a client with [p] pending gets out of a sequence of
    pages. *)
Fixpoint yielded (p : pending) (pages : list (list json)) : list json :=
  match pages with
  | [] => []
  | [] :: _ => []
  | page :: rest =>
      if pending_pos p
      then (slice_upto page p
            ++ yielded (pending_after p (length (slice_upto page p))) rest)%list
      else []
  end.

(** The values of [before] of the requests that it makes for them. *)
Fixpoint cursors (p : pending) (before : json) (pages : list (list json)) : list json :=
  if pending_pos p
  then
    match pages with
    | [] => [before]
    | [] :: _ => [before]
    | page :: rest =>
        before :: cursors (pending_after p (length (slice_upto page p)))
                          (last_cursor before (slice_upto page p)) rest
    end
  else [].

(** The pages before the first empty one. *)
Fixpoint leading_pages (pages : list (list json)) : list (list json) :=
  match pages with
  | [] => []
  | [] :: _ => []
  | page :: rest => page :: leading_pages rest
  end.

(** [pending_items] as [_query_items] sets it from [count]. *)
Definition pending_of (count : option Z) : pending :=
  match count with
  | None => PInf
  | Some n => PInt n
  end.

(** The endpoint answers the next requests with the [pages], none of them
    empty, and the one after them with the response [resp]. *)
Definition serves_then (w : World) (pages : list (list json)) (resp : response) : Prop :=
  (forall i rq, (i < length pages)%nat ->
     is_page (endpoint w (length (served w) + i) rq) (nth i pages []))
  /\ (forall rq, endpoint w (length (served w) + length pages) rq = GetReturns resp)
  /\ Forall (fun page => page <> []) pages.

(** [itertools.islice(gen, k)] consumed: at most [k] items are taken from
    the generator, which is then left alone. *)
Fixpoint pull {P : Type}
  (step : P -> generator -> World -> step_result * generator * P * World)
  (fuel k : nat) (self : P) (g : generator) (w : World)
  : list json * generator * P * World :=
  match fuel with
  | O => ([], g, self, w)
  | S fuel' =>
      match k with
      | O => ([], g, self, w)
      | S k' =>
          match step self g w with
          | (Yield item, g', self', w') =>
              let '(items, g'', self'', w'') := pull step fuel' k' self' g' w' in
              (item :: items, g'', self'', w'')
          | (Paused, g', self', w') => pull step fuel' k self' g' w'
          | (_, g', self', w') => ([], g', self', w')
          end
      end
  end.

(** A feed whose second page makes the bound cut in. *)
Definition cut_feed : list (list json) :=
  [[raw_item "a" 9; raw_item "b" 8]; [raw_item "c" 7; raw_item "d" 6; raw_item "e" 5]].

(** An endpoint that gives the two pages of [two_pages] and then answers
    with status 404. *)
Definition not_found : response := mkResponse 404 "Not Found" None.

Definition breaking_world : World :=
  mkWorld 100 [] [] []
    (fun i _ =>
       match nth_error two_pages i with
       | Some page => page_response page
       | None => GetReturns not_found
       end).

(** A server that answers every attempt with status 503. *)
Definition unavailable : response := mkResponse 503 "Service Unavailable" None.

Definition unavailable_world : World :=
  mkWorld 100 [] [] [] (fun _ _ => GetReturns unavailable).

(** The count leaves room for [k] items and more. *)
Definition covers (p : pending) (k : nat) : Prop :=
  match p with
  | PInf => True
  | PInt n => Z.of_nat k < n
  end.

(** How many items a bounded generator can still yield, and how many
    requests it can still make. *)
Definition yield_budget (f : frame) : nat :=
  match f with
  | FStart (Some n) _ => Z.to_nat n
  | FLoop (PInt m) _ _ => Z.to_nat m
  | _ => 0
  end.

Definition request_budget (f : frame) : nat :=
  match f with
  | FStart (Some n) _ => Z.to_nat n
  | FLoop (PInt m) _ rest => Z.to_nat m - length rest
  | _ => 0
  end.

(** An endpoint that answers every request with a page of three items,
    more than a client with a bound of 2 asks for, and without end. *)
Definition endless_world : World :=
  mkWorld 100 [] [] []
    (fun _ _ => page_response [raw_item "a" 9; raw_item "b" 8; raw_item "c" 7]).

(** A raw item without its creation timestamp. *)
Definition untimed_item : json := JObj [("id", JStr "z")].

(** An endpoint whose pages have an item without timestamp in second
    place. *)
Definition untimed_world : World :=
  mkWorld 100 [] [] []
    (fun _ _ => page_response [raw_item "a" 9; untimed_item; raw_item "c" 7]).

(** The request of [query_submission_count]. *)
Definition count_request (subreddit : string) : request :=
  mkRequest "reddit/search/submission"
    [("subreddit", JStr subreddit); ("metadata", JBool true)].

(** *** Decimal texts *)

(** One step of [int] on a string of digits. *)
Definition digit_step (acc : Z) (c : ascii) : Z :=
  10 * acc + Z.of_nat (nat_of_ascii c - 48).

(** A string of digits. *)
Fixpoint all_digits (s : string) : bool :=
  match s with
  | EmptyString => true
  | String c s' => archive_subreddit.is_digit c && all_digits s'
  end.

(** *** More sample sessions *)

(** A state with one record, as an intermediate save could find it. *)
Definition one_record_state : archive_subreddit.Locals :=
  archive_subreddit.mkLocals "x" (Some 150) 5 7 JNull [sample_record] None.

(** A fresh session that asks for no submission at all. *)
Definition empty_run : archive_subreddit.outcome * archive_subreddit.Env :=
  archive_subreddit.main 2 "x" None (Some 0) sample_env.

(** The name of a checkpoint that says [inf]. *)
Definition checkpoint_inf : string := "intermediate_x_inf_5_7.json".

(** A state that holds the checkpoint of [resumable_env]. *)
Definition resumed_state : archive_subreddit.Locals :=
  archive_subreddit.mkLocals "x" (Some 150) 5 9 (JStr "2023-01-01 00:00:00")
    [sample_record; sample_record] (Some checkpoint_150).

(** *** Dicts and trees *)

(** The identifiers of the comments of a tree, parents before their
    replies, replies in their order. *)
Fixpoint comment_ids (comment : reddit_utils.Comment.t) : list string :=
  reddit_utils.Comment.id comment
  :: flat_map comment_ids (reddit_utils.Comment.replies comment).

(** The [id] members of the dicts nested in a value, each dict before the
    dicts inside it. *)
Fixpoint all_ids (v : json) : list json :=
  match v with
  | JArr xs => flat_map all_ids xs
  | JObj kvs =>
      (match dict_get "id" kvs with
       | Some i => [i]
       | None => []
       end
       ++ flat_map (fun kv => all_ids (snd kv)) kvs)%list
  | _ => []
  end.

(** *** The prompt *)

(** The conversions of the interpreter on texts of ASCII characters. *)
Definition ascii_isdigit (s : string) : bool :=
  negb (String.eqb s "") && all_digits s.

Definition ascii_int (s : string) : option Z :=
  if ascii_isdigit s then Some (archive_subreddit.int s) else None.

Definition plain_date (s : string) : archive_subreddit.prompted string :=
  archive_subreddit.Answer s.

Definition sample_names : list string :=
  ["x_3_5_9.json"; "intermediate_x_150_5_9.json"; "notes.txt";
   "intermediate_x_300_5_9.json"].

(** *** Excerpts *)

(** Case folding of the letters A to Z, every other character kept. *)
Definition lower_ascii (c : ascii) : ascii :=
  let n := nat_of_ascii c in
  if (65 <=? n)%nat && (n <=? 90)%nat then ascii_of_nat (n + 32) else c.

Fixpoint ascii_casefold (s : string) : string :=
  match s with
  | EmptyString => EmptyString
  | String c s' => String (lower_ascii c) (ascii_casefold s')
  end.

Definition sample_text : string :=
  "Intro here. A man called Tate spoke. He left. The end.".

(** *** Archives as the flattening loop reads them *)

(** The record that line 116 of the driver builds for a submission and
    its comment forest. *)
Definition record_of (pair : reddit_utils.Submission.t * list reddit_utils.Comment.t)
  : json :=
  JObj (archive_subreddit.sorted_items
          (archive_subreddit.dict_set "comments"
             (JArr (map reddit_utils.comment_to_dict pair.2))
             (reddit_utils.submission_to_dict pair.1))).

(** The [id] member of a dict. *)
Definition item_id (v : json) : option json :=
  match v with
  | JObj kvs => dict_get "id" kvs
  | _ => None
  end.

Definition forest_ids (comments : list reddit_utils.Comment.t) : list string :=
  flat_map comment_ids comments.

(** What lies on the stack of the loop: the record of a submission, or
    the dict of a comment. *)
Inductive node : Type :=
| Post (submission : reddit_utils.Submission.t) (comments : list reddit_utils.Comment.t)
| Reply (comment : reddit_utils.Comment.t).

Definition node_dict (n : node) : json :=
  match n with
  | Post submission comments => record_of (submission, comments)
  | Reply comment => reddit_utils.comment_to_dict comment
  end.

Definition node_children (n : node) : list node :=
  match n with
  | Post _ comments => map Reply comments
  | Reply comment => map Reply (reddit_utils.Comment.replies comment)
  end.

Definition node_comment_ids (n : node) : list string :=
  match n with
  | Post _ comments => forest_ids comments
  | Reply comment => comment_ids comment
  end.

Definition node_post_ids (n : node) : list string :=
  match n with
  | Post submission _ => [reddit_utils.Submission.id submission]
  | Reply _ => []
  end.

(** The turns of the loop that a node takes, with all below it. *)
Definition node_weight (n : node) : nat :=
  match n with
  | Post _ comments => S (length (forest_ids comments))
  | Reply comment => length (comment_ids comment)
  end.

Definition stack_weight (ns : list node) : nat := list_sum (map node_weight ns).

Definition some_id (i : string) : option json := Some (JStr i).

(** A bound on the turns of the loop that a value on the stack can take. *)
Fixpoint json_weight (v : json) : nat :=
  match v with
  | JArr xs => S (list_sum (map json_weight xs))
  | JObj kvs => S (list_sum (map (fun kv => S (json_weight (snd kv))) kvs))
  | JStr s => S (String.length s)
  | _ => 1
  end.

Definition data_weight (stack : list json) : nat := list_sum (map json_weight stack).

(** *** Names that the pattern reads as they are *)

(** A character that stands for itself in a regular expression: a letter
    of A to Z or a to z, a digit or an underscore. *)
Definition word_char (c : ascii) : bool :=
  let n := nat_of_ascii c in
  ((48 <=? n)%nat && (n <=? 57)%nat) || ((65 <=? n)%nat && (n <=? 90)%nat)
  || ((97 <=? n)%nat && (n <=? 122)%nat) || (n =? 95)%nat.

(** A subreddit name made of such characters: interpolated into the
    pattern of line 79 it matches itself and nothing else. *)
Fixpoint plain (s : string) : bool :=
  match s with
  | EmptyString => true
  | String c s' => word_char c && plain s'
  end.

(** *** Creation times that can be printed *)

(** A time stamp from 1970 to the day before the end of the year 9999:
    [datetime.fromtimestamp(ts).strftime] returns for it in every time
    zone (beyond the year 9999 it raises [ValueError]). *)
Definition printable (ts : Z) : bool := (0 <=? ts)%Z && (ts <? 253402214400)%Z.

Fixpoint comment_printable (comment : reddit_utils.Comment.t) : bool :=
  printable (reddit_utils.Comment.created_utc comment)
  && forallb comment_printable (reddit_utils.Comment.replies comment).

(** The detail API answers with creation times that can be printed. *)
Definition answers_printable
  (reddit : json -> result (reddit_utils.Submission.t * list reddit_utils.Comment.t))
  : Prop :=
  forall id submission comments,
    reddit id = Ok (submission, comments) ->
    printable (reddit_utils.Submission.created_utc submission) = true
    /\ forallb comment_printable comments = true.
(** * The rate limiter *)

Section RateLimit.
Import pushshift_api.

Lemma nonneg_jitter_hd w : nonneg_jitter w -> (0 <= hd 0 (jitter w))%Q.
Proof.
  unfold nonneg_jitter. destruct (jitter w) as [|j js]; simpl; intros H.
  - lra.
  - by inversion H.
Qed.

Lemma nonneg_jitter_perf_counter w :
  nonneg_jitter w -> nonneg_jitter (snd (perf_counter w)).
Proof.
  unfold nonneg_jitter, perf_counter; simpl.
  destruct (jitter w) as [|j js]; simpl; intros H; [done|by inversion H].
Qed.

Lemma nonneg_jitter_sleep d w : nonneg_jitter w -> nonneg_jitter (sleep d w).
Proof. done. Qed.

(** What one acquisition does to the instance and to the world. *)
Lemma acquire_spec self w :
  let t1 := (clock w + hd 0 (jitter w))%Q in
  let d := Qmax 0 (_wait_between_secs self - (t1 - _last_request_time self)) in
  let t2 := (t1 + d + hd 0 (tl (jitter w)))%Q in
  _handle_ratelimit_before_request self w =
    (mkPushshift (_wait_between_secs self) t2 (_request_size self),
     mkWorld t2 (tl (tl (jitter w))) (sleeps w ++ [d]) (served w) (endpoint w)).
Proof. reflexivity. Qed.

Lemma acquire_nonneg_jitter self w :
  nonneg_jitter w -> nonneg_jitter (snd (_handle_ratelimit_before_request self w)).
Proof.
  intros H. rewrite acquire_spec. unfold nonneg_jitter in *. simpl.
  destruct (jitter w) as [|j [|j' js]]; simpl; try done.
  inversion H as [|? ? _ H']. by inversion H'.
Qed.

Lemma acquire_n_spaced n : forall self w,
  nonneg_jitter w ->
  spaced (_wait_between_secs self) (_last_request_time self) (acquire_n n self w).
Proof.
  induction n as [|n IH]; intros self w Hj; [done|].
  cbn [acquire_n]. rewrite acquire_spec. cbn [spaced]. split.
  - cbn [_last_request_time].
    pose proof (Q.le_max_r 0%Q (_wait_between_secs self
      - (clock w + hd 0 (jitter w) - _last_request_time self))%Q) as Hmax.
    assert (Hj2 : (0 <= hd 0 (tl (jitter w)))%Q).
    { unfold nonneg_jitter in Hj. destruct (jitter w) as [|j [|j' js]]; simpl; try lra.
      inversion Hj as [|? ? _ H']. by inversion H'. }
    lra.
  - pose proof (acquire_nonneg_jitter self w Hj) as Hj'.
    rewrite acquire_spec in Hj'.
    exact (IH (mkPushshift _ _ _) _ Hj').
Qed.

Lemma spaced_lookup wait t0 acqs i a b :
  spaced wait t0 acqs ->
  acqs !! i = Some a -> acqs !! S i = Some b -> (snd a + wait <= snd b)%Q.
Proof.
  revert t0 i. induction acqs as [|[s t] rest IH]; intros t0 i Hs Ha Hb; [done|].
  destruct Hs as [_ Hs]. destruct i as [|i].
  - injection Ha as <-. destruct rest as [|[s' t'] rest]; [done|].
    injection Hb as <-. by destruct Hs.
  - exact (IH t i Hs Ha Hb).
Qed.

End RateLimit.

Section RateLimitClaims.
Import pushshift_api.

(** What the rate limiter does guarantee, in exact arithmetic.  For
    every number of consecutive acquisitions on a fresh instance, under a
    clock that does not run backwards: the clock readings that end two consecutive
    acquisitions are at least [60 / server_ratelimit_per_minute] seconds
    apart; the first acquisition sleeps [max(0, wait - t1)] where [t1] is
    the reading of the clock at that moment, which is no time at all when
    [t1] is at least [wait], and the rest of [wait] when it is less. *)
Lemma ratelimit_spacing_and_first_wait (n : nat) (w : World) :
  nonneg_jitter w ->
  let acqs := acquire_n n init w in
  let wait := (60 / server_ratelimit_per_minute)%Q in
  let t1 := (clock w + hd 0 (jitter w))%Q in
  (forall i a b, acqs !! i = Some a -> acqs !! S i = Some b ->
                 (snd a + wait <= snd b)%Q)
  /\ (forall a, acqs !! 0%nat = Some a -> fst a = Qmax 0 (wait - (t1 - 0)))
  /\ (forall a, acqs !! 0%nat = Some a -> (wait <= t1)%Q -> fst a == 0)
  /\ (forall a, acqs !! 0%nat = Some a -> (t1 < wait)%Q -> fst a == wait - t1).
Proof.
  intros Hj acqs wait t1.
  assert (Hfirst : forall a, acqs !! 0%nat = Some a -> fst a = Qmax 0 (wait - (t1 - 0))).
  { intros a. subst acqs. destruct n as [|n]; [done|].
    cbn [acquire_n]. rewrite acquire_spec. cbn [lookup list_lookup].
    intros [= <-]. cbn [fst sleeps]. by rewrite last_last. }
  repeat split.
  - intros i a b. apply (spaced_lookup wait 0).
    exact (acquire_n_spaced n init w Hj).
  - exact Hfirst.
  - intros a Ha Hle. rewrite (Hfirst a Ha).
    destruct (Q.max_spec 0 (wait - (t1 - 0))) as [[? ->]|[? ->]]; lra.
  - intros a Ha Hlt. rewrite (Hfirst a Ha).
    destruct (Q.max_spec 0 (wait - (t1 - 0))) as [[? ->]|[? ->]]; lra.
Qed.

Lemma ratelimit_spacing_and_first_wait_witness :
  nonneg_jitter noisy_world /\
  (forall i a b, acquire_n 3 init noisy_world !! i = Some a ->
                 acquire_n 3 init noisy_world !! S i = Some b ->
                 (snd a + 60 / server_ratelimit_per_minute <= snd b)%Q).
Proof.
  assert (H : nonneg_jitter noisy_world).
  { unfold nonneg_jitter, noisy_world; simpl. repeat constructor; unfold Qle; simpl; lia. }
  split; [exact H|].
  exact (proj1 (ratelimit_spacing_and_first_wait 3 noisy_world H)).
Defined.

(** The first acquisition is not always free. *)
Lemma first_acquisition_can_block :
  ~ (forall w, nonneg_jitter w ->
       forall a, acquire_n 1 init w !! 0%nat = Some a -> fst a == 0).
Proof.
  intros H.
  assert (Hj : nonneg_jitter early_world) by constructor.
  specialize (H early_world Hj _ eq_refl).
  vm_compute in H. discriminate.
Qed.

(** C6 does not hold of the code.  The spacing of consecutive
    acquisitions is as claimed, but the first acquisition on a fresh
    instance is not free whatever the clock shows: when the monotonic
    clock reads a quarter of a second, it sleeps three quarters of a
    second and ends when the clock reads one second. *)
Theorem first_acquisition_sleeps_on_young_clock :
  exists slept ended,
    acquire_n 1 init early_world = [(slept, ended)]
    /\ slept == 3 # 4
    /\ ended == 1.
Proof. eexists _, _. split; [reflexivity|]. split; reflexivity. Qed.

End RateLimitClaims.

(** * The rate limiter does not wait longer than it must *)

Section RateLimitMore.
Import pushshift_api.

Lemma acquire_n_sleeps n : forall self w,
  nonneg_jitter w ->
  (0 <= _wait_between_secs self)%Q ->
  (_last_request_time self <= clock w)%Q ->
  Forall (fun a => (0 <= fst a)%Q /\ (fst a <= _wait_between_secs self)%Q)
         (acquire_n n self w).
Proof.
  induction n as [|n IH]; intros self w Hj Hwait Hlast; [constructor|].
  cbn [acquire_n]. rewrite acquire_spec.
  pose proof (nonneg_jitter_hd w Hj) as Hj1.
  constructor.
  - cbn [fst sleeps]. rewrite last_last.
    destruct (Q.max_spec 0 (_wait_between_secs self
                - (clock w + hd 0 (jitter w) - _last_request_time self))%Q)
      as [[? ->]|[? ->]]; split; lra.
  - pose proof (acquire_nonneg_jitter self w Hj) as Hj'.
    rewrite acquire_spec in Hj'.
    apply (IH (mkPushshift _ _ _) _ Hj'); cbn; [done|lra].
Qed.

(** No overshoot.  On a fresh instance, under a clock that does not run
    backwards and does not read below zero, no acquisition of a run sleeps
    longer than [60 / server_ratelimit_per_minute] seconds, and none for a
    negative time. *)
Theorem sleeps_within_wait (n : nat) (w : World) :
  nonneg_jitter w ->
  (0 <= clock w)%Q ->
  Forall (fun a => (0 <= fst a)%Q /\ (fst a <= 60 / server_ratelimit_per_minute)%Q)
         (acquire_n n init w).
Proof.
  intros Hj Hclock. apply (acquire_n_sleeps n init w Hj); cbn; [|done].
  unfold Qle; cbn; lia.
Qed.

Lemma sleeps_within_wait_witness :
  (nonneg_jitter noisy_world /\ (0 <= clock noisy_world)%Q)
  /\ Forall (fun a => (0 <= fst a)%Q /\ (fst a <= 60 / server_ratelimit_per_minute)%Q)
            (acquire_n 3 init noisy_world).
Proof.
  assert (Hj : nonneg_jitter noisy_world).
  { unfold nonneg_jitter, noisy_world; simpl. repeat constructor; unfold Qle; simpl; lia. }
  assert (Hc : (0 <= clock noisy_world)%Q) by (unfold Qle; simpl; lia).
  split; [split; [exact Hj|exact Hc]|].
  exact (sleeps_within_wait 3 noisy_world Hj Hc).
Defined.

(** ** A caller that is slow enough is not held up *)

Lemma nth_tl_tl (k : nat) (l : list Q) : nth k (tl (tl l)) 0%Q = nth (S (S k)) l 0%Q.
Proof. destruct l as [|x [|y l]]; by destruct k. Qed.

Lemma acquire_n_first n self w a :
  acquire_n n self w !! 0%nat = Some a ->
  (_wait_between_secs self <= clock w + hd 0 (jitter w) - _last_request_time self)%Q ->
  fst a == 0.
Proof.
  destruct n as [|n]; [done|]. cbn [acquire_n]. rewrite acquire_spec.
  cbn [lookup list_lookup]. intros [= <-] Hgap. cbn [fst sleeps]. rewrite last_last.
  apply Q.max_l. lra.
Qed.

Lemma acquire_n_later n : forall self w i a,
  acquire_n n self w !! S i = Some a ->
  (_wait_between_secs self <= nth (2 * S i) (jitter w) 0)%Q ->
  fst a == 0.
Proof.
  induction n as [|n IH]; intros self w i a; [done|].
  cbn [acquire_n]. rewrite acquire_spec. cbn [lookup list_lookup].
  destruct i as [|i]; intros Ha Hgap.
  - apply (acquire_n_first n _ _ a Ha). cbn [_wait_between_secs _last_request_time clock jitter].
    replace (hd 0%Q (tl (tl (jitter w)))) with (nth 2 (jitter w) 0%Q)
      by (by destruct (jitter w) as [|x [|y [|z l]]]).
    cbn in Hgap. lra.
  - apply (IH _ _ i a Ha). cbn [_wait_between_secs jitter]. rewrite nth_tl_tl.
    replace (S (S (2 * S i))) with (2 * S (S i))%nat by lia. exact Hgap.
Qed.

(** No needless wait.  On a fresh instance, an acquisition that starts
    when at least [60 / server_ratelimit_per_minute] seconds have passed
    on the clock since the acquisition before it ended does not sleep; nor
    does the first one when the clock reads at least that much.  (The time
    that passes between two readings of the clock is what the oracle
    gives: two readings for every acquisition.) *)
Theorem slow_caller_is_not_delayed (n : nat) (w : World) :
  let acqs := acquire_n n init w in
  let wait := (60 / server_ratelimit_per_minute)%Q in
  (forall a, acqs !! 0%nat = Some a ->
     (wait <= clock w + hd 0 (jitter w))%Q -> fst a == 0)
  /\ (forall i a, acqs !! S i = Some a ->
        (wait <= nth (2 * S i) (jitter w) 0)%Q -> fst a == 0).
Proof.
  intros acqs wait. split.
  - intros a Ha Hgap. apply (acquire_n_first n init w a Ha).
    cbn [_wait_between_secs _last_request_time init]. subst wait. lra.
  - intros i a Ha Hgap. exact (acquire_n_later n init w i a Ha Hgap).
Qed.

Lemma slow_caller_is_not_delayed_witness :
  exists a,
    acquire_n 2 init noisy_world !! 1%nat = Some a
    /\ (60 / server_ratelimit_per_minute <= nth 2 (jitter noisy_world) 0)%Q
    /\ fst a == 0.
Proof.
  eexists. split; [reflexivity|].
  assert (Hgap : (60 / server_ratelimit_per_minute <= nth 2 (jitter noisy_world) 0)%Q)
    by (unfold Qle; simpl; lia).
  split; [exact Hgap|].
  exact (proj2 (slow_caller_is_not_delayed 2 noisy_world) 0%nat _ eq_refl Hgap).
Defined.

End RateLimitMore.

(** * The two definitions of class [Pushshift] agree *)

Section TwoClasses.

Lemma to_of_reddit_utils p : to_reddit_utils (of_reddit_utils p) = p.
Proof. by destruct p. Qed.

Lemma of_to_reddit_utils p : of_reddit_utils (to_reddit_utils p) = p.
Proof. by destruct p. Qed.

Lemma ratelimit_agrees p w :
  reddit_utils._handle_ratelimit_before_request (to_reddit_utils p) w
  = (let '(p', w') := pushshift_api._handle_ratelimit_before_request p w in
     (to_reddit_utils p', w')).
Proof. reflexivity. Qed.

Lemma get_agrees rq w : reddit_utils.get rq w = pushshift_api.get rq w.
Proof. reflexivity. Qed.

Lemma query_submission_count_agrees p subreddit w :
  reddit_utils.query_submission_count (to_reddit_utils p) subreddit w
  = seen_from_reddit_utils (pushshift_api.query_submission_count p subreddit w).
Proof.
  unfold reddit_utils.query_submission_count, pushshift_api.query_submission_count.
  rewrite ratelimit_agrees.
  destruct (pushshift_api._handle_ratelimit_before_request p w) as [p1 w1].
  rewrite get_agrees.
  destruct (pushshift_api.get _ w1) as [[name|resp] w2]; [done|].
  destruct (raise_for_status resp); [done|].
  destruct (parsed resp) as [body|]; [|done].
  destruct (_ ← getitem body "metadata"; _) as [v|[]]; done.
Qed.

Lemma request_page_agrees p it sid pend before w :
  reddit_utils.request_page (to_reddit_utils p) it sid pend before w
  = (let '(r, f, p', w') := pushshift_api.request_page p it sid pend before w in
     (r, f, to_reddit_utils p', w')).
Proof.
  unfold reddit_utils.request_page, pushshift_api.request_page.
  rewrite ratelimit_agrees.
  destruct (pushshift_api._handle_ratelimit_before_request p w) as [p1 w1].
  change (reddit_utils._request_size (to_reddit_utils p1))
    with (pushshift_api._request_size p1).
  rewrite get_agrees.
  destruct (pushshift_api.get _ w1) as [[name|resp] w2]; [done|].
  destruct (raise_for_status resp); [done|].
  destruct (parsed resp) as [body|]; [|done].
  destruct (getitem body "data") as [items|[]]; try done.
  destruct (negb (truthy items)); [done|].
  by destruct items.
Qed.

Lemma step_agrees p g w :
  reddit_utils.step (to_reddit_utils p) g w
  = (let '(r, g', p', w') := pushshift_api.step p g w in
     (r, g', to_reddit_utils p', w')).
Proof.
  unfold reddit_utils.step, pushshift_api.step.
  destruct (gframe g) as [count before|pend before [|item rest]|].
  - by destruct (_ || _).
  - destruct (pending_pos pend); [|done].
    rewrite request_page_agrees.
    by destruct (pushshift_api.request_page _ _ _ _ _ _) as [[[r f] p'] w'].
  - by destruct (getitem item "created_utc").
  - done.
Qed.

Lemma drain_agrees fuel : forall p g w,
  drain reddit_utils.step fuel (to_reddit_utils p) g w
  = (let '(items, r, p', w') := drain pushshift_api.step fuel p g w in
     (items, r, to_reddit_utils p', w')).
Proof.
  induction fuel as [|fuel IH]; intros p g w; [done|].
  cbn [drain]. rewrite step_agrees.
  destruct (pushshift_api.step p g w) as [[[r g'] p'] w'].
  destruct r as [item| | |e]; try done.
  rewrite IH. by destruct (drain pushshift_api.step fuel p' g' w') as [[[? ?] ?] ?].
Qed.

(** C10.  The class [Pushshift] of [pushshift_api] and the class
    [Pushshift] of [reddit_utils] behave alike: their instances correspond
    one to one, a fresh instance to a fresh instance, and on corresponding
    instances, for every input and every endpoint, the rate limiter,
    [query_submission_count], the three generator functions, one
    resumption of a generator and a whole iteration give the same results,
    the same failures, the same requests and the same world. *)
Theorem pushshift_classes_equivalent :
  (forall p, of_reddit_utils (to_reddit_utils p) = p)
  /\ (forall q, to_reddit_utils (of_reddit_utils q) = q)
  /\ to_reddit_utils pushshift_api.init = reddit_utils.init
  /\ (forall p w,
        reddit_utils._handle_ratelimit_before_request (to_reddit_utils p) w
        = (let '(p', w') := pushshift_api._handle_ratelimit_before_request p w in
           (to_reddit_utils p', w')))
  /\ (forall p subreddit w,
        reddit_utils.query_submission_count (to_reddit_utils p) subreddit w
        = seen_from_reddit_utils (pushshift_api.query_submission_count p subreddit w))
  /\ (forall subreddit count before,
        reddit_utils.query_submissions subreddit count before
        = pushshift_api.query_submissions subreddit count before)
  /\ (forall submission_id count before,
        reddit_utils.query_comments submission_id count before
        = pushshift_api.query_comments submission_id count before)
  /\ (forall item_type subreddit_or_id count before,
        reddit_utils._query_items item_type subreddit_or_id count before
        = pushshift_api._query_items item_type subreddit_or_id count before)
  /\ (forall p g w,
        reddit_utils.step (to_reddit_utils p) g w
        = (let '(r, g', p', w') := pushshift_api.step p g w in
           (r, g', to_reddit_utils p', w')))
  /\ (forall fuel p g w,
        drain reddit_utils.step fuel (to_reddit_utils p) g w
        = (let '(items, r, p', w') := drain pushshift_api.step fuel p g w in
           (items, r, to_reddit_utils p', w'))).
Proof.
  split; [exact of_to_reddit_utils|].
  split; [exact to_of_reddit_utils|].
  split; [reflexivity|].
  split; [exact ratelimit_agrees|].
  split; [exact query_submission_count_agrees|].
  split; [reflexivity|].
  split; [reflexivity|].
  split; [reflexivity|].
  split; [exact step_agrees|].
  intros fuel. exact (drain_agrees fuel).
Qed.

End TwoClasses.

(** * Failures of a page request *)

Section PageFailures.
Import pushshift_api.

(** A status of the retry list is an error status, so a response that
    [raise_for_status] lets through has passed the adapter. *)
Lemma retry_adapter_fine resp :
  raise_for_status resp = false -> retry_adapter (GetReturns resp) = GetReturns resp.
Proof.
  unfold raise_for_status, retry_adapter, status_forcelist. intros Hs.
  cbn [existsb].
  repeat match goal with
         | |- context [(?a =? ?b)%Z] => destruct (Z.eqb_spec a b); [lia|]
         end.
  reflexivity.
Qed.

Lemma retry_adapter_cases a :
  (exists name, a = GetRaises name /\ retry_adapter a = GetRaises name)
  \/ (exists resp, a = GetReturns resp
                   /\ existsb (Z.eqb (status_code resp)) status_forcelist = true
                   /\ raise_for_status resp = true
                   /\ retry_adapter a = GetRaises "RetryError")
  \/ (exists resp, a = GetReturns resp
                   /\ existsb (Z.eqb (status_code resp)) status_forcelist = false
                   /\ retry_adapter a = GetReturns resp).
Proof.
  destruct a as [name|resp]; [left; by exists name|]. right.
  cbn [retry_adapter].
  destruct (existsb _ _) eqn:Hr; [left|right; by exists resp].
  exists resp. repeat split; try done.
  destruct (raise_for_status resp) eqn:Hs; [done|].
  pose proof (retry_adapter_fine resp Hs) as Hf. cbn [retry_adapter] in Hf.
  by rewrite Hr in Hf.
Qed.

(** The answer that a page request of [_query_items] gets. *)
Lemma request_page_answer self it sid pend before w :
  request_page self it sid pend before w =
  let '(self1, w1) := _handle_ratelimit_before_request self w in
  let w2 := mkWorld (clock w1) (jitter w1) (sleeps w1)
                    (served w ++ [page_request it sid (_request_size self) before])
                    (endpoint w) in
  match retry_adapter (endpoint w (length (served w))
                                (page_request it sid (_request_size self) before)) with
  | GetRaises name => (Raised (TransportError name), FDone, self1, w2)
  | GetReturns resp =>
      if raise_for_status resp
      then (Raised (PushshiftHTTPError (status_code resp)), FDone, self1, w2)
      else
        match parsed resp with
        | None => (Raised (PushshiftJSONError (text resp)), FDone, self1, w2)
        | Some body =>
            match body with
            | JObj kvs =>
                match dict_get "data" kvs with
                | None => (Raised (PushshiftKeyError body), FDone, self1, w2)
                | Some items =>
                    if negb (truthy items)
                    then (StopIteration, FDone, self1, w2)
                    else
                      match items with
                      | JArr l => (Paused, FLoop pend before (slice_upto l pend), self1, w2)
                      | _ => (Raised TypeError, FDone, self1, w2)
                      end
                end
            | _ => (Raised TypeError, FDone, self1, w2)
            end
        end
  end.
Proof.
  unfold request_page. rewrite acquire_spec. unfold get, http_get, page_request.
  cbn [served endpoint clock jitter sleeps _request_size].
  destruct (retry_adapter (endpoint w _ _)) as [name|resp]; [done|].
  destruct (raise_for_status resp); [done|].
  destruct (parsed resp) as [body|]; [|done].
  destruct body as [|b|n|q|s|xs|kvs]; try done.
  cbn [getitem]. by destruct (dict_get "data" kvs).
Qed.

(** Closes a goal whose hypothesis describes an answer of the endpoint
    that is not the one at hand. *)
Ltac by_answer :=
  intros;
  repeat match goal with
         | H : exists _, _ |- _ => destruct H
         | H : _ /\ _ |- _ => destruct H
         end;
  simplify_eq; cbn; congruence.

(** A page request never yields by itself, and a failing one ends the
    generator. *)
Lemma request_page_raises_done self it sid pend before w e f self' w' :
  request_page self it sid pend before w = (Raised e, f, self', w') -> f = FDone.
Proof.
  rewrite request_page_answer, acquire_spec.
  destruct (retry_adapter (endpoint w _ _)) as [name|resp]; [congruence|].
  destruct (raise_for_status resp); [congruence|].
  destruct (parsed resp) as [body|]; [|congruence].
  destruct body as [|b|n|q|s|xs|kvs]; try congruence.
  destruct (dict_get "data" kvs) as [items|]; [|congruence].
  destruct (negb (truthy items)); [congruence|].
  destruct items; congruence.
Qed.

Lemma is_retry_elem_of (c : Z) :
  existsb (Z.eqb c) status_forcelist = true <-> c ∈ status_forcelist.
Proof.
  rewrite existsb_exists. split.
  - intros (x & Hx & ->%Z.eqb_eq). by apply list_elem_of_In.
  - intros Hc. exists c. split; [by apply list_elem_of_In|apply Z.eqb_refl].
Qed.

(** C5 does not hold of the code.  For every page request of the
    discovery client, with [answer] what the last attempt of the transport
    received: when the answer still has a status of the retry list (429,
    500, 502, 503, 504, 524), the retries are used up and the request
    raises the [RetryError] of the transport, not [PushshiftHTTPError], so
    the status code does not reach the caller.  [PushshiftHTTPError] is
    raised exactly when the answer is a response with a 4xx or 5xx status
    outside that list, and it carries the status; [PushshiftJSONError]
    exactly when the status is fine and the text is not JSON, and it
    carries the text; [PushshiftKeyError] exactly when the status is fine
    and the text decodes to a JSON object without a [data] member, and it
    carries the decoded object; a decoded body that is not an object is a
    [TypeError]; and whenever the request raises, the generator is
    finished and the iteration that made the request yields no item. *)
Theorem page_request_failures self it sid pend before w :
  let answer := endpoint w (length (served w))
                  (page_request it sid (_request_size self) before) in
  let r := request_page self it sid pend before w in
  (forall resp, answer = GetReturns resp -> status_code resp ∈ status_forcelist ->
     raise_for_status resp = true
     /\ r.1.1.1 = Raised (TransportError "RetryError"))
  /\ (forall c, r.1.1.1 = Raised (PushshiftHTTPError c) <->
        exists resp, answer = GetReturns resp /\ raise_for_status resp = true
                     /\ status_code resp ∉ status_forcelist
                     /\ status_code resp = c)
  /\ (forall t, r.1.1.1 = Raised (PushshiftJSONError t) <->
        exists resp, answer = GetReturns resp /\ raise_for_status resp = false
                     /\ parsed resp = None /\ text resp = t)
  /\ (forall b, r.1.1.1 = Raised (PushshiftKeyError b) <->
        exists resp kvs, answer = GetReturns resp /\ raise_for_status resp = false
                         /\ parsed resp = Some b /\ b = JObj kvs
                         /\ dict_get "data" kvs = None)
  /\ (forall resp b, answer = GetReturns resp -> raise_for_status resp = false ->
        parsed resp = Some b -> (forall kvs, b <> JObj kvs) ->
        r.1.1.1 = Raised TypeError)
  /\ (forall e, r.1.1.1 = Raised e ->
        r.1.1.2 = FDone
        /\ (pending_pos pend = true -> forall fuel,
              drain step (S fuel) self (mkGenerator it sid (FLoop pend before [])) w
              = ([], Some (Raised e), r.1.2, r.2))).
Proof.
  intros answer r.
  split; [|split; [|split; [|split; [|split]]]].
  - intros resp Ha Hc. subst r answer. rewrite request_page_answer, acquire_spec.
    apply is_retry_elem_of in Hc.
    destruct (retry_adapter_cases (endpoint w (length (served w))
                (page_request it sid (_request_size self) before)))
      as [(name & Ha' & _)|[(resp' & Ha' & Hr & Hs & ->)|(resp' & Ha' & Hr & _)]];
      rewrite Ha in Ha'; [done| |]; injection Ha' as <-; [done|congruence].
  - intros c. subst r answer. rewrite request_page_answer, acquire_spec.
    destruct (retry_adapter_cases (endpoint w (length (served w))
                (page_request it sid (_request_size self) before)))
      as [(name & Ha & ->)|[(resp & Ha & Hr & Hs & ->)|(resp & Ha & Hr & ->)]];
      cbn [fst snd].
    { split; [done|by_answer]. }
    { split; [done|]. intros (resp' & Ha' & _ & Hn & _). rewrite Ha in Ha'.
      injection Ha' as <-. by apply is_retry_elem_of in Hr. }
    destruct (raise_for_status resp) eqn:Hs; cbn [fst snd].
    { split; [|by_answer]. intros [= <-]. exists resp. repeat split; try done.
      intros Hc%is_retry_elem_of. congruence. }
    split; [|by_answer].
    destruct (parsed resp) as [body|]; [|done].
    destruct body as [|b|n|q|s|xs|kvs]; try done.
    destruct (dict_get "data" kvs) as [items|]; [|done].
    destruct (negb (truthy items)); [done|]. by destruct items.
  - intros t. subst r answer. rewrite request_page_answer, acquire_spec.
    destruct (retry_adapter_cases (endpoint w (length (served w))
                (page_request it sid (_request_size self) before)))
      as [(name & Ha & ->)|[(resp & Ha & Hr & Hs & ->)|(resp & Ha & Hr & ->)]];
      cbn [fst snd].
    { split; [done|by_answer]. }
    { split; [done|by_answer]. }
    destruct (raise_for_status resp) eqn:Hs; cbn [fst snd].
    { split; [done|by_answer]. }
    destruct (parsed resp) as [body|] eqn:Hp; cbn [fst snd].
    2:{ split; [intros [= <-]; eauto|by_answer]. }
    split; [|by_answer].
    destruct body as [|b|n|q|s|xs|kvs]; try done.
    destruct (dict_get "data" kvs) as [items|]; [|done].
    destruct (negb (truthy items)); [done|]. by destruct items.
  - intros b0. subst r answer. rewrite request_page_answer, acquire_spec.
    destruct (retry_adapter_cases (endpoint w (length (served w))
                (page_request it sid (_request_size self) before)))
      as [(name & Ha & ->)|[(resp & Ha & Hr & Hs & ->)|(resp & Ha & Hr & ->)]];
      cbn [fst snd].
    { split; [done|by_answer]. }
    { split; [done|by_answer]. }
    destruct (raise_for_status resp) eqn:Hs; cbn [fst snd].
    { split; [done|by_answer]. }
    destruct (parsed resp) as [body|] eqn:Hp; cbn [fst snd].
    2:{ split; [done|by_answer]. }
    destruct body as [|b|n|q|s|xs|kvs]; try (split; [done|by_answer]).
    destruct (dict_get "data" kvs) as [items|] eqn:Hd.
    2:{ split; [intros [= <-]; eauto 10|by_answer]. }
    split; [|by_answer].
    destruct (negb (truthy items)); [done|]. by destruct items.
  - intros resp b Ha Hs Hp Hb. subst r answer.
    rewrite request_page_answer, acquire_spec, Ha, (retry_adapter_fine _ Hs), Hs, Hp.
    destruct b; try done. by destruct (Hb kvs).
  - intros e He. subst r.
    destruct (request_page self it sid pend before w) as [[[r0 f] self'] w'] eqn:Er.
    cbn in He. subst r0. cbn [fst snd].
    split; [exact (request_page_raises_done _ _ _ _ _ _ _ _ _ _ Er)|].
    intros Hpos fuel. cbn [drain]. unfold step. cbn [gframe item_type subreddit_or_id].
    by rewrite Hpos, Er.
Qed.

Lemma page_request_failures_witness :
  status_code unavailable ∈ status_forcelist
  /\ raise_for_status unavailable = true
  /\ (request_page init "submission" "x" PInf JNull unavailable_world).1.1.1
     = Raised (TransportError "RetryError")
  /\ drain step 3 init (_query_items "submission" "x" None JNull) unavailable_world
     = ([], Some (Raised (TransportError "RetryError")),
        (request_page init "submission" "x" PInf JNull unavailable_world).1.2,
        (request_page init "submission" "x" PInf JNull unavailable_world).2).
Proof.
  assert (Hc : status_code unavailable ∈ status_forcelist)
    by (apply is_retry_elem_of; reflexivity).
  destruct (page_request_failures init "submission" "x" PInf JNull unavailable_world)
    as (Hretry & _ & _ & _ & _ & Hdone).
  destruct (Hretry unavailable eq_refl Hc) as [Hs He].
  split; [exact Hc|]. split; [exact Hs|]. split; [exact He|].
  destruct (Hdone _ He) as [_ Hrun].
  exact (Hrun eq_refl 1%nat).
Defined.

(** A second way in which the code leaves C5: a response whose text is
    the JSON array [[]] is well-formed JSON without a [data] field, and
    the page request raises [TypeError] for it, not [PushshiftKeyError]. *)
Lemma json_array_body_is_no_schema_failure :
  ~ (forall self it sid pend before w resp body,
       endpoint w (length (served w))
                (page_request it sid (_request_size self) before) = GetReturns resp ->
       raise_for_status resp = false ->
       parsed resp = Some body ->
       lacks_data body ->
       (request_page self it sid pend before w).1.1.1 = Raised (PushshiftKeyError body)).
Proof.
  intros H.
  specialize (H init "submission" "x" PInf JNull array_world
                (mkResponse 200 "[]" (Some (JArr []))) (JArr [])
                eq_refl eq_refl eq_refl).
  assert (Hl : lacks_data (JArr [])) by (intros v; discriminate).
  specialize (H Hl). vm_compute in H. discriminate.
Qed.

End PageFailures.

(** * The count query *)

Section CountQuery.
Import pushshift_api.

(** Closes a goal whose hypothesis describes another answer than the one
    at hand. *)
Ltac other_answer :=
  intros;
  repeat match goal with
         | H : exists _, _ |- _ => destruct H
         | H : _ /\ _ |- _ => destruct H
         | H : _ \/ _ |- _ => destruct H
         end;
  simplify_eq; cbn; congruence.

Lemma query_submission_count_answer self subreddit w :
  query_submission_count self subreddit w =
  let '(self1, w1) := _handle_ratelimit_before_request self w in
  let w2 := mkWorld (clock w1) (jitter w1) (sleeps w1)
                    (served w ++ [count_request subreddit]) (endpoint w) in
  (match retry_adapter (endpoint w (length (served w)) (count_request subreddit)) with
   | GetRaises name => Raise (TransportError name)
   | GetReturns resp =>
       if raise_for_status resp then Raise (PushshiftHTTPError (status_code resp))
       else
         match parsed resp with
         | None => Raise (PushshiftJSONError (text resp))
         | Some body =>
             match body with
             | JObj kvs =>
                 match dict_get "metadata" kvs with
                 | None => Raise (PushshiftKeyError body)
                 | Some (JObj m) =>
                     match dict_get "total_results" m with
                     | None => Raise (PushshiftKeyError body)
                     | Some v => Ok v
                     end
                 | Some _ => Raise TypeError
                 end
             | _ => Raise TypeError
             end
         end
   end, self1, w2).
Proof.
  unfold query_submission_count. rewrite acquire_spec. unfold get, http_get, count_request.
  cbn [served endpoint clock jitter sleeps].
  destruct (retry_adapter (endpoint w _ _)) as [name|resp]; [done|].
  destruct (raise_for_status resp); [done|].
  destruct (parsed resp) as [body|]; [|done].
  destruct body as [|b|n|q|s|xs|kvs]; try done.
  cbn [getitem]. destruct (dict_get "metadata" kvs) as [m|]; [|done].
  destruct m as [|b|n|q|s|xs|m]; try done.
  cbn. by destruct (dict_get "total_results" m).
Qed.

(** The count query.  [query_submission_count] sleeps once and makes one
    request, for the submissions of the subreddit with [metadata] set.  It
    returns the [total_results] member of the [metadata] member of the
    decoded body, whatever that value is, exactly when the status is fine
    and both members are there; it raises [PushshiftKeyError] with the
    decoded body exactly when the body is an object in which [metadata] is
    missing, or is an object in which [total_results] is missing; a body or
    a [metadata] member that is no object is a [TypeError]. *)
Theorem submission_count_outcomes self subreddit w :
  let answer := endpoint w (length (served w)) (count_request subreddit) in
  let r := query_submission_count self subreddit w in
  served r.2 = (served w ++ [count_request subreddit])%list
  /\ length (sleeps r.2) = S (length (sleeps w))
  /\ (forall v, r.1.1 = Ok v <->
        exists resp kvs m,
          answer = GetReturns resp /\ raise_for_status resp = false
          /\ parsed resp = Some (JObj kvs)
          /\ dict_get "metadata" kvs = Some (JObj m)
          /\ dict_get "total_results" m = Some v)
  /\ (forall b, r.1.1 = Raise (PushshiftKeyError b) <->
        exists resp kvs,
          answer = GetReturns resp /\ raise_for_status resp = false
          /\ parsed resp = Some b /\ b = JObj kvs
          /\ (dict_get "metadata" kvs = None
              \/ exists m, dict_get "metadata" kvs = Some (JObj m)
                           /\ dict_get "total_results" m = None))
  /\ (forall resp b, answer = GetReturns resp -> raise_for_status resp = false ->
        parsed resp = Some b ->
        (forall kvs, b <> JObj kvs)
        \/ (exists kvs v, b = JObj kvs /\ dict_get "metadata" kvs = Some v
                          /\ forall m, v <> JObj m) ->
        r.1.1 = Raise TypeError).
Proof.
  intros answer r. subst r answer.
  rewrite query_submission_count_answer, acquire_spec.
  cbn [fst snd served sleeps]. split; [done|]. split; [by rewrite length_app, Nat.add_1_r|].
  destruct (endpoint w _ _) as [name|resp].
  { split; [|split]; try (intros ?; split; [done|other_answer]). other_answer. }
  destruct (retry_adapter_cases (GetReturns resp))
    as [(? & [=] & _)|[(? & [= <-] & Hr & Hs & ->)|(? & [= <-] & Hr & ->)]].
  { split; [|split]; try (intros ?; split; [done|other_answer]). other_answer. }
  destruct (raise_for_status resp) eqn:Hs.
  { split; [|split]; try (intros ?; split; [done|other_answer]). other_answer. }
  destruct (parsed resp) as [body|] eqn:Hp.
  2:{ split; [|split]; try (intros ?; split; [done|other_answer]). other_answer. }
  destruct body as [|b|n|q|s|xs|kvs].
  1-6: split; [|split]; try (intros ?; split; [done|other_answer]); intros; by simplify_eq.
  destruct (dict_get "metadata" kvs) as [m|] eqn:Hm.
  2:{ split; [|split].
      - intros ?; split; [done|other_answer].
      - intros b; split; [intros [= <-]; eauto 10|other_answer].
      - intros ? ? ? ? ? [Hb|(kvs' & v & ? & ? & _)]; simplify_eq. by destruct (Hb kvs). }
  destruct m as [|b|n|q|s|xs|m].
  1-6: split; [|split]; try (intros ?; split; [done|other_answer]); intros; by simplify_eq.
  destruct (dict_get "total_results" m) as [v|] eqn:Hv.
  - split; [|split].
    + intros v'; split; [intros [= <-]; eauto 10|other_answer].
    + intros b; split; [done|].
      intros (resp' & kvs' & ? & ? & ? & ? & [?|(m' & ? & ?)]); simplify_eq.
    + intros ? ? ? ? ? [Hb|(kvs' & v' & ? & ? & Hv')]; simplify_eq.
      * by destruct (Hb kvs).
      * by destruct (Hv' m).
  - split; [|split].
    + intros v'; split; [done|other_answer].
    + intros b; split; [intros [= <-]; eauto 10|other_answer].
    + intros ? ? ? ? ? [Hb|(kvs' & v' & ? & ? & Hv')]; simplify_eq.
      * by destruct (Hb kvs).
      * by destruct (Hv' m).
Qed.

End CountQuery.

(** * Discovery with a bound *)

Section Discover.
Import pushshift_api.

Lemma page_requests_nonpos n pages : n <= 0 -> page_requests n pages = 0%nat.
Proof.
  intros Hn. destruct pages as [|p rest]; cbn [page_requests];
    by rewrite (proj2 (Z.leb_le n 0) Hn).
Qed.

(** Each page that is requested brings at least one item, but for the
    last. *)
Lemma page_requests_le_items pages : forall n,
  0 <= n -> (page_requests n pages <= Z.to_nat n)%nat.
Proof.
  induction pages as [|p rest IH]; intros n Hn; cbn [page_requests];
    destruct (Z.leb_spec n 0) as [Hle|Hlt]; try lia.
  destruct p as [|x p]; [lia|].
  destruct (Z.le_gt_cases 0 (n - Z.of_nat (length (x :: p)))) as [Hge|Hneg].
  - specialize (IH _ Hge). cbn [length] in *. lia.
  - rewrite page_requests_nonpos by lia. lia.
Qed.

(** With full pages the requests are as few as the bound allows. *)
Lemma page_requests_full size pages : forall n,
  0 < size -> full_pages size pages ->
  Z.of_nat (page_requests n pages) <= Z.max 0 (ceil_div n size).
Proof.
  intros n Hsize Hfull. revert n.
  induction Hfull as [|p rest Hp _ IH]; intros n; cbn [page_requests];
    destruct (Z.leb_spec n 0) as [Hle|Hlt]; try lia.
  - assert (1 <= ceil_div n size); [|lia].
    unfold ceil_div. apply Z.div_le_lower_bound; lia.
  - assert (H1 : 1 <= ceil_div n size).
    { unfold ceil_div. apply Z.div_le_lower_bound; lia. }
    destruct p as [|x p]; [lia|].
    destruct Hp as [Hp|Hp]; [done|].
    specialize (IH (n - Z.of_nat (length (x :: p)))).
    assert (H2 : ceil_div (n - Z.of_nat (length (x :: p))) size <= ceil_div n size - 1).
    { unfold ceil_div.
      replace (n + size - 1) with ((n - size + size - 1) + 1 * size) by lia.
      rewrite Z.div_add by lia.
      assert ((n - Z.of_nat (length (x :: p)) + size - 1) / size
              <= (n - size + size - 1) / size); [|lia].
      apply Z.div_le_mono; lia. }
    lia.
Qed.

(** The three ways to resume the generator. *)
Lemma step_start self it sid count before w :
  step self (mkGenerator it sid (FStart count before)) w
  = if String.eqb it "submission" || String.eqb it "comment"
    then (Paused,
          mkGenerator it sid
            (FLoop (match count with None => PInf | Some n => PInt n end) before []),
          self, w)
    else (Raised NotImplementedError, mkGenerator it sid FDone, self, w).
Proof. unfold step; cbn. by destruct (_ || _). Qed.

Lemma step_test self it sid pend before w :
  step self (mkGenerator it sid (FLoop pend before [])) w
  = if pending_pos pend
    then (let '(r, f, s, w') := request_page self it sid pend before w in
          (r, mkGenerator it sid f, s, w'))
    else (StopIteration, mkGenerator it sid FDone, self, w).
Proof. reflexivity. Qed.

Lemma step_item self it sid pend before item rest w :
  step self (mkGenerator it sid (FLoop pend before (item :: rest))) w
  = match getitem item "created_utc" with
    | Ok before' =>
        (Yield item, mkGenerator it sid (FLoop (pending_dec pend) before' rest), self, w)
    | Raise e => (Raised e, mkGenerator it sid FDone, self, w)
    end.
Proof. unfold step; cbn. by destruct (getitem item "created_utc"). Qed.

(** A request that is answered by a well-formed page. *)
Lemma request_page_of_page self it sid pend before w items :
  is_page (endpoint w (length (served w))
             (page_request it sid (_request_size self) before)) items ->
  exists self1 w1,
    request_page self it sid pend before w
    = (match items with
       | [] => (StopIteration, FDone)
       | _ => (Paused, FLoop pend before (slice_upto items pend))
       end, self1, w1)
    /\ served w1 = (served w ++ [page_request it sid (_request_size self) before])%list
    /\ endpoint w1 = endpoint w.
Proof.
  intros (resp & body & Ha & Hs & Hp & Hd).
  rewrite request_page_answer, acquire_spec, Ha, (retry_adapter_fine _ Hs), Hs, Hp.
  destruct body as [|b|n|q|s|xs|kvs]; try done.
  cbn [getitem] in Hd. destruct (dict_get "data" kvs) as [v|]; [|done].
  injection Hd as ->. eexists _, _. split; [by destruct items|done].
Qed.

(** The [for] loop yields the items of the slice one after the other. *)
Lemma drain_slice it sid rest : forall pend before self w fuel,
  Forall is_raw_item rest ->
  exists before',
    drain step (length rest + fuel) self (mkGenerator it sid (FLoop pend before rest)) w
    = (let '(items, r, self', w') :=
         drain step fuel self
           (mkGenerator it sid (FLoop (Nat.iter (length rest) pending_dec pend) before' [])) w in
       ((rest ++ items)%list, r, self', w')).
Proof.
  induction rest as [|item rest IH]; intros pend before self w fuel Hraw.
  - exists before. cbn. by destruct (drain step fuel _ _ _) as [[[? ?] ?] ?].
  - inversion Hraw as [|? ? [v Hv] Hraw']; subst.
    destruct (IH (pending_dec pend) v self w fuel Hraw') as [before' IH'].
    exists before'. cbn [length Nat.add drain]. rewrite step_item, Hv, IH'.
    replace (Nat.iter (S (length rest)) pending_dec pend)
      with (Nat.iter (length rest) pending_dec (pending_dec pend))
      by (symmetry; apply Nat.iter_succ_r).
    clear IH'. by destruct (drain step fuel _ _ _) as [[[? ?] ?] ?].
Qed.

Lemma iter_pending_dec k n : Nat.iter k pending_dec (PInt n) = PInt (n - Z.of_nat k).
Proof.
  induction k as [|k IH]; simpl.
  - f_equal. lia.
  - rewrite IH. simpl. f_equal. lia.
Qed.

Lemma serves_pages_next w w1 rq p pages :
  serves_pages w (p :: pages) ->
  served w1 = (served w ++ [rq])%list -> endpoint w1 = endpoint w ->
  serves_pages w1 pages.
Proof.
  intros Hserve Hs He i rq'. rewrite Hs, He, length_app. cbn [length].
  specialize (Hserve (S i) rq'). cbn [nth] in Hserve.
  by replace (length (served w) + 1 + i)%nat with (length (served w) + S i)%nat by lia.
Qed.

Lemma serves_pages_nil w w1 rq :
  serves_pages w [] ->
  served w1 = (served w ++ [rq])%list -> endpoint w1 = endpoint w ->
  serves_pages w1 [].
Proof.
  intros Hserve Hs He i rq'. rewrite Hs, He, length_app. cbn [length].
  specialize (Hserve (S i) rq').
  replace (length (served w) + 1 + i)%nat with (length (served w) + S i)%nat by lia.
  by destruct i.
Qed.

(** The [while] loop from its test, with [n] items pending. *)
Lemma drain_loop it sid pages : forall n before self w fuel,
  serves_pages w pages ->
  Forall (Forall is_raw_item) pages ->
  (2 * Z.to_nat n + 1 <= fuel)%nat ->
  exists self' w',
    drain step fuel self (mkGenerator it sid (FLoop (PInt n) before [])) w
    = (take (Z.to_nat n) (feed pages), Some StopIteration, self', w')
    /\ length (served w') = (length (served w) + page_requests n pages)%nat.
Proof.
  induction pages as [|p pages IH]; intros n before self w fuel Hserve Hraw Hfuel.
  - destruct fuel as [|fuel]; [lia|]. cbn [drain]. rewrite step_test.
    cbn [pending_pos feed page_requests]. rewrite take_nil.
    destruct (Z.leb_spec n 0) as [Hle|Hlt].
    + rewrite (proj2 (Z.ltb_ge 0 n) Hle). eexists _, _. split; [done|lia].
    + rewrite (proj2 (Z.ltb_lt 0 n) Hlt).
      pose proof (Hserve 0%nat (page_request it sid (_request_size self) before)) as Hp.
      rewrite Nat.add_0_r in Hp. cbn [nth] in Hp.
      destruct (request_page_of_page self it sid (PInt n) before w [] Hp)
        as (self1 & w1 & -> & Hs & _).
      eexists _, _. split; [done|]. rewrite Hs, length_app. done.
  - destruct fuel as [|fuel]; [lia|]. cbn [drain]. rewrite step_test.
    cbn [pending_pos page_requests].
    destruct (Z.leb_spec n 0) as [Hle|Hlt].
    + rewrite (proj2 (Z.ltb_ge 0 n) Hle).
      replace (Z.to_nat n) with 0%nat by lia. rewrite take_0.
      eexists _, _. split; [done|lia].
    + rewrite (proj2 (Z.ltb_lt 0 n) Hlt).
      pose proof (Hserve 0%nat (page_request it sid (_request_size self) before)) as Hp.
      rewrite Nat.add_0_r in Hp. cbn [nth] in Hp.
      destruct (request_page_of_page self it sid (PInt n) before w p Hp)
        as (self1 & w1 & -> & Hs & He).
      destruct p as [|x p].
      { cbn [feed]. rewrite take_nil. eexists _, _. split; [done|].
        rewrite Hs, length_app. done. }
      inversion Hraw as [|? ? Hrawp Hraw']; subst.
      pose proof (serves_pages_next _ _ _ _ _ Hserve Hs He) as Hserve1.
      cbn [slice_upto].
      set (slice := take (Z.to_nat n) (x :: p)).
      assert (Hlen : length slice = Nat.min (Z.to_nat n) (length (x :: p)))
        by apply length_take.
      assert (Hslice : Forall is_raw_item slice) by by apply Forall_take.
      assert (Hk : (1 <= length slice)%nat) by (rewrite Hlen; cbn [length]; lia).
      replace fuel with (length slice + (fuel - length slice))%nat by lia.
      destruct (drain_slice it sid slice (PInt n) before self1 w1
                  (fuel - length slice) Hslice) as [before' ->].
      rewrite iter_pending_dec.
      destruct (IH (n - Z.of_nat (length slice)) before' self1 w1
                  (fuel - length slice)%nat Hserve1 Hraw' ltac:(lia))
        as (self' & w' & -> & Hreq).
      eexists _, _. split.
      * f_equal. f_equal. f_equal. cbn [feed].
        rewrite take_app. subst slice. f_equal.
        destruct (Nat.le_gt_cases (Z.to_nat n) (length (x :: p))) as [Hnp|Hnp].
        -- replace (Z.to_nat (n - Z.of_nat (length (take (Z.to_nat n) (x :: p))))) with 0%nat by lia.
           replace (Z.to_nat n - length (x :: p))%nat with 0%nat by lia. done.
        -- f_equal. lia.
      * rewrite Hreq, Hs, length_app. cbn [length].
        destruct (Nat.le_gt_cases (Z.to_nat n) (length (x :: p))) as [Hnp|Hnp].
        -- rewrite !page_requests_nonpos by (cbn [length] in *; lia). lia.
        -- replace (length slice) with (length (x :: p)) by lia. cbn [length]. lia.
Qed.

Lemma scripted_world_serves pages : serves_pages (scripted_world pages) pages.
Proof. intros i rq. by eexists _, _. Qed.

Lemma raw_item_is_raw_item id t : is_raw_item (raw_item id t).
Proof. by eexists. Qed.

(** C2, as amended.  For every sequence of well-formed pages of raw items
    that the endpoint returns and every bound [n > 0], a fresh client
    consumed to its end yields the items in the order of the pages, exactly
    [min(n, available)] of them, where the items available are those of
    the pages before the first empty page; it ends normally; it issues
    [page_requests n pages] requests, which is at most [n], and at most
    [ceil(n / 500)] when every page that is not empty holds at least 500
    items. *)
Theorem query_items_bounded pages n it sid before w fuel :
  it = "submission" \/ it = "comment" ->
  0 < n ->
  served w = [] ->
  serves_pages w pages ->
  Forall (Forall is_raw_item) pages ->
  (2 * Z.to_nat n + 2 <= fuel)%nat ->
  exists self' w',
    drain step fuel init (_query_items it sid (Some n) before) w
    = (take (Z.to_nat n) (feed pages), Some StopIteration, self', w')
    /\ length (take (Z.to_nat n) (feed pages))
       = Nat.min (Z.to_nat n) (length (feed pages))
    /\ length (served w') = page_requests n pages
    /\ (length (served w') <= Z.to_nat n)%nat
    /\ (full_pages (_request_size init) pages ->
        Z.of_nat (length (served w')) <= ceil_div n (_request_size init)).
Proof.
  intros Hit Hn Hfresh Hserve Hraw Hfuel.
  destruct fuel as [|fuel]; [lia|].
  cbn [drain]. unfold _query_items. rewrite step_start.
  replace (String.eqb it "submission" || String.eqb it "comment") with true
    by (by destruct Hit as [-> | ->]).
  destruct (drain_loop it sid pages n before init w fuel Hserve Hraw ltac:(lia))
    as (self' & w' & -> & Hreq).
  rewrite Hfresh in Hreq. cbn [length Nat.add] in Hreq.
  exists self', w'. split; [done|]. split; [apply length_take|].
  split; [done|]. rewrite Hreq. split.
  - apply page_requests_le_items. lia.
  - intros Hfull.
    pose proof (page_requests_full (_request_size init) pages n ltac:(done) Hfull).
    assert (1 <= ceil_div n (_request_size init)); [|lia].
    unfold ceil_div. apply Z.div_le_lower_bound; cbn; lia.
Qed.

Lemma query_items_bounded_witness :
  (0 < 3
   /\ served (scripted_world two_pages) = []
   /\ serves_pages (scripted_world two_pages) two_pages
   /\ Forall (Forall is_raw_item) two_pages
   /\ (2 * Z.to_nat 3 + 2 <= 8)%nat)
  /\ exists self' w',
       drain step 8 init (_query_items "submission" "x" (Some 3) JNull)
             (scripted_world two_pages)
       = (take 3 (feed two_pages), Some StopIteration, self', w')
       /\ length (served w') = 2%nat.
Proof.
  assert (Hserve : serves_pages (scripted_world two_pages) two_pages)
    by apply scripted_world_serves.
  assert (Hraw : Forall (Forall is_raw_item) two_pages)
    by (repeat constructor; apply raw_item_is_raw_item).
  assert (Hfuel : (2 * Z.to_nat 3 + 2 <= 8)%nat) by (cbn; lia).
  split; [split; [lia|split; [reflexivity|split; [exact Hserve|split; [exact Hraw|exact Hfuel]]]]|].
  destruct (query_items_bounded two_pages 3 "submission" "x" JNull
              (scripted_world two_pages) 8 (or_introl eq_refl) ltac:(lia) eq_refl
              Hserve Hraw Hfuel)
    as (self' & w' & Hrun & _ & Hreq & _).
  exists self', w'. split; [exact Hrun|exact Hreq].
Defined.

(** C2, as stated, fails: with a bound of 2 and a feed of one page of one
    item, two pages are requested (the second is the empty one that ends
    the feed), which is more than [ceil(2 / 500) = 1]. *)
Lemma short_page_costs_a_request :
  ~ (forall pages n w fuel,
       0 < n -> served w = [] -> serves_pages w pages ->
       Forall (Forall is_raw_item) pages ->
       (2 * Z.to_nat n + 2 <= fuel)%nat ->
       Z.of_nat (length (served
         (drain step fuel init (_query_items "submission" "x" (Some n) JNull) w).2))
       <= ceil_div n 500).
Proof.
  intros H.
  specialize (H short_feed 2 (scripted_world short_feed) 6%nat).
  assert (Hbad : Z.of_nat (length (served
            (drain step 6 init (_query_items "submission" "x" (Some 2) JNull)
               (scripted_world short_feed)).2)) <= ceil_div 2 500).
  { apply H.
    - lia.
    - reflexivity.
    - apply scripted_world_serves.
    - repeat constructor; apply raw_item_is_raw_item.
    - cbn; lia. }
  vm_compute in Hbad. by apply Hbad.
Qed.

End Discover.

(** * Discovery: any count, the cursor, failures on the way, laziness *)

Section DiscoverMore.
Import pushshift_api.

(** A request that is answered by a well-formed page leaves the size of
    the requests as it is. *)
Lemma request_page_of_page_size self it sid pend before w items :
  is_page (endpoint w (length (served w))
             (page_request it sid (_request_size self) before)) items ->
  exists self1 w1,
    request_page self it sid pend before w
    = (match items with
       | [] => (StopIteration, FDone)
       | _ => (Paused, FLoop pend before (slice_upto items pend))
       end, self1, w1)
    /\ served w1 = (served w ++ [page_request it sid (_request_size self) before])%list
    /\ endpoint w1 = endpoint w
    /\ _request_size self1 = _request_size self.
Proof.
  intros (resp & body & Ha & Hs & Hp & Hd).
  rewrite request_page_answer, acquire_spec, Ha, (retry_adapter_fine _ Hs), Hs, Hp.
  destruct body as [|b|n|q|s|xs|kvs]; try done.
  cbn [getitem] in Hd. destruct (dict_get "data" kvs) as [v|]; [|done].
  injection Hd as ->. eexists _, _. split; [by destruct items|done].
Qed.

Lemma last_cursor_cons before item rest v :
  getitem item "created_utc" = Ok v ->
  last_cursor before (item :: rest) = last_cursor v rest.
Proof. intros Hv. unfold last_cursor, created_utc_of. cbn [fold_left]. by rewrite Hv. Qed.

Lemma pending_after_S p k :
  pending_after p (S k) = pending_after (pending_dec p) k.
Proof. unfold pending_after. apply Nat.iter_succ_r. Qed.

(** The [for] loop yields the slice and leaves the cursor on its last
    item. *)
Lemma drain_slice_cursor it sid rest : forall pend before self w fuel,
  Forall is_raw_item rest ->
  drain step (length rest + fuel) self (mkGenerator it sid (FLoop pend before rest)) w
  = (let '(items, r, self', w') :=
       drain step fuel self
         (mkGenerator it sid
            (FLoop (pending_after pend (length rest)) (last_cursor before rest) [])) w in
     ((rest ++ items)%list, r, self', w')).
Proof.
  induction rest as [|item rest IH]; intros pend before self w fuel Hraw.
  - cbn. by destruct (drain step fuel _ _ _) as [[[? ?] ?] ?].
  - inversion Hraw as [|? ? [v Hv] Hraw']; subst.
    cbn [length Nat.add drain]. rewrite step_item, Hv.
    rewrite (IH (pending_dec pend) v self w fuel Hraw').
    rewrite pending_after_S, (last_cursor_cons before item rest v Hv).
    by destruct (drain step fuel _ _ _) as [[[? ?] ?] ?].
Qed.

Lemma slice_upto_raw page p :
  Forall is_raw_item page -> Forall is_raw_item (slice_upto page p).
Proof. destruct p; [done|]. apply Forall_take. Qed.

Lemma slice_upto_nonempty x page p :
  pending_pos p = true -> slice_upto (x :: page) p <> [].
Proof.
  destruct p as [|n]; [done|]. cbn. intros Hn%Z.ltb_lt.
  destruct (Z.to_nat n) eqn:E; [lia|done].
Qed.

(** The [while] loop from its test, with anything pending. *)
Lemma drain_feed it sid pages : forall p before self w fuel,
  serves_pages w pages ->
  Forall (Forall is_raw_item) pages ->
  (length (yielded p pages) + length (cursors p before pages) + 1 <= fuel)%nat ->
  exists self' w',
    drain step fuel self (mkGenerator it sid (FLoop p before [])) w
    = (yielded p pages, Some StopIteration, self', w')
    /\ served w'
       = (served w
          ++ map (page_request it sid (_request_size self)) (cursors p before pages))%list
    /\ endpoint w' = endpoint w.
Proof.
  induction pages as [|page pages IH]; intros p before self w fuel Hserve Hraw Hfuel.
  - destruct fuel as [|fuel]; [lia|]. cbn [drain]. rewrite step_test.
    cbn [yielded cursors]. destruct (pending_pos p) eqn:Hpos.
    + pose proof (Hserve 0%nat (page_request it sid (_request_size self) before)) as Hp.
      rewrite Nat.add_0_r in Hp. cbn [nth] in Hp.
      destruct (request_page_of_page_size self it sid p before w [] Hp)
        as (self1 & w1 & -> & Hs & He & _).
      by eexists _, _.
    + eexists _, _. split; [done|]. by rewrite app_nil_r.
  - destruct fuel as [|fuel]; [lia|]. cbn [drain]. rewrite step_test.
    cbn [cursors] in *. destruct (pending_pos p) eqn:Hpos.
    2:{ eexists _, _. split; [|by rewrite app_nil_r].
        destruct page; cbn [yielded]; [done|by rewrite Hpos]. }
    pose proof (Hserve 0%nat (page_request it sid (_request_size self) before)) as Hp.
    rewrite Nat.add_0_r in Hp. cbn [nth] in Hp.
    destruct (request_page_of_page_size self it sid p before w page Hp)
      as (self1 & w1 & -> & Hs & He & Hsize).
    destruct page as [|x page]; [by eexists _, _|].
    inversion Hraw as [|? ? Hrawp Hraw']; subst.
    pose proof (serves_pages_next _ _ _ _ _ Hserve Hs He) as Hserve1.
    cbn [yielded] in *. rewrite Hpos in *.
    set (slice := slice_upto (x :: page) p) in *.
    assert (Hslice : Forall is_raw_item slice) by by apply slice_upto_raw.
    rewrite length_app in Hfuel. cbn [length] in Hfuel.
    replace fuel with (length slice + (fuel - length slice))%nat by lia.
    rewrite (drain_slice_cursor it sid slice p before self1 w1 _ Hslice).
    destruct (IH (pending_after p (length slice)) (last_cursor before slice) self1 w1
                (fuel - length slice)%nat Hserve1 Hraw' ltac:(lia))
      as (self' & w' & -> & Hreq & He').
    eexists _, _. split; [done|]. split.
    + rewrite Hreq, Hs, Hsize, <- app_assoc. done.
    + by rewrite He', He.
Qed.

Lemma yielded_unbounded pages : yielded PInf pages = feed pages.
Proof.
  induction pages as [|page pages IH]; [done|].
  destruct page as [|x page]; [done|].
  cbn [yielded feed pending_pos slice_upto].
  replace (pending_after PInf (length (x :: page))) with PInf; [by rewrite IH|].
  unfold pending_after. induction (length (x :: page)) as [|k IHk]; [done|].
  simpl. by rewrite <- IHk.
Qed.

Lemma pending_after_unbounded k : pending_after PInf k = PInf.
Proof. unfold pending_after. induction k as [|k IH]; [done|]. simpl. by rewrite IH. Qed.

Lemma cursors_unbounded_length pages : forall before,
  length (cursors PInf before pages) = S (length (leading_pages pages)).
Proof.
  induction pages as [|page pages IH]; intros before; [done|].
  destruct page as [|x page]; [done|].
  cbn [cursors leading_pages pending_pos length slice_upto].
  by rewrite pending_after_unbounded, IH.
Qed.

Lemma leading_pages_length pages : (length (leading_pages pages) <= length pages)%nat.
Proof.
  induction pages as [|page pages IH]; [done|].
  destruct page; cbn [leading_pages length]; lia.
Qed.

(** Without a bound, the whole feed.  For every sequence of well-formed
    pages of raw items, a fresh client that is asked for everything
    ([count] is [None]) yields the items of all the pages before the first
    empty one, in order, ends normally, and has made one request for each
    of these pages and one more, which found the feed empty. *)
Theorem query_items_unbounded pages it sid before w fuel :
  it = "submission" \/ it = "comment" ->
  served w = [] ->
  serves_pages w pages ->
  Forall (Forall is_raw_item) pages ->
  (length (feed pages) + length pages + 3 <= fuel)%nat ->
  exists self' w',
    drain step fuel init (_query_items it sid None before) w
    = (feed pages, Some StopIteration, self', w')
    /\ length (served w') = S (length (leading_pages pages)).
Proof.
  intros Hit Hfresh Hserve Hraw Hfuel.
  destruct fuel as [|fuel]; [lia|].
  cbn [drain]. unfold _query_items. rewrite step_start.
  replace (String.eqb it "submission" || String.eqb it "comment") with true
    by (by destruct Hit as [-> | ->]).
  pose proof (leading_pages_length pages) as Hlead.
  destruct (drain_feed it sid pages PInf before init w fuel Hserve Hraw) as
    (self' & w' & Hrun & Hreq & _).
  { rewrite yielded_unbounded, cursors_unbounded_length. lia. }
  rewrite yielded_unbounded in Hrun. exists self', w'. split; [exact Hrun|].
  rewrite Hreq, Hfresh, length_app, length_map, cursors_unbounded_length. done.
Qed.

Lemma query_items_unbounded_witness :
  (served (scripted_world two_pages) = []
   /\ serves_pages (scripted_world two_pages) two_pages
   /\ Forall (Forall is_raw_item) two_pages
   /\ (length (feed two_pages) + length two_pages + 3 <= 9)%nat)
  /\ exists self' w',
       drain step 9 init (_query_items "submission" "x" None JNull)
             (scripted_world two_pages)
       = ([raw_item "a" 9; raw_item "b" 8; raw_item "c" 7; raw_item "d" 6],
          Some StopIteration, self', w')
       /\ length (served w') = 3%nat.
Proof.
  assert (Hserve : serves_pages (scripted_world two_pages) two_pages)
    by apply scripted_world_serves.
  assert (Hraw : Forall (Forall is_raw_item) two_pages)
    by (repeat constructor; apply raw_item_is_raw_item).
  assert (Hfuel : (length (feed two_pages) + length two_pages + 3 <= 9)%nat)
    by (cbn; lia).
  split; [split; [reflexivity|split; [exact Hserve|split; [exact Hraw|exact Hfuel]]]|].
  destruct (query_items_unbounded two_pages "submission" "x" JNull
              (scripted_world two_pages) 9 (or_introl eq_refl) eq_refl
              Hserve Hraw Hfuel)
    as (self' & w' & Hrun & Hreq).
  exists self', w'. split; [exact Hrun|exact Hreq].
Defined.

(** The cursor.  For every count, bounded or not, and every sequence of
    well-formed pages of raw items, the requests of a fresh client are the
    page requests for its item type and identifier, of size 500, whose
    [before] is the one of the caller for the first request and, for each
    later one, the creation timestamp of the last item yielded before
    it. *)
Theorem query_items_requests pages count it sid before w fuel :
  it = "submission" \/ it = "comment" ->
  served w = [] ->
  serves_pages w pages ->
  Forall (Forall is_raw_item) pages ->
  (length (yielded (pending_of count) pages)
   + length (cursors (pending_of count) before pages) + 2 <= fuel)%nat ->
  exists self' w',
    drain step fuel init (_query_items it sid count before) w
    = (yielded (pending_of count) pages, Some StopIteration, self', w')
    /\ served w'
       = map (page_request it sid 500) (cursors (pending_of count) before pages).
Proof.
  intros Hit Hfresh Hserve Hraw Hfuel.
  destruct fuel as [|fuel]; [lia|].
  cbn [drain]. unfold _query_items. rewrite step_start.
  replace (String.eqb it "submission" || String.eqb it "comment") with true
    by (by destruct Hit as [-> | ->]).
  destruct (drain_feed it sid pages (pending_of count) before init w fuel Hserve Hraw
              ltac:(lia)) as (self' & w' & Hrun & Hreq & _).
  exists self', w'. split; [exact Hrun|]. by rewrite Hreq, Hfresh.
Qed.

Lemma query_items_requests_witness :
  (served (scripted_world cut_feed) = []
   /\ serves_pages (scripted_world cut_feed) cut_feed
   /\ Forall (Forall is_raw_item) cut_feed
   /\ (length (yielded (pending_of (Some 4%Z)) cut_feed)
       + length (cursors (pending_of (Some 4%Z)) JNull cut_feed) + 2 <= 8)%nat)
  /\ exists self' w',
       drain step 8 init (_query_items "comment" "t3_a" (Some 4) JNull)
             (scripted_world cut_feed)
       = ([raw_item "a" 9; raw_item "b" 8; raw_item "c" 7; raw_item "d" 6],
          Some StopIteration, self', w')
       /\ served w'
          = [page_request "comment" "t3_a" 500 JNull;
             page_request "comment" "t3_a" 500 (JNum 8)].
Proof.
  assert (Hserve : serves_pages (scripted_world cut_feed) cut_feed)
    by apply scripted_world_serves.
  assert (Hraw : Forall (Forall is_raw_item) cut_feed)
    by (repeat constructor; apply raw_item_is_raw_item).
  assert (Hfuel : (length (yielded (pending_of (Some 4%Z)) cut_feed)
                   + length (cursors (pending_of (Some 4%Z)) JNull cut_feed) + 2 <= 8)%nat)
    by (vm_compute; lia).
  split; [split; [reflexivity|split; [exact Hserve|split; [exact Hraw|exact Hfuel]]]|].
  destruct (query_items_requests cut_feed (Some 4) "comment" "t3_a" JNull
              (scripted_world cut_feed) 8 (or_intror eq_refl) eq_refl
              Hserve Hraw Hfuel)
    as (self' & w' & Hrun & Hreq).
  exists self', w'. split; [exact Hrun|exact Hreq].
Defined.

End DiscoverMore.

(** * Discovery against any endpoint *)

Section DiscoverAny.
Import pushshift_api.

(** What one resumption does, case by case. *)
Lemma step_cases self g w r g' self' w' :
  step self g w = (r, g', self', w') ->
  endpoint w' = endpoint w
  /\ match r with
     | Yield item =>
         w' = w /\ self' = self
         /\ exists pend before rest v,
              gframe g = FLoop pend before (item :: rest)
              /\ gframe g' = FLoop (pending_dec pend) v rest
     | Paused =>
         (w' = w /\ self' = self
          /\ exists count before,
               gframe g = FStart count before
               /\ gframe g' = FLoop (pending_of count) before [])
         \/ (exists pend before x l rq d,
               gframe g = FLoop pend before [] /\ pending_pos pend = true
               /\ gframe g' = FLoop pend before (slice_upto (x :: l) pend)
               /\ served w' = (served w ++ [rq])%list
               /\ sleeps w' = (sleeps w ++ [d])%list)
     | _ =>
         gframe g' = FDone
         /\ ((served w' = served w /\ sleeps w' = sleeps w)
             \/ exists pend before rq d,
                  gframe g = FLoop pend before [] /\ pending_pos pend = true
                  /\ served w' = (served w ++ [rq])%list
                  /\ sleeps w' = (sleeps w ++ [d])%list)
     end.
Proof.
  unfold step.
  destruct (gframe g) as [count before|pend before [|item rest]|] eqn:Hf.
  - destruct (_ || _); intros [= <- <- <- <-]; cbn [gframe].
    + split; [done|]. left. repeat split; try done. by exists count, before.
    + split; [done|]. split; [done|]. by left.
  - destruct (pending_pos pend) eqn:Hpos.
    2:{ intros [= <- <- <- <-]. cbn [gframe]. split; [done|]. split; [done|]. by left. }
    rewrite request_page_answer, acquire_spec.
    destruct (retry_adapter (endpoint w _ _)) as [name|resp].
    { intros [= <- <- <- <-]. cbn. split; [done|]. split; [done|]. right. by eexists pend, before, _, _. }
    destruct (raise_for_status resp).
    { intros [= <- <- <- <-]. cbn. split; [done|]. split; [done|]. right. by eexists pend, before, _, _. }
    destruct (parsed resp) as [body|].
    2:{ intros [= <- <- <- <-]. cbn. split; [done|]. split; [done|]. right. by eexists pend, before, _, _. }
    destruct body as [|b|n|q|s|xs|kvs];
      try (intros [= <- <- <- <-]; cbn; split; [done|]; split; [done|]; right;
           by eexists pend, before, _, _).
    destruct (dict_get "data" kvs) as [items|].
    2:{ intros [= <- <- <- <-]. cbn. split; [done|]. split; [done|]. right. by eexists pend, before, _, _. }
    destruct (negb (truthy items)) eqn:Ht.
    { intros [= <- <- <- <-]. cbn. split; [done|]. split; [done|]. right. by eexists pend, before, _, _. }
    destruct items as [|b|n|q|s|[|x l]|kvs']; try discriminate Ht;
      try (intros [= <- <- <- <-]; cbn; split; [done|]; split; [done|]; right;
           by eexists pend, before, _, _).
    intros [= <- <- <- <-]. cbn [gframe served sleeps endpoint]. split; [done|].
    right. by eexists pend, before, x, l, _, _.
  - destruct (getitem item "created_utc") as [v|e]; intros [= <- <- <- <-]; cbn [gframe].
    + split; [done|]. repeat split; try done. by exists pend, before, rest, v.
    + split; [done|]. split; [done|]. by left.
  - intros [= <- <- <- <-]. cbn [gframe]. split; [done|]. split; [done|]. by left.
Qed.

(** The budgets of a bounded generator bound what it does. *)
Lemma drain_within_budget fuel : forall self g w,
  frame_bounded (gframe g) -> frame_ok (gframe g) ->
  (length (drain step fuel self g w).1.1.1 <= yield_budget (gframe g))%nat
  /\ (length (served (drain step fuel self g w).2)
      <= length (served w) + request_budget (gframe g))%nat.
Proof.
  induction fuel as [|fuel IH]; intros self g w Hb Hok; [cbn; lia|].
  cbn [drain].
  destruct (step self g w) as [[[r g'] self'] w'] eqn:Hstep.
  destruct (step_cases _ _ _ _ _ _ _ Hstep) as [_ Hcase].
  destruct r as [item| | |e].
  - destruct Hcase as (-> & -> & pend & before & rest & v & Hg & Hg').
    rewrite Hg in Hb, Hok |- *.
    destruct pend as [|m]; [done|].
    assert (Hb' : frame_bounded (gframe g')) by by rewrite Hg'.
    assert (Hok' : frame_ok (gframe g'))
      by (rewrite Hg'; cbn in *; lia).
    destruct (IH self g' w Hb' Hok') as [Hy Hr].
    destruct (drain step fuel self g' w) as [[[items r'] s''] w''].
    rewrite Hg' in Hy, Hr. cbn in *. lia.
  - destruct Hcase as [(-> & -> & count & before & Hg & Hg')
                      |(pend & before & x & l & rq & d & Hg & Hpos & Hg' & Hs & _)].
    + rewrite Hg in Hb, Hok |- *. destruct count as [n|]; [|done].
      assert (Hb' : frame_bounded (gframe g')) by by rewrite Hg'.
      assert (Hok' : frame_ok (gframe g')) by (rewrite Hg'; cbn; lia).
      destruct (IH self g' w Hb' Hok') as [Hy Hr].
      rewrite Hg' in Hy, Hr. cbn in *. lia.
    + rewrite Hg in Hb, Hok |- *. destruct pend as [|m]; [done|].
      cbn in Hpos. apply Z.ltb_lt in Hpos.
      assert (Hb' : frame_bounded (gframe g')) by by rewrite Hg'.
      assert (Hlen : (1 <= length (slice_upto (x :: l) (PInt m)) <= Z.to_nat m)%nat).
      { cbn [slice_upto]. rewrite length_take. cbn [length]. lia. }
      assert (Hok' : frame_ok (gframe g')) by (rewrite Hg'; cbn [frame_ok]; lia).
      destruct (IH self' g' w' Hb' Hok') as [Hy Hr].
      rewrite Hg' in Hy, Hr. rewrite Hs, length_app in Hr.
      cbn [yield_budget request_budget length] in *. lia.
  - destruct Hcase as [_ [[Hs _]|(pend & before & rq & d & Hg & Hpos & Hs & _)]];
      cbn [fst snd length]; rewrite Hs; [lia|].
    rewrite length_app, Hg. destruct pend as [|m]; [by rewrite Hg in Hb|].
    cbn in Hpos. apply Z.ltb_lt in Hpos. cbn. lia.
  - destruct Hcase as [_ [[Hs _]|(pend & before & rq & d & Hg & Hpos & Hs & _)]];
      cbn [fst snd length]; rewrite Hs; [lia|].
    rewrite length_app, Hg. destruct pend as [|m]; [by rewrite Hg in Hb|].
    cbn in Hpos. apply Z.ltb_lt in Hpos. cbn. lia.
Qed.

(** The bound holds against any endpoint.  Whatever the endpoint answers
    (short pages, pages longer than asked for, malformed bodies,
    failures), however far the generator is consumed and whatever the item
    type, a generator made with the count [n] yields at most [max(0, n)]
    items and makes at most [max(0, n)] requests. *)
Theorem query_items_never_exceeds_count n it sid before self w fuel :
  (length (drain step fuel self (_query_items it sid (Some n) before) w).1.1.1
   <= Z.to_nat n)%nat
  /\ (length (served (drain step fuel self (_query_items it sid (Some n) before) w).2)
      <= length (served w) + Z.to_nat n)%nat.
Proof. exact (drain_within_budget fuel self (_query_items it sid (Some n) before) w I I). Qed.

(** One acquisition for each request.  Whatever the endpoint answers and
    however far a generator is consumed, the rate limiter has slept (for
    some time, possibly none) once for each request made, and the endpoint
    has been asked nothing else. *)
Theorem one_acquisition_per_request fuel : forall self g w,
  (length (sleeps (drain step fuel self g w).2) + length (served w)
   = length (sleeps w) + length (served (drain step fuel self g w).2))%nat
  /\ endpoint (drain step fuel self g w).2 = endpoint w.
Proof.
  induction fuel as [|fuel IH]; intros self g w; [done|].
  cbn [drain].
  destruct (step self g w) as [[[r g'] self'] w'] eqn:Hstep.
  destruct (step_cases _ _ _ _ _ _ _ Hstep) as [He Hcase].
  destruct r as [item| | |e].
  - destruct Hcase as (-> & -> & _).
    destruct (IH self g' w) as [Hl Hend].
    by destruct (drain step fuel self g' w) as [[[items r'] s''] w''].
  - destruct (IH self' g' w') as [Hl Hend]. rewrite Hend, He. split; [|done].
    destruct Hcase as [(-> & _)|(pend & before & x & l & rq & d & _ & _ & _ & Hs & Hz)];
      [done|].
    rewrite Hs, Hz, !length_app in Hl. cbn [length] in Hl. lia.
  - cbn [snd]. split; [|done].
    destruct Hcase as [_ [[-> ->]|(pend & before & rq & d & _ & _ & -> & ->)]]; [done|].
    rewrite !length_app. cbn [length]. lia.
  - cbn [snd]. split; [|done].
    destruct Hcase as [_ [[-> ->]|(pend & before & rq & d & _ & _ & -> & ->)]]; [done|].
    rewrite !length_app. cbn [length]. lia.
Qed.

Lemma covers_slice page p k :
  covers p (length page + k) -> slice_upto page p = page.
Proof.
  destruct p as [|n]; [done|]. cbn. intros Hn. apply take_ge. lia.
Qed.

Lemma covers_pos p k : covers p k -> pending_pos p = true.
Proof. destruct p as [|n]; [done|]. cbn. intros Hn. apply Z.ltb_lt. lia. Qed.

Lemma covers_after p j k : covers p (j + k) -> covers (pending_after p j) k.
Proof.
  destruct p as [|n]; cbn.
  - by rewrite pending_after_unbounded.
  - intros Hn. unfold pending_after. rewrite iter_pending_dec. cbn. lia.
Qed.

Lemma serves_then_next w w1 rq page pages resp :
  serves_then w (page :: pages) resp ->
  served w1 = (served w ++ [rq])%list -> endpoint w1 = endpoint w ->
  serves_then w1 pages resp.
Proof.
  intros (Hpages & Hlast & Hne) Hs He. repeat split.
  - intros i rq' Hi. rewrite Hs, He, length_app. cbn [length].
    specialize (Hpages (S i) rq' ltac:(cbn; lia)). cbn [nth] in Hpages.
    by replace (length (served w) + 1 + i)%nat with (length (served w) + S i)%nat by lia.
  - intros rq'. rewrite Hs, He, length_app. cbn [length].
    specialize (Hlast rq'). cbn [length] in Hlast.
    by replace (length (served w) + 1 + length pages)%nat
      with (length (served w) + S (length pages))%nat by lia.
  - by inversion Hne.
Qed.

Lemma drain_then_fails it sid resp pages : forall p before self w fuel,
  serves_then w pages resp ->
  raise_for_status resp = true ->
  Forall (Forall is_raw_item) pages ->
  covers p (length (concat pages)) ->
  (length (concat pages) + length pages + 1 <= fuel)%nat ->
  exists self' w',
    drain step fuel self (mkGenerator it sid (FLoop p before [])) w
    = (concat pages,
       Some (Raised (if existsb (Z.eqb (status_code resp)) status_forcelist
                     then TransportError "RetryError"
                     else PushshiftHTTPError (status_code resp))), self', w')
    /\ length (served w') = (length (served w) + S (length pages))%nat.
Proof.
  induction pages as [|page pages IH]; intros p before self w fuel Hthen Hresp Hraw Hcov Hfuel.
  - destruct fuel as [|fuel]; [lia|]. cbn [drain]. rewrite step_test.
    rewrite (covers_pos _ _ Hcov), request_page_answer, acquire_spec.
    destruct Hthen as (_ & Hlast & _). specialize (Hlast (page_request it sid (_request_size self) before)).
    cbn [length] in Hlast. rewrite Nat.add_0_r in Hlast. rewrite Hlast.
    cbn [retry_adapter]. destruct (existsb _ _); [|rewrite Hresp];
      (eexists _, _; split; [done|]; cbn [served]; rewrite length_app; done).
  - destruct fuel as [|fuel]; [lia|]. cbn [drain]. rewrite step_test.
    cbn [concat] in *. rewrite length_app in Hcov, Hfuel.
    rewrite (covers_pos _ _ Hcov).
    pose proof Hthen as (Hpages & _ & Hne).
    pose proof (Hpages 0%nat (page_request it sid (_request_size self) before)
                  ltac:(cbn; lia)) as Hp.
    rewrite Nat.add_0_r in Hp. cbn [nth] in Hp.
    destruct (request_page_of_page_size self it sid p before w page Hp)
      as (self1 & w1 & -> & Hs & He & Hsize).
    destruct page as [|x page]; [by inversion Hne|].
    inversion Hraw as [|? ? Hrawp Hraw']; subst.
    pose proof (serves_then_next _ _ _ _ _ _ Hthen Hs He) as Hthen1.
    rewrite (covers_slice _ _ _ Hcov).
    cbn [length] in Hfuel.
    replace fuel with (length (x :: page) + (fuel - length (x :: page)))%nat
      by (cbn [length]; lia).
    rewrite (drain_slice_cursor it sid (x :: page) p before self1 w1 _ Hrawp).
    destruct (IH (pending_after p (length (x :: page))) (last_cursor before (x :: page))
                self1 w1 (fuel - length (x :: page))%nat Hthen1 Hresp Hraw'
                (covers_after _ _ _ Hcov) ltac:(cbn [length]; lia))
      as (self' & w' & -> & Hreq).
    eexists _, _. split; [done|].
    rewrite Hreq, Hs, length_app. cbn [length]. lia.
Qed.

(** A failure on the way.  When the endpoint gives some pages of raw
    items, none empty, and then a response with a 4xx or 5xx status, a
    fresh client whose count is not reached by these pages yields all
    their items in order and then raises: [PushshiftHTTPError] with that
    status when the status is outside the retry list of the adapter, the
    [RetryError] of the transport when it is one of the list (429, 500,
    502, 503, 504, 524).  It has made one request for each page and the
    one that failed. *)
Theorem failure_after_pages pages resp count it sid before w fuel :
  it = "submission" \/ it = "comment" ->
  served w = [] ->
  serves_then w pages resp ->
  raise_for_status resp = true ->
  Forall (Forall is_raw_item) pages ->
  covers (pending_of count) (length (concat pages)) ->
  (length (concat pages) + length pages + 2 <= fuel)%nat ->
  exists e self' w',
    drain step fuel init (_query_items it sid count before) w
    = (concat pages, Some (Raised e), self', w')
    /\ length (served w') = S (length pages)
    /\ (status_code resp ∉ status_forcelist -> e = PushshiftHTTPError (status_code resp))
    /\ (status_code resp ∈ status_forcelist -> e = TransportError "RetryError").
Proof.
  intros Hit Hfresh Hthen Hresp Hraw Hcov Hfuel.
  destruct fuel as [|fuel]; [lia|].
  cbn [drain]. unfold _query_items. rewrite step_start.
  replace (String.eqb it "submission" || String.eqb it "comment") with true
    by (by destruct Hit as [-> | ->]).
  destruct (drain_then_fails it sid resp pages (pending_of count) before init w fuel
              Hthen Hresp Hraw Hcov ltac:(lia)) as (self' & w' & Hrun & Hreq).
  eexists _, self', w'. split; [exact Hrun|]. split; [by rewrite Hreq, Hfresh|].
  destruct (existsb _ _) eqn:Hr.
  - apply is_retry_elem_of in Hr. split; [done|done].
  - split; [done|]. intros Hc%is_retry_elem_of. congruence.
Qed.

Lemma breaking_world_serves : serves_then breaking_world two_pages not_found.
Proof.
  repeat split.
  - intros i rq Hi. cbn in Hi.
    destruct i as [|[|i]]; [by eexists _, _|by eexists _, _|lia].
  - repeat constructor; done.
Qed.

Lemma failure_after_pages_witness :
  (served breaking_world = []
   /\ serves_then breaking_world two_pages not_found
   /\ raise_for_status not_found = true
   /\ Forall (Forall is_raw_item) two_pages
   /\ covers (pending_of None) (length (concat two_pages))
   /\ (length (concat two_pages) + length two_pages + 2 <= 8)%nat)
  /\ exists self' w',
       drain step 8 init (_query_items "submission" "x" None JNull) breaking_world
       = ([raw_item "a" 9; raw_item "b" 8; raw_item "c" 7; raw_item "d" 6],
          Some (Raised (PushshiftHTTPError 404)), self', w')
       /\ length (served w') = 3%nat.
Proof.
  assert (Hraw : Forall (Forall is_raw_item) two_pages)
    by (repeat constructor; apply raw_item_is_raw_item).
  assert (Hfuel : (length (concat two_pages) + length two_pages + 2 <= 8)%nat)
    by (cbn; lia).
  split.
  { split; [reflexivity|]. split; [exact breaking_world_serves|].
    split; [reflexivity|]. split; [exact Hraw|]. split; [exact I|exact Hfuel]. }
  destruct (failure_after_pages two_pages not_found None "submission" "x" JNull
              breaking_world 8 (or_introl eq_refl) eq_refl breaking_world_serves
              eq_refl Hraw I Hfuel)
    as (e & self' & w' & Hrun & Hreq & Hout & _).
  exists self', w'. split; [|exact Hreq].
  rewrite Hrun. rewrite Hout; [reflexivity|].
  intros Hc. apply is_retry_elem_of in Hc. discriminate Hc.
Defined.

(** Taking items out of the current page costs nothing. *)
Lemma pull_slice it sid k : forall items pend before self w fuel,
  (k <= length items)%nat ->
  Forall is_raw_item items ->
  (k <= fuel)%nat ->
  exists g',
    pull step fuel k self (mkGenerator it sid (FLoop pend before items)) w
    = (take k items, g', self, w).
Proof.
  induction k as [|k IH]; intros items pend before self w fuel Hk Hraw Hfuel.
  - destruct fuel; by eexists.
  - destruct fuel as [|fuel]; [lia|].
    destruct items as [|item items]; [cbn in Hk; lia|].
    inversion Hraw as [|? ? [v Hv] Hraw']; subst.
    cbn [pull]. rewrite step_item, Hv.
    destruct (IH items (pending_dec pend) v self w fuel
                ltac:(cbn in Hk; lia) Hraw' ltac:(lia)) as [g' ->].
    by eexists.
Qed.

(** Laziness.  A consumer that takes [k >= 1] items from a fresh
    generator, no more than the first page holds within the count, gets
    the first [k] items of that page at the price of one request, whatever
    the endpoint would answer to a second one. *)
Theorem first_items_cost_one_request page count it sid before w fuel k :
  it = "submission" \/ it = "comment" ->
  (forall rq, is_page (endpoint w (length (served w)) rq) page) ->
  Forall is_raw_item page ->
  (1 <= k <= length (slice_upto page (pending_of count)))%nat ->
  (k + 2 <= fuel)%nat ->
  exists g' self' w',
    pull step fuel k init (_query_items it sid count before) w
    = (take k page, g', self', w')
    /\ served w' = (served w ++ [page_request it sid 500 before])%list.
Proof.
  intros Hit Hpage Hraw Hk Hfuel.
  destruct fuel as [|[|fuel]]; [lia|lia|].
  destruct k as [|k]; [lia|].
  cbn [pull]. unfold _query_items. rewrite step_start.
  replace (String.eqb it "submission" || String.eqb it "comment") with true
    by (by destruct Hit as [-> | ->]).
  cbn [pull]. rewrite step_test. fold (pending_of count).
  assert (Hpos : pending_pos (pending_of count) = true).
  { destruct count as [n|]; [|done]. cbn in *.
    destruct (Z.ltb_spec 0 n); [done|].
    replace (Z.to_nat n) with 0%nat in Hk by lia. rewrite take_0 in Hk. cbn in Hk. lia. }
  rewrite Hpos.
  destruct (request_page_of_page_size init it sid (pending_of count) before w page
              (Hpage _)) as (self1 & w1 & -> & Hs & _ & _).
  destruct page as [|x page].
  { destruct count; cbn in Hk; rewrite ?take_nil in Hk; cbn in Hk; lia. }
  destruct (pull_slice it sid (S k) (slice_upto (x :: page) (pending_of count))
              (pending_of count) before self1 w1 fuel ltac:(lia)
              (slice_upto_raw _ _ Hraw) ltac:(lia)) as [g' Hpull].
  rewrite Hpull.
  exists g', self1, w1. split; [|exact Hs].
  f_equal. f_equal. f_equal.
  destruct count as [n|]; [|done]. cbn [pending_of slice_upto] in *.
  rewrite take_take. f_equal. rewrite length_take in Hk. lia.
Qed.

Lemma first_items_cost_one_request_witness :
  ((forall rq, is_page (endpoint endless_world (length (served endless_world)) rq)
                 [raw_item "a" 9; raw_item "b" 8; raw_item "c" 7])
   /\ Forall is_raw_item [raw_item "a" 9; raw_item "b" 8; raw_item "c" 7]
   /\ (1 <= 2 <= length (slice_upto [raw_item "a" 9; raw_item "b" 8; raw_item "c" 7]
                                    (pending_of None)))%nat
   /\ (2 + 2 <= 4)%nat)
  /\ exists g' self' w',
       pull step 4 2 init (_query_items "submission" "x" None JNull) endless_world
       = ([raw_item "a" 9; raw_item "b" 8], g', self', w')
       /\ served w' = [page_request "submission" "x" 500 JNull].
Proof.
  assert (Hpage : forall rq,
            is_page (endpoint endless_world (length (served endless_world)) rq)
              [raw_item "a" 9; raw_item "b" 8; raw_item "c" 7])
    by (intros rq; by eexists _, _).
  assert (Hraw : Forall is_raw_item [raw_item "a" 9; raw_item "b" 8; raw_item "c" 7])
    by (repeat constructor; apply raw_item_is_raw_item).
  assert (Hk : (1 <= 2 <= length (slice_upto [raw_item "a" 9; raw_item "b" 8;
                                               raw_item "c" 7] (pending_of None)))%nat)
    by (cbn; lia).
  split; [split; [exact Hpage|split; [exact Hraw|split; [exact Hk|lia]]]|].
  destruct (first_items_cost_one_request
              [raw_item "a" 9; raw_item "b" 8; raw_item "c" 7] None "submission" "x"
              JNull endless_world 4 2 (or_introl eq_refl) Hpage Hraw Hk ltac:(lia))
    as (g' & self' & w' & Hpull & Hs).
  exists g', self', w'. split; [exact Hpull|exact Hs].
Defined.

(** The [for] loop yields the items at the head of the slice that have a
    timestamp. *)
Lemma drain_prefix it sid good : forall tail pend before self w fuel,
  Forall is_raw_item good ->
  drain step (length good + fuel) self
        (mkGenerator it sid (FLoop pend before (good ++ tail))) w
  = (let '(items, r, self', w') :=
       drain step fuel self
         (mkGenerator it sid
            (FLoop (pending_after pend (length good)) (last_cursor before good) tail)) w in
     ((good ++ items)%list, r, self', w')).
Proof.
  induction good as [|item good IH]; intros tail pend before self w fuel Hraw.
  - cbn. by destruct (drain step fuel _ _ _) as [[[? ?] ?] ?].
  - inversion Hraw as [|? ? [v Hv] Hraw']; subst.
    cbn [length Nat.add drain app]. rewrite step_item, Hv.
    rewrite (IH tail (pending_dec pend) v self w fuel Hraw').
    rewrite pending_after_S, (last_cursor_cons before item good v Hv).
    by destruct (drain step fuel _ _ _) as [[[? ?] ?] ?].
Qed.

(** An item without timestamp.  When the first page holds, after some raw
    items, an item whose [created_utc] cannot be read (the key is missing,
    or the item is no dict) and the count reaches that item, a fresh client
    yields the items before it and then raises what the subscript raises
    ([KeyError] for a missing key); the item itself and those after it are
    not yielded, and no second request is made. *)
Theorem item_without_timestamp good bad rest e count it sid before w fuel :
  it = "submission" \/ it = "comment" ->
  (forall rq, is_page (endpoint w (length (served w)) rq) (good ++ bad :: rest)) ->
  Forall is_raw_item good ->
  getitem bad "created_utc" = Raise e ->
  covers (pending_of count) (length good) ->
  (length good + 3 <= fuel)%nat ->
  exists self' w',
    drain step fuel init (_query_items it sid count before) w
    = (good, Some (Raised e), self', w')
    /\ served w' = (served w ++ [page_request it sid 500 before])%list.
Proof.
  intros Hit Hpage Hraw Hbad Hcov Hfuel.
  destruct fuel as [|[|fuel]]; [lia|lia|].
  cbn [drain]. unfold _query_items. rewrite step_start.
  replace (String.eqb it "submission" || String.eqb it "comment") with true
    by (by destruct Hit as [-> | ->]).
  cbn [drain]. rewrite step_test. fold (pending_of count).
  rewrite (covers_pos _ _ Hcov).
  destruct (request_page_of_page_size init it sid (pending_of count) before w _
              (Hpage _)) as (self1 & w1 & Hrq & Hs & _ & _).
  assert (Hm : forall (A : Type) (a b : A),
            match (good ++ bad :: rest)%list with [] => a | _ :: _ => b end = b)
    by (intros; by destruct good).
  rewrite Hm in Hrq. rewrite Hrq. clear Hm Hrq.
  assert (Hslice : exists rest',
            slice_upto (good ++ bad :: rest) (pending_of count) = (good ++ bad :: rest')%list).
  { destruct (pending_of count) as [|n]; [by exists rest|].
    cbn in Hcov |- *. rewrite take_app.
    rewrite take_ge by lia.
    destruct (Z.to_nat n - length good)%nat as [|m] eqn:E; [lia|].
    by exists (take m rest). }
  destruct Hslice as [rest' Hslice].
  rewrite Hslice.
  replace fuel with (length good + (fuel - length good))%nat by lia.
  rewrite (drain_prefix it sid good (bad :: rest') _ before self1 w1 _ Hraw).
  destruct (fuel - length good)%nat as [|fuel'] eqn:E; [lia|].
  cbn [drain]. rewrite step_item, Hbad. rewrite app_nil_r.
  by exists self1, w1.
Qed.

Lemma item_without_timestamp_witness :
  ((forall rq, is_page (endpoint untimed_world (length (served untimed_world)) rq)
                 ([raw_item "a" 9] ++ untimed_item :: [raw_item "c" 7]))
   /\ Forall is_raw_item [raw_item "a" 9]
   /\ getitem untimed_item "created_utc" = Raise (KeyError "created_utc")
   /\ covers (pending_of (Some 5)) (length [raw_item "a" 9])
   /\ (length [raw_item "a" 9] + 3 <= 6)%nat)
  /\ exists self' w',
       drain step 6 init (_query_items "submission" "x" (Some 5) JNull) untimed_world
       = ([raw_item "a" 9], Some (Raised (KeyError "created_utc")), self', w')
       /\ served w' = [page_request "submission" "x" 500 JNull].
Proof.
  assert (Hpage : forall rq,
            is_page (endpoint untimed_world (length (served untimed_world)) rq)
              ([raw_item "a" 9] ++ untimed_item :: [raw_item "c" 7]))
    by (intros rq; by eexists _, _).
  assert (Hraw : Forall is_raw_item [raw_item "a" 9])
    by (repeat constructor; apply raw_item_is_raw_item).
  assert (Hcov : covers (pending_of (Some 5)) (length [raw_item "a" 9])) by (cbn; lia).
  split.
  { split; [exact Hpage|]. split; [exact Hraw|]. split; [reflexivity|].
    split; [exact Hcov|cbn; lia]. }
  destruct (item_without_timestamp [raw_item "a" 9] untimed_item [raw_item "c" 7]
              (KeyError "created_utc") (Some 5) "submission" "x" JNull untimed_world 6
              (or_introl eq_refl) Hpage Hraw eq_refl Hcov ltac:(cbn; lia))
    as (self' & w' & Hrun & Hreq).
  exists self', w'. split; [exact Hrun|exact Hreq].
Defined.

End DiscoverAny.

(** * The records that are appended *)

Section Records.
Import reddit_utils archive_subreddit.

Lemma deep_sorted_scalar v : deep_sorted (json_of_scalar v) = true.
Proof. by destruct v. Qed.

Lemma deep_sorted_author_name a : deep_sorted (author_name a) = true.
Proof. by destruct a. Qed.

(** The dict of a comment has its keys in order as it is written, and so
    have the dicts of its replies. *)
Lemma comment_to_dict_sorted : forall comment, deep_sorted (comment_to_dict comment) = true.
Proof.
  fix IH 1. intros [author body created distinguished edited id is_submitter
                    link_id parent_id permalink replies score stickied].
  cbn [comment_to_dict deep_sorted map fst snd forallb
       Comment.author Comment.body Comment.created_utc Comment.distinguished
       Comment.edited Comment.id Comment.is_submitter Comment.link_id
       Comment.parent_id Comment.permalink Comment.replies Comment.score
       Comment.stickied].
  rewrite deep_sorted_scalar, deep_sorted_author_name, deep_sorted_scalar.
  assert (Hreplies : forallb deep_sorted (map comment_to_dict replies) = true).
  { induction replies as [|r rs IHrs]; [done|].
    cbn [map forallb]. by rewrite (IH r), IHrs. }
  rewrite Hreplies. reflexivity.
Qed.

Lemma comments_sorted comments :
  deep_sorted (JArr (map comment_to_dict comments)) = true.
Proof.
  cbn [deep_sorted]. induction comments as [|c cs IH]; [done|].
  cbn [map forallb]. by rewrite comment_to_dict_sorted, IH.
Qed.

(** Sorting moves the pairs, it does not change them. *)
Lemma forallb_insert_item (P : string * json -> bool) kv l :
  forallb P (insert_item kv l) = P kv && forallb P l.
Proof.
  induction l as [|kv' l IH]; cbn [insert_item forallb]; [done|].
  destruct (String.leb kv.1 kv'.1); cbn [forallb]; [done|].
  rewrite IH. by destruct (P kv), (P kv').
Qed.

Lemma forallb_sorted_items (P : string * json -> bool) l :
  forallb P (sorted_items l) = forallb P l.
Proof.
  induction l as [|kv l IH]; [done|].
  cbn [sorted_items fold_right forallb].
  rewrite forallb_insert_item. by rewrite <- IH.
Qed.

Lemma forallb_dict_set (P : string * json -> bool) k v l :
  P (k, v) = true -> forallb P l = true -> forallb P (dict_set k v l) = true.
Proof.
  intros Hv. induction l as [|[k' v'] l IH]; cbn [dict_set forallb].
  - by rewrite Hv.
  - intros [Hkv Hl]%andb_prop. destruct (String.eqb k k'); cbn [forallb].
    + by rewrite Hv, Hl.
    + by rewrite Hkv, IH.
Qed.

(** The record of a submission, after line 116. *)
Lemma enriched_record_sorted submission comments :
  deep_sorted
    (JObj (sorted_items
             (dict_set "comments" (JArr (map comment_to_dict comments))
                       (submission_to_dict submission)))) = true.
Proof.
  cbn [deep_sorted]. apply andb_true_intro. split.
  - reflexivity.
  - rewrite forallb_sorted_items. apply forallb_dict_set.
    + apply comments_sorted.
    + unfold submission_to_dict. cbn [forallb snd].
      by rewrite !deep_sorted_scalar, deep_sorted_author_name.
Qed.

Lemma enrich_sorted item env record :
  enrich item env = Ok record -> deep_sorted record = true.
Proof.
  unfold enrich. destruct (getitem item "id") as [id|e]; [|done]. cbn.
  destruct (reddit env id) as [[submission comments]|e]; [|done]. cbn.
  intros [= <-]. apply enriched_record_sorted.
Qed.

(** A save leaves in the directory what was there, but for the file it
    writes, which holds the accumulator. *)
Lemma save_files name st env r env' :
  save name st env = (r, env') ->
  forall f content, files env' !! f = Some content ->
    files env !! f = Some content \/ content = posts st.
Proof.
  unfold save. intros Hsave f content Hf.
  assert (Hw : forall g c, files (write_text name (posts st) env) !! g = Some c ->
                 files env !! g = Some c \/ c = posts st).
  { intros g c. cbn [write_text files]. rewrite lookup_insert.
    case_decide; [intros [= <-]; by right|by left]. }
  destruct (archive_file st) as [old|]; [|injection Hsave as _ <-; by apply Hw].
  unfold unlink in Hsave.
  destruct (files (write_text name (posts st) env) !! old) eqn:Hold.
  - injection Hsave as _ <-. cbn [files] in Hf.
    apply Hw. rewrite lookup_delete in Hf. by case_decide.
  - injection Hsave as _ <-. by apply Hw.
Qed.

Lemma save_posts name st env st' env' :
  save name st env = (Ok st', env') -> posts st' = posts st.
Proof.
  unfold save. destruct (archive_file st) as [old|].
  - destruct (unlink old _) as [[[]|e] env2]; [|done]. by intros [= <- _].
  - by intros [= <- _].
Qed.

(** C9.  Every turn of the loop that appends a record appends one whose
    keys are in sorted order, at the top level and in every comment and
    reply nested in it; and a file that the turn writes holds the
    accumulator with that record. *)
Theorem appended_record_sorted st item env st' env' :
  loop_body st item env = (Ok st', env') ->
  exists record,
    posts st' = (posts st ++ [record])%list
    /\ deep_sorted record = true
    /\ (forall f content, files env' !! f = Some content ->
          files env !! f = Some content \/ content = posts st').
Proof.
  unfold loop_body. destruct (enrich item env) as [record|e] eqn:Hrec; [|done].
  apply enrich_sorted in Hrec.
  destruct (now_ms env) as [t env1] eqn:Hnow.
  assert (Hfiles : files env1 = files env).
  { unfold now_ms in Hnow. by injection Hnow as _ <-. }
  destruct (_ =? 0)%Z.
  - unfold save_intermediate. intros Hsave. exists record.
    pose proof (save_posts _ _ _ _ _ Hsave) as Hposts. cbn [posts] in Hposts.
    split; [done|]. split; [done|].
    intros f content Hf.
    destruct (save_files _ _ _ _ _ Hsave f content Hf) as [Hold|Hnew].
    + left. by rewrite <- Hfiles.
    + right. by rewrite Hposts.
  - intros [= <- <-]. exists record. cbn [posts]. split; [done|]. split; [done|].
    intros f content Hf. left. by rewrite <- Hfiles.
Qed.

Lemma appended_record_sorted_witness :
  exists st' env',
    loop_body (mkLocals "x" (Some 3) 5 5 JNull [] None) (raw_item "a" 9) sample_env
    = (Ok st', env')
    /\ exists record, posts st' = [record] /\ deep_sorted record = true.
Proof.
  eexists _, _. split; [reflexivity|].
  destruct (appended_record_sorted
              (mkLocals "x" (Some 3) 5 5 JNull [] None) (raw_item "a" 9) sample_env
              _ _ eq_refl) as (record & Hposts & Hsorted & _).
  exists record. split; [exact Hposts|exact Hsorted].
Defined.

End Records.

(** * Sorting a dict, and what the records hold *)

Section RecordsMore.
Import reddit_utils archive_subreddit.

Lemma insert_item_perm kv l : insert_item kv l ≡ₚ kv :: l.
Proof.
  induction l as [|kv' l IH]; cbn [insert_item]; [done|].
  destruct (String.leb kv.1 kv'.1); [done|].
  rewrite IH. apply Permutation_swap.
Qed.

Lemma sorted_items_perm l : sorted_items l ≡ₚ l.
Proof.
  induction l as [|kv l IH]; [done|].
  cbn [sorted_items fold_right]. rewrite insert_item_perm. by constructor.
Qed.

Lemma ltb_of_leb a b : String.leb a b = true -> a <> b -> String.ltb a b = true.
Proof.
  unfold String.leb, String.ltb. intros Hle Hne.
  destruct (String.compare a b) eqn:Hc; [|done|done].
  by apply String.compare_eq_iff in Hc.
Qed.

Lemma leb_of_not_leb a b : String.leb a b = false -> String.leb b a = true.
Proof. intros H. destruct (String.leb_total a b) as [H'|H']; congruence. Qed.

(** Inserting into sorted keys that do not hold the new key. *)
Lemma insert_item_sorted kv l :
  kv.1 ∉ map fst l ->
  keys_sorted (map fst l) = true ->
  keys_sorted (map fst (insert_item kv l)) = true.
Proof.
  induction l as [|kv' l IH]; intros Hnew Hs; [done|].
  cbn [insert_item]. destruct (String.leb kv.1 kv'.1) eqn:Hle.
  - cbn [map keys_sorted] in *. rewrite ltb_of_leb; [done|done|].
    intros Heq. apply Hnew. rewrite Heq. by left.
  - assert (Hnew' : kv.1 ∉ map fst l).
    { intros Hin. apply Hnew. by right. }
    assert (Hs' : keys_sorted (map fst l) = true).
    { cbn [map keys_sorted] in Hs. destruct (map fst l); [done|].
      by apply andb_prop in Hs as [_ ?]. }
    specialize (IH Hnew' Hs').
    assert (Hlt : String.ltb kv'.1 kv.1 = true).
    { apply ltb_of_leb; [by apply leb_of_not_leb|].
      intros Heq. apply Hnew. rewrite <- Heq. by left. }
    cbn [map]. destruct l as [|kv'' l]; cbn [insert_item map keys_sorted] in *.
    + by rewrite Hlt.
    + destruct (String.leb kv.1 kv''.1); cbn [map keys_sorted] in *.
      * by rewrite Hlt, IH.
      * apply andb_prop in Hs as [-> _]. by rewrite IH.
Qed.

Lemma dict_get_insert_item k kv l :
  kv.1 ∉ map fst l ->
  dict_get k (insert_item kv l) = dict_get k (kv :: l).
Proof.
  induction l as [|[k' v'] l IH]; intros Hnew; [done|].
  destruct kv as [k0 v0]. cbn [insert_item fst] in *.
  destruct (String.leb k0 k'); [done|]. cbn [dict_get].
  rewrite IH by (intros Hin; apply Hnew; by right). cbn [dict_get].
  destruct (String.eqb_spec k k') as [->|]; [|done].
  destruct (String.eqb_spec k' k0) as [->|]; [|done].
  destruct Hnew. by left.
Qed.

(** Sorted keys and unchanged lookups, for keys that differ. *)
Lemma sorted_items_lookup kvs :
  NoDup (map fst kvs) ->
  keys_sorted (map fst (sorted_items kvs)) = true
  /\ forall k, dict_get k (sorted_items kvs) = dict_get k kvs.
Proof.
  intros Hnd. induction kvs as [|kv kvs IH]; [done|].
  cbn [map] in Hnd. apply NoDup_cons in Hnd as [Hnew Hnd].
  destruct (IH Hnd) as [Hs Hget].
  assert (Hnew' : kv.1 ∉ map fst (sorted_items kvs)).
  { by rewrite sorted_items_perm. }
  cbn [sorted_items fold_right]. split.
  - by apply insert_item_sorted.
  - intros k. rewrite dict_get_insert_item by done.
    destruct kv as [k0 v0]. cbn [dict_get]. by rewrite Hget.
Qed.

(** Sorting a dict.  For every dict (its keys differ, as in any Python
    dict), [dict(sorted(d.items()))] holds the same pairs, has its keys in
    strictly increasing order, and gives the same value as [d] for every
    key. *)
Theorem sorted_items_spec kvs :
  NoDup (map fst kvs) ->
  sorted_items kvs ≡ₚ kvs
  /\ keys_sorted (map fst (sorted_items kvs)) = true
  /\ forall k, dict_get k (sorted_items kvs) = dict_get k kvs.
Proof.
  intros Hnd. split.
  - apply sorted_items_perm.
  - by apply sorted_items_lookup.
Qed.

Lemma sorted_items_spec_witness :
  NoDup (map fst [("b", JNum 2); ("a", JNum 1); ("c", JNull)])
  /\ sorted_items [("b", JNum 2); ("a", JNum 1); ("c", JNull)]
     = [("a", JNum 1); ("b", JNum 2); ("c", JNull)]
  /\ keys_sorted (map fst (sorted_items [("b", JNum 2); ("a", JNum 1); ("c", JNull)]))
     = true.
Proof.
  assert (Hnd : NoDup (map fst [("b", JNum 2); ("a", JNum 1); ("c", JNull)])).
  { apply (bool_decide_unpack _). by vm_compute. }
  split; [exact Hnd|]. split; [reflexivity|].
  exact (proj1 (proj2 (sorted_items_spec _ Hnd))).
Defined.

Lemma dict_get_dict_set k k' v l :
  dict_get k (dict_set k' v l)
  = if String.eqb k k' then Some v else dict_get k l.
Proof.
  induction l as [|[k0 v0] l IH]; cbn [dict_set dict_get].
  - by destruct (String.eqb k k').
  - destruct (String.eqb_spec k' k0) as [->|Hne]; cbn [dict_get].
    + by destruct (String.eqb k k0).
    + rewrite IH. destruct (String.eqb_spec k k0) as [->|]; [|done].
      destruct (String.eqb_spec k0 k') as [->|]; done.
Qed.

(** What a record holds.  When the creation times that the detail API
    gives can be printed (they lie between 1970 and the year 9999, where
    [strftime] returns): enrichment succeeds exactly when the raw item has
    an [id] and the detail API answers for it; the record then has the
    value of [submission_to_dict] for every key but [comments], and under
    [comments] the dicts of the top-level comments in their order.  When
    it fails, it fails with the error of the missing [id] or of the detail
    API. *)
Theorem enrich_fields item env :
  answers_printable (reddit env) ->
  (forall record, enrich item env = Ok record <->
     exists id submission comments,
       getitem item "id" = Ok id
       /\ reddit env id = Ok (submission, comments)
       /\ record = JObj (sorted_items
                           (dict_set "comments" (JArr (map comment_to_dict comments))
                                     (submission_to_dict submission))))
  /\ (forall id submission comments record,
        getitem item "id" = Ok id ->
        reddit env id = Ok (submission, comments) ->
        enrich item env = Ok record ->
        getitem record "comments" = Ok (JArr (map comment_to_dict comments))
        /\ forall k, k <> "comments" ->
             getitem record k = getitem (JObj (submission_to_dict submission)) k)
  /\ (forall e, enrich item env = Raise e <->
        getitem item "id" = Raise e
        \/ exists id, getitem item "id" = Ok id /\ reddit env id = Raise e).
Proof.
  intros _. unfold enrich.
  destruct (getitem item "id") as [id|e0] eqn:Hid; cbn [mbind result_bind].
  2:{ split; [|split].
      - intros record. split; [done|]. by intros (? & ? & ? & ? & _).
      - by intros.
      - intros e. split; [intros [= <-]; by left|].
        intros [[= <-]|(? & ? & _)]; done. }
  destruct (reddit env id) as [[submission comments]|e0] eqn:Hr; cbn [mbind result_bind].
  2:{ split; [|split].
      - intros record. split; [done|]. intros (? & ? & ? & [= <-] & ? & _). congruence.
      - intros ? ? ? ? [= <-]. congruence.
      - intros e. split; [intros [= <-]; right; by exists id|].
        intros [?|(? & [= <-] & ?)]; congruence. }
  split; [|split].
  - intros record. split.
    + intros [= <-]. by exists id, submission, comments.
    + intros (? & ? & ? & [= <-] & ? & ->). congruence.
  - intros id' s' c' record [= <-] Hr' [= <-]. rewrite Hr in Hr'.
    injection Hr' as <- <-.
    assert (Hnd : NoDup (map fst (dict_set "comments" (JArr (map comment_to_dict comments))
                                           (submission_to_dict submission)))).
    { apply (bool_decide_unpack _). by vm_compute. }
    pose proof (proj2 (sorted_items_lookup _ Hnd)) as Hget.
    cbn [getitem]. split.
    + by rewrite Hget, dict_get_dict_set.
    + intros k Hk. rewrite Hget, dict_get_dict_set.
      by destruct (String.eqb_spec k "comments").
  - intros e. split; [done|]. intros [?|(? & [= <-] & ?)]; congruence.
Qed.

Lemma enrich_fields_witness :
  answers_printable (reddit sample_env)
  /\ exists record,
       enrich (raw_item "a" 9) sample_env = Ok record
       /\ getitem record "comments" = Ok (JArr (map comment_to_dict [sample_comment]))
       /\ getitem record "title" = Ok (JStr "title").
Proof.
  assert (Hp : answers_printable (reddit sample_env)).
  { intros id s cs [= <- <-]. split; reflexivity. }
  split; [exact Hp|].
  destruct (enrich_fields (raw_item "a" 9) sample_env Hp) as (Hok & Hget & _).
  assert (Hid : getitem (raw_item "a" 9) "id" = Ok (JStr "a")) by reflexivity.
  assert (He : enrich (raw_item "a" 9) sample_env
               = Ok (JObj (sorted_items
                             (dict_set "comments" (JArr (map comment_to_dict [sample_comment]))
                                       (submission_to_dict (sample_submission (JStr "a")))))))
    by (apply Hok; by exists (JStr "a"), (sample_submission (JStr "a")), [sample_comment]).
  eexists. split; [exact He|].
  destruct (Hget _ _ _ _ Hid eq_refl He) as [Hc Hk].
  split; [exact Hc|]. rewrite Hk by discriminate. reflexivity.
Defined.

Lemma all_ids_scalar v : all_ids (json_of_scalar v) = [].
Proof. by destruct v. Qed.

Lemma all_ids_author_name a : all_ids (author_name a) = [].
Proof. by destruct a. Qed.

(** The dict of a comment holds the whole tree below the comment: the
    [id] members of the nested dicts are the identifiers of the comments
    of the tree, every comment before its replies and the replies in
    their order. *)
Theorem comment_to_dict_ids : forall comment,
  all_ids (comment_to_dict comment) = map JStr (comment_ids comment).
Proof.
  fix IH 1. intros [author body created distinguished edited id is_submitter
                    link_id parent_id permalink replies score stickied].
  cbn [comment_to_dict all_ids comment_ids dict_get flat_map map snd
       Comment.author Comment.body Comment.created_utc Comment.distinguished
       Comment.edited Comment.id Comment.is_submitter Comment.link_id
       Comment.parent_id Comment.permalink Comment.replies Comment.score
       Comment.stickied].
  rewrite !all_ids_scalar, all_ids_author_name.
  cbn [String.eqb Ascii.eqb Bool.eqb app]. f_equal.
  rewrite app_nil_r.
  induction replies as [|r rs IHrs]; [done|].
  cbn [map flat_map]. rewrite map_app, (IH r). f_equal. exact IHrs.
Qed.

End RecordsMore.

(** * A bounded session ends *)

Section Termination.
Import reddit_utils archive_subreddit.





End Termination.

(** * The driver *)

Section Driver.
Import reddit_utils archive_subreddit.

(** ** A session without a bound *)

(** C1 does not hold of the code.  A fresh session for which the operator
    enters no bound ([max_submissions] is [None]) ends with a [TypeError]
    at the subtraction [max_submissions - len(posts)] of line 111, before
    any request is made and whatever the fuel. *)
Theorem unbounded_session_raises_type_error fuel subreddit env :
  main fuel subreddit None None env = (Failed TypeError, (now_ms env).2)
  /\ served (world (main fuel subreddit None None env).2) = served (world env)
  /\ files (main fuel subreddit None None env).2 = files env.
Proof. done. Qed.

(** The same holds of every state in which no bound is set, a resumed
    one included. *)
Lemma remaining_count_unbounded posts :
  remaining_count None posts = Raise TypeError.
Proof. reflexivity. Qed.

(** ** The names of the files *)

Lemma strip_prefix_app a b s : strip_prefix (a ++ b) (a ++ s) = strip_prefix b s.
Proof.
  induction a as [|c a IH]; [done|].
  simpl. by rewrite Ascii.eqb_refl.
Qed.

(** A name with a count in it is matched, and gives its three groups. *)
Example bounded_intermediate_name_matches :
  pattern_match "x" (intermediate_name (mkLocals "x" (Some 200) 5 7 JNull [] None))
  = Some ("200", "5", "7").
Proof. reflexivity. Qed.

(** ** The final save *)

Lemma last_written_app log name tail :
  (forall n, WriteText n ∉ tail) ->
  last_written (log ++ WriteText name :: tail) = Some name.
Proof.
  intros Htail.
  assert (Ht : last_written tail = None).
  { induction tail as [|op tail IH]; [done|]. cbn [last_written].
    rewrite IH.
    - destruct op as [n|n]; [|done]. destruct (Htail n). by left.
    - intros n Hn. apply (Htail n). by right. }
  induction log as [|op log IH]; cbn [app last_written].
  - by rewrite Ht.
  - by rewrite IH.
Qed.

(** A save whose new name differs from the old one leaves the new file in
    the directory. *)
Lemma save_keeps_new_file name st env r env' :
  archive_file st <> Some name ->
  save name st env = (r, env') ->
  files env' !! name = Some (posts st).
Proof.
  unfold save. intros Hne.
  destruct (archive_file st) as [old|].
  - unfold unlink. destruct (files (write_text name (posts st) env) !! old).
    + intros [= _ <-]. cbn [files write_text].
      rewrite lookup_delete_ne by congruence. apply lookup_insert_eq.
    + intros [= _ <-]. apply lookup_insert_eq.
  - intros [= _ <-]. apply lookup_insert_eq.
Qed.

(** A save whose new name is the old one deletes what it has written. *)
Lemma save_same_name_loses_file name st env r env' :
  archive_file st = Some name ->
  save name st env = (r, env') ->
  files env' !! name = None.
Proof.
  unfold save. intros ->. unfold unlink. cbn [files write_text].
  rewrite lookup_insert_eq. intros [= _ <-]. apply lookup_delete_eq.
Qed.

(** What a save leaves in the log: the write, then the deletion. *)
Lemma save_log name st env r env' :
  save name st env = (r, env') ->
  fs_log env' = (fs_log env ++ [WriteText name])%list
  \/ exists old, archive_file st = Some old
       /\ fs_log env' = (fs_log env ++ [WriteText name; Unlink old])%list.
Proof.
  unfold save. destruct (archive_file st) as [old|].
  - unfold unlink.
    destruct (files (write_text name (posts st) env) !! old).
    + intros [= _ <-]. right. exists old. split; [done|].
      cbn [fs_log write_text]. by rewrite <- app_assoc.
    + intros [= _ <-]. by left.
  - intros [= _ <-]. by left.
Qed.

Lemma save_state name st env st' env' :
  save name st env = (Ok st', env') ->
  st' = mkLocals (subreddit st) (max_submissions st) (t_start_ms st) (t_end_ms st)
                 (before st) (posts st) (Some name).
Proof.
  unfold save. destruct (archive_file st) as [old|].
  - destruct (unlink old _) as [[[]|e] env2]; [|done]. by intros [= <- _].
  - by intros [= <- _].
Qed.

Lemma str_int_head n :
  0 <= n -> exists c s, str_int n = String c s /\ is_digit c = true.
Proof.
  intros Hn. unfold str_int.
  destruct n as [|p|p]; [by eexists _, _| |lia].
  cbn [Z.to_int NilZero.string_of_int].
  destruct (Pos.to_uint p) as [|d|d|d|d|d|d|d|d|d|d]; by eexists _, _.
Qed.

Lemma append_cons c (a b : string) : String c a ++ b = String c (a ++ b).
Proof. reflexivity. Qed.

Lemma append_nil_l (b : string) : "" ++ b = b.
Proof. reflexivity. Qed.

Lemma append_nil_r (a : string) : a ++ "" = a.
Proof. induction a as [|c a IH]; [done|]. by rewrite append_cons, IH. Qed.

Lemma length_append (a b : string) :
  String.length (a ++ b) = (String.length a + String.length b)%nat.
Proof.
  induction a as [|c a IH]; [done|].
  rewrite append_cons. cbn [String.length]. by rewrite IH.
Qed.

Lemma append_eq_cases a : forall b X Y,
  a ++ X = b ++ Y ->
  (exists t, a = b ++ t /\ t ++ X = Y) \/ (exists t, b = a ++ t /\ X = t ++ Y).
Proof.
  induction a as [|c a IH]; intros b X Y H.
  - right. by exists b.
  - destruct b as [|c' b].
    + left. by exists (String c a).
    + rewrite !append_cons in H. injection H as -> H.
      destruct (IH b X Y H) as [(t & -> & Ht)|(t & -> & Ht)].
      * left. by exists t.
      * right. by exists t.
Qed.

Lemma underscore_in_prefix s t :
  "intermediate_" = s ++ String "_" t -> s = "intermediate" /\ t = "".
Proof.
  intros H.
  do 12 (destruct s as [|? s];
         [discriminate H|rewrite append_cons in H; injection H as <- H]).
  destruct s as [|? s].
  - rewrite append_nil_l in H. by injection H as <-.
  - rewrite append_cons in H. injection H as _ H. by destruct s.
Qed.

Lemma final_is_no_intermediate n : forall s c D R,
  (String.length s <= n)%nat ->
  is_digit c = true ->
  s ++ "_" ++ String c D <> "intermediate_" ++ s ++ "_" ++ R.
Proof.
  induction n as [|n IH]; intros s c D R Hlen Hc H.
  - destruct s; [discriminate H|cbn in Hlen; lia].
  - destruct (append_eq_cases _ _ _ _ H) as [(t & -> & Ht)|(t & Hp & Ht)].
    + apply (IH t c D R); [|done|].
      * rewrite length_append in Hlen. cbn in Hlen. lia.
      * rewrite Ht. reflexivity.
    + destruct t as [|u t].
      * rewrite append_nil_r in Hp. subst s. discriminate Ht.
      * rewrite !append_cons, append_nil_l in Ht. injection Ht as <- Ht.
        destruct (underscore_in_prefix _ _ Hp) as [-> ->].
        rewrite append_nil_l, append_cons in Ht. injection Ht as -> _.
        discriminate Hc.
Qed.

Lemma append_assoc (a b c : string) : (a ++ b) ++ c = a ++ b ++ c.
Proof.
  induction a as [|x a IH]; [done|]. by rewrite !append_cons, IH.
Qed.

Lemma strip_prefix_Some p : forall s r, strip_prefix p s = Some r -> s = p ++ r.
Proof.
  induction p as [|a p IH]; intros s r; cbn [strip_prefix].
  - by intros [= ->].
  - destruct s as [|b s]; [done|].
    destruct (Ascii.eqb_spec a b) as [->|]; [|done].
    intros H. by rewrite (IH _ _ H).
Qed.

(** The file that a session holds is an intermediate archive of its
    subreddit all along. *)
Lemma resolve_resume_intermediate sub choice prompted env st env1 :
  resolve_resume sub choice prompted env = (Ok st, env1) ->
  subreddit st = sub /\ intermediate_of sub (archive_file st).
Proof.
  unfold resolve_resume. destruct choice as [name|].
  - destruct (pattern_match sub name) as [[[g1 g2] g3]|] eqn:Hm; [|done].
    destruct (files env !! name) as [ps|]; [|done].
    destruct (last ps) as [p|]; [|done].
    destruct (getitem p "created_utc") as [b|e]; [|done].
    intros [= <- _]. split; [done|]. cbn [archive_file intermediate_of].
    unfold pattern_match in Hm.
    destruct (strip_prefix _ name) as [r0|] eqn:Hp; [|done].
    apply strip_prefix_Some in Hp. exists r0.
    by rewrite Hp, !append_assoc.
  - destruct (now_ms env) as [t env']. by intros [= <- _].
Qed.

Lemma loop_body_intermediate sub st item env st' env' :
  subreddit st = sub -> intermediate_of sub (archive_file st) ->
  loop_body st item env = (Ok st', env') ->
  subreddit st' = sub /\ intermediate_of sub (archive_file st').
Proof.
  unfold loop_body. intros Hsub Hfile.
  destruct (enrich item env) as [record|e]; [|done].
  destruct (now_ms env) as [t env1].
  destruct (_ =? 0)%Z.
  - unfold save_intermediate. intros Hsave.
    rewrite (save_state _ _ _ _ _ Hsave).
    cbn [subreddit archive_file intermediate_of]. split; [done|].
    unfold intermediate_name. cbn [subreddit]. rewrite Hsub. by eexists.
  - by intros [= <- _].
Qed.

Lemma for_loop_intermediate sub fuel : forall pushshift g st env st1 stl env2,
  subreddit st = sub -> intermediate_of sub (archive_file st) ->
  for_loop fuel pushshift g st env = (Completed st1, stl, env2) ->
  subreddit st1 = sub /\ intermediate_of sub (archive_file st1).
Proof.
  induction fuel as [|fuel IH]; intros pushshift g st env st1 stl env2 Hsub Hfile;
    [done|].
  cbn [for_loop].
  destruct (step pushshift g (world env)) as [[[r g'] pushshift'] w'].
  destruct r as [item| | |e]; [| |by intros [= <- _ _]|done].
  - destruct (loop_body st item (set_world w' env)) as [[st'|e] env'] eqn:Hbody; [|done].
    destruct (loop_body_intermediate sub _ _ _ _ _ Hsub Hfile Hbody) as [Hsub' Hfile'].
    by apply IH.
  - by apply IH.
Qed.

(** The name of the final archive is not the name of an intermediate
    one. *)
Lemma final_name_fresh sub st :
  subreddit st = sub -> intermediate_of sub (archive_file st) ->
  archive_file st <> Some (final_name st).
Proof.
  intros Hsub Hfile Heq. rewrite Heq in Hfile. destruct Hfile as [r Hr].
  unfold final_name, str_len in Hr. rewrite Hsub in Hr.
  destruct (str_int_head (Z.of_nat (length (posts st)))) as (c & D & Hd & Hc); [lia|].
  rewrite Hd in Hr. rewrite append_cons in Hr.
  exact (final_is_no_intermediate (String.length sub) sub c _ _ (le_n _) Hc Hr).
Qed.

(** C8.  When a session completes, the file written last is the final
    archive; its name is made of the subreddit, the number of records in
    the accumulator and the two ends of the window, whatever the count
    that was requested; and the directory holds the accumulator under
    that name. *)
Theorem final_name_has_record_count fuel sub choice prompted env st env' :
  main fuel sub choice prompted env = (Completed st, env') ->
  let name :=
    sub ++ "_" ++ str_int (Z.of_nat (length (posts st))) ++ "_"
    ++ str_int (t_start_ms st) ++ "_" ++ str_int (t_end_ms st) ++ ".json" in
  archive_file st = Some name
  /\ last_written (fs_log env') = Some name
  /\ files env' !! name = Some (posts st).
Proof.
  unfold main.
  destruct (resolve_resume sub choice prompted env) as [[st0|e] env1] eqn:Hres; [|done].
  destruct (resolve_resume_intermediate _ _ _ _ _ _ Hres) as [Hsub0 Hfile0].
  destruct (remaining_count _ _) as [count|e]; [|done].
  destruct (for_loop _ _ _ _ _) as [[[st1|e|] stl] env2] eqn:Hloop; try done.
  destruct (for_loop_intermediate sub _ _ _ _ _ _ _ _ Hsub0 Hfile0 Hloop)
    as [Hsub1 Hfile1].
  destruct (save_final st1 env2) as [[st2|e] env3] eqn:Hsave; [|done].
  intros [= <- <-]. unfold save_final in Hsave.
  pose proof (save_keeps_new_file _ _ _ _ _ (final_name_fresh sub st1 Hsub1 Hfile1) Hsave)
    as Hkept.
  pose proof (save_state _ _ _ _ _ Hsave) as ->.
  cbn [subreddit posts t_start_ms t_end_ms archive_file].
  assert (Hname : final_name st1
                  = sub ++ "_" ++ str_int (Z.of_nat (length (posts st1))) ++ "_"
                    ++ str_int (t_start_ms st1) ++ "_" ++ str_int (t_end_ms st1)
                    ++ ".json")
    by (unfold final_name, str_len; by rewrite Hsub1).
  rewrite <- Hname.
  split; [reflexivity|]. split; [|exact Hkept].
  destruct (save_log _ _ _ _ _ Hsave) as [->|(old & _ & ->)].
  - apply (last_written_app _ _ []). intros n Hn. by apply elem_of_nil in Hn.
  - apply (last_written_app _ _ [Unlink old]). intros n Hn.
    apply list_elem_of_singleton in Hn. discriminate.
Qed.

Lemma final_name_has_record_count_witness :
  exists st,
    sample_run = (Completed st, sample_run.2)
    /\ length (posts st) = 4%nat
    /\ archive_file st = Some "x_4_5_9.json"
    /\ last_written (fs_log sample_run.2) = Some "x_4_5_9.json".
Proof.
  set (st := match sample_run.1 with
             | Completed st => st
             | _ => mkLocals "" None 0 0 JNull [] None
             end).
  assert (H : main 20 "x" None (Some 50) sample_env = (Completed st, sample_run.2))
    by (vm_compute; reflexivity).
  exists st. split; [exact H|].
  destruct (final_name_has_record_count 20 "x" None (Some 50) sample_env _ _ H)
    as (Hname & Hlast & _).
  split; [vm_compute; reflexivity|]. split.
  - rewrite Hname. vm_compute. reflexivity.
  - rewrite Hlast. vm_compute. reflexivity.
Defined.

(** ** Resuming *)

(** The creation time of a record is the text that [strftime] makes. *)
Lemma enriched_created_utc_is_text item env record :
  enrich item env = Ok record ->
  exists s, getitem record "created_utc" = Ok (JStr s).
Proof.
  unfold enrich. destruct (getitem item "id") as [id|e]; [|done]. cbn.
  destruct (reddit env id) as [[submission comments]|e]; [|done]. cbn.
  intros [= <-]. eexists. reflexivity.
Qed.

(** C3 does not hold of the code.  Resuming from a checkpoint of 100
    records of a session that asked for 150, the driver asks the client
    for 50 more, and the cursor that it passes as [before], and that the
    first request carries, is the text ["2023-01-01 00:00:00"] of the last
    record, not the number of seconds 1672531200. *)
Theorem resume_cursor_is_formatted_date :
  let r := resolve_resume "x" (Some checkpoint_150) None resumable_env in
  (exists st,
     r.1 = Ok st
     /\ max_submissions st = Some 150
     /\ length (posts st) = 100%nat
     /\ remaining_count (max_submissions st) (posts st) = Ok 50
     /\ before st = JStr "2023-01-01 00:00:00")
  /\ served (world (main 10 "x" (Some checkpoint_150) None resumable_env).2)
     = [page_request "submission" "x" 500 (JStr "2023-01-01 00:00:00")].
Proof.
  vm_compute. split; [|reflexivity].
  eexists. repeat split; reflexivity.
Qed.

(** ** Saving *)

(** C4 does not hold of the code.  A session resumed from the checkpoint
    [intermediate_x_300_5_7.json] whose wall clock reads millisecond 7
    again when the 200th record is appended writes the new checkpoint
    under the name of the old one and then deletes it; when the next page
    request fails (status 500 to the last attempt, so the retries are
    used up), the session has ended and the directory is empty. *)
Theorem checkpoint_lost_when_names_coincide :
  let r := main 300 "x" (Some checkpoint_300) None stuck_clock_env in
  r.1 = Failed (TransportError "RetryError")
  /\ fs_log r.2 = [WriteText checkpoint_300; Unlink checkpoint_300]
  /\ files r.2 = ∅.
Proof. vm_compute. repeat split; reflexivity. Qed.

End Driver.

(** * The driver: names that come back, sessions that keep their window *)

Section Names.
Import reddit_utils archive_subreddit.

Lemma int_unfold s : int s = fold_left digit_step (list_ascii_of_string s) 0.
Proof. reflexivity. Qed.

Lemma digits_of_uint_acc d : forall acc : positive,
  fold_left digit_step (list_ascii_of_string (NilEmpty.string_of_uint d)) (Z.pos acc)
  = Z.pos (Pos.of_uint_acc d acc).
Proof.
  induction d as [|d IH|d IH|d IH|d IH|d IH|d IH|d IH|d IH|d IH|d IH]; intros acc;
    [done|..];
    cbn [NilEmpty.string_of_uint list_ascii_of_string fold_left Pos.of_uint_acc];
    rewrite <- IH; f_equal; unfold digit_step;
    match goal with
    | |- context [Z.of_nat ?t] =>
        let v := eval vm_compute in (Z.of_nat t) in change (Z.of_nat t) with v
    end; lia.
Qed.

Lemma digits_of_uint d :
  fold_left digit_step (list_ascii_of_string (NilEmpty.string_of_uint d)) 0
  = Z.of_N (Pos.of_uint d).
Proof.
  induction d as [|d IH|d IH|d IH|d IH|d IH|d IH|d IH|d IH|d IH|d IH];
    [done|exact IH|..];
    cbn [NilEmpty.string_of_uint list_ascii_of_string fold_left Pos.of_uint];
    exact (digits_of_uint_acc d _).
Qed.

(** [int(str(n)) == n] for [n >= 0]. *)
Lemma int_str_int n : 0 <= n -> int (str_int n) = n.
Proof.
  intros Hn. unfold str_int. rewrite int_unfold.
  destruct n as [|p|p]; [done| |lia].
  cbn [Z.to_int NilZero.string_of_int].
  pose proof (DecimalPos.Unsigned.of_to p) as Hp.
  destruct (Pos.to_uint p) as [|d|d|d|d|d|d|d|d|d|d] eqn:E; [done|..];
    unfold NilZero.string_of_uint; rewrite digits_of_uint, Hp; done.
Qed.

Lemma all_digits_of_uint d : all_digits (NilEmpty.string_of_uint d) = true.
Proof. induction d; cbn; done. Qed.

Lemma all_digits_str_int n : 0 <= n -> all_digits (str_int n) = true.
Proof.
  intros Hn. unfold str_int. destruct n as [|p|p]; [done| |lia].
  cbn [Z.to_int NilZero.string_of_int].
  destruct (Pos.to_uint p) eqn:E; [done|..];
    unfold NilZero.string_of_uint; rewrite <- E; apply all_digits_of_uint.
Qed.

(** The run of digits ends where something else begins. *)
Lemma span_digits_app d c r :
  all_digits d = true -> is_digit c = false ->
  span_digits (d ++ String c r) = (d, String c r).
Proof.
  intros Hd Hc. induction d as [|x d IH].
  - rewrite append_nil_l. cbn [span_digits]. by rewrite Hc.
  - cbn [all_digits] in Hd. apply andb_prop in Hd as [Hx Hd].
    rewrite append_cons. cbn [span_digits]. by rewrite Hx, (IH Hd).
Qed.

Lemma digits1_app n c r :
  0 <= n -> is_digit c = false ->
  digits1 (str_int n ++ String c r) = Some (str_int n, String c r).
Proof.
  intros Hn Hc. unfold digits1.
  rewrite (span_digits_app _ _ _ (all_digits_str_int n Hn) Hc).
  destruct (str_int_head n Hn) as (x & s & -> & _). done.
Qed.

Lemma strip_prefix_exact a s : strip_prefix a (a ++ s) = Some s.
Proof.
  induction a as [|c a IH]; [done|].
  rewrite append_cons. cbn [strip_prefix]. by rewrite Ascii.eqb_refl.
Qed.

(** The pattern reads back what line 124 writes.  For a bound and a
    window that are not negative, the name of the intermediate archive is
    matched by the pattern of line 79, and its three groups are the decimal
    texts of the bound and of the two ends of the window. *)
Lemma pattern_match_intermediate_name sub n t_start t_end before posts file :
  0 <= n -> 0 <= t_start -> 0 <= t_end ->
  pattern_match sub
    (intermediate_name (mkLocals sub (Some n) t_start t_end before posts file))
  = Some (str_int n, str_int t_start, str_int t_end).
Proof.
  intros Hn Hs He.
  assert (Hname :
    intermediate_name (mkLocals sub (Some n) t_start t_end before posts file)
    = ("intermediate_" ++ sub ++ "_")
      ++ (str_int n ++ String "_" (str_int t_start ++ String "_"
            (str_int t_end ++ String "." "json")))).
  { unfold intermediate_name.
    cbn [subreddit max_submissions t_start_ms t_end_ms str_optional_int].
    rewrite !append_assoc. reflexivity. }
  unfold pattern_match. rewrite Hname, strip_prefix_exact.
  cbn [mbind option_bind].
  rewrite (digits1_app n "_" _ Hn eq_refl). cbn [mbind option_bind strip_prefix].
  change (Ascii.eqb "_" "_") with true. cbn [mbind option_bind].
  rewrite (digits1_app t_start "_" _ Hs eq_refl). cbn [mbind option_bind strip_prefix].
  change (Ascii.eqb "_" "_") with true. cbn [mbind option_bind].
  rewrite (digits1_app t_end "." _ He eq_refl). cbn [mbind option_bind].
  reflexivity.
Qed.

End Names.

Section Sessions.
Import reddit_utils archive_subreddit.

Lemma str_int_not_inf n : 0 <= n -> String.eqb (str_int n) "inf" = false.
Proof.
  intros Hn. destruct (str_int_head n Hn) as (c & s & -> & Hc).
  cbn [String.eqb]. destruct (Ascii.eqb_spec c "i") as [->|]; [done|done].
Qed.

(** Round trip of a checkpoint.  For a subreddit whose name is made of
    letters, digits and underscores (so that the pattern of line 79, into
    which the name goes unescaped, reads it as it is): after an
    intermediate save under a new name, of a state whose bound and window
    are not negative and whose last record has a creation time, resuming
    from the file that was written gives back the subreddit, the bound,
    both ends of the window and the records as they were saved, with the
    creation time of the last record as cursor. *)
Theorem checkpoint_round_trip st env st' env' n earlier last_record cursor prompted :
  plain (subreddit st) = true ->
  max_submissions st = Some n ->
  0 <= n -> 0 <= t_start_ms st -> 0 <= t_end_ms st ->
  posts st = (earlier ++ [last_record])%list ->
  getitem last_record "created_utc" = Ok cursor ->
  archive_file st <> Some (intermediate_name st) ->
  save_intermediate st env = (Ok st', env') ->
  resolve_resume (subreddit st) (Some (intermediate_name st)) prompted env'
  = (Ok (mkLocals (subreddit st) (Some n) (t_start_ms st) (t_end_ms st) cursor
                  (posts st) (Some (intermediate_name st))), env').
Proof.
  intros _ Hmax Hn Hs He Hposts Hcursor Hfresh Hsave.
  pose proof (save_keeps_new_file _ _ _ _ _ Hfresh Hsave) as Hfile.
  destruct st as [sub mx ts te bf ps file]. cbn [subreddit max_submissions t_start_ms
    t_end_ms posts archive_file] in *. subst mx.
  unfold resolve_resume.
  rewrite (pattern_match_intermediate_name sub n ts te bf ps file Hn Hs He).
  rewrite (str_int_not_inf n Hn), Hfile, Hposts, last_snoc, Hcursor.
  by rewrite !int_str_int.
Qed.

Lemma checkpoint_round_trip_witness :
  exists st' env',
    (plain (subreddit one_record_state) = true
     /\ max_submissions one_record_state = Some 150
     /\ 0 <= 150 /\ 0 <= t_start_ms one_record_state /\ 0 <= t_end_ms one_record_state
     /\ posts one_record_state = ([] ++ [sample_record])%list
     /\ getitem sample_record "created_utc" = Ok (JStr "2023-01-01 00:00:00")
     /\ archive_file one_record_state <> Some (intermediate_name one_record_state)
     /\ save_intermediate one_record_state sample_env = (Ok st', env'))
    /\ resolve_resume "x" (Some "intermediate_x_150_5_7.json") None env'
       = (Ok (mkLocals "x" (Some 150) 5 7 (JStr "2023-01-01 00:00:00") [sample_record]
                       (Some "intermediate_x_150_5_7.json")), env').
Proof.
  eexists _, _.
  assert (Hsave : save_intermediate one_record_state sample_env = (Ok _, _))
    by reflexivity.
  assert (Hc : getitem sample_record "created_utc" = Ok (JStr "2023-01-01 00:00:00"))
    by (vm_compute; reflexivity).
  split.
  { split; [reflexivity|].
    split; [reflexivity|]. split; [lia|]. split; [cbn; lia|]. split; [cbn; lia|].
    split; [reflexivity|]. split; [exact Hc|]. split; [discriminate|exact Hsave]. }
  exact (checkpoint_round_trip one_record_state sample_env _ _ 150 [] sample_record
           (JStr "2023-01-01 00:00:00") None eq_refl eq_refl ltac:(lia) ltac:(cbn; lia)
           ltac:(cbn; lia) eq_refl Hc ltac:(discriminate) Hsave).
Defined.



(** What a save does when the previous file is there and has another
    name: the new file holds the accumulator, the previous file is gone,
    nothing else in the directory changes, and the write is logged before
    the deletion. *)
Theorem save_supersedes name st env old content :
  archive_file st = Some old ->
  old <> name ->
  files env !! old = Some content ->
  exists st' env',
    save name st env = (Ok st', env')
    /\ archive_file st' = Some name
    /\ posts st' = posts st
    /\ files env' = delete old (<[name := posts st]> (files env))
    /\ files env' !! name = Some (posts st)
    /\ files env' !! old = None
    /\ fs_log env' = (fs_log env ++ [WriteText name; Unlink old])%list.
Proof.
  intros Hold Hne Hfile. unfold save, unlink. rewrite Hold.
  cbn [files write_text]. rewrite lookup_insert_ne by done. rewrite Hfile.
  eexists _, _. split; [done|]. cbn [archive_file posts files fs_log].
  split; [done|]. split; [done|]. split; [done|].
  split; [by rewrite lookup_delete_ne, lookup_insert_eq|].
  split; [by rewrite lookup_delete_eq|].
  cbn [fs_log write_text]. by rewrite <- app_assoc.
Qed.

Lemma save_supersedes_witness :
  (archive_file resumed_state = Some checkpoint_150
   /\ checkpoint_150 <> intermediate_name resumed_state
   /\ files resumable_env !! checkpoint_150 = Some (repeat sample_record 100))
  /\ exists st' env',
       save_intermediate resumed_state resumable_env = (Ok st', env')
       /\ files env' !! "intermediate_x_150_5_9.json" = Some (posts resumed_state)
       /\ files env' !! checkpoint_150 = None
       /\ fs_log env' = [WriteText "intermediate_x_150_5_9.json"; Unlink checkpoint_150].
Proof.
  assert (Hne : checkpoint_150 <> intermediate_name resumed_state) by discriminate.
  assert (Hfile : files resumable_env !! checkpoint_150 = Some (repeat sample_record 100))
    by (vm_compute; reflexivity).
  split; [split; [reflexivity|split; [exact Hne|exact Hfile]]|].
  destruct (save_supersedes (intermediate_name resumed_state) resumed_state resumable_env
              checkpoint_150 _ eq_refl Hne Hfile)
    as (st' & env' & Hsave & _ & _ & _ & Hnew & Hgone & Hlog).
  exists st', env'. split; [exact Hsave|]. split; [exact Hnew|].
  split; [exact Hgone|exact Hlog].
Defined.

(** What a save does when the previous file has gone: the new file is
    written, and then the save fails with [FileNotFoundError], so the
    session ends although its records are on disk. *)
Theorem save_fails_without_previous_file name st env old :
  archive_file st = Some old ->
  old <> name ->
  files env !! old = None ->
  exists env',
    save name st env = (Raise (FileNotFoundError old), env')
    /\ files env' = <[name := posts st]> (files env)
    /\ fs_log env' = (fs_log env ++ [WriteText name])%list.
Proof.
  intros Hold Hne Hfile. unfold save, unlink. rewrite Hold.
  cbn [files write_text]. rewrite lookup_insert_ne by done. rewrite Hfile.
  by eexists.
Qed.

Lemma save_fails_without_previous_file_witness :
  (archive_file resumed_state = Some checkpoint_150
   /\ checkpoint_150 <> intermediate_name resumed_state
   /\ files sample_env !! checkpoint_150 = None)
  /\ exists env',
       save_intermediate resumed_state sample_env
       = (Raise (FileNotFoundError checkpoint_150), env')
       /\ files env' = <[intermediate_name resumed_state := posts resumed_state]> ∅.
Proof.
  assert (Hne : checkpoint_150 <> intermediate_name resumed_state) by discriminate.
  split; [split; [reflexivity|split; [exact Hne|reflexivity]]|].
  destruct (save_fails_without_previous_file (intermediate_name resumed_state)
              resumed_state sample_env checkpoint_150 eq_refl Hne eq_refl)
    as (env' & Hsave & Hfiles & _).
  exists env'. split; [exact Hsave|exact Hfiles].
Defined.

End Sessions.

(** * Sessions: what stays, what grows, what is never exceeded *)

Section SessionInvariants.
Import reddit_utils archive_subreddit.

(** A resumption of the generator of the driver is a resumption of the
    generator of [pushshift_api]. *)
Lemma step_of_reddit_utils q g w r g' q' w' :
  step q g w = (r, g', q', w') ->
  pushshift_api.step (of_reddit_utils q) g w = (r, g', of_reddit_utils q', w').
Proof.
  intros Hstep. pose proof (step_agrees (of_reddit_utils q) g w) as Hagree.
  rewrite to_of_reddit_utils, Hstep in Hagree.
  destruct (pushshift_api.step (of_reddit_utils q) g w) as [[[r0 g0] p0] w0].
  injection Hagree as -> -> -> ->. by rewrite of_to_reddit_utils.
Qed.

(** A turn of the loop that goes well appends one record and touches
    neither the subreddit, nor the bound, nor the start of the window, nor
    the cursor. *)
Lemma loop_body_state st item env st' env' :
  loop_body st item env = (Ok st', env') ->
  subreddit st' = subreddit st
  /\ max_submissions st' = max_submissions st
  /\ t_start_ms st' = t_start_ms st
  /\ before st' = before st
  /\ exists record, enrich item env = Ok record
                    /\ posts st' = (posts st ++ [record])%list.
Proof.
  unfold loop_body. destruct (enrich item env) as [record|e]; [|done].
  destruct (now_ms env) as [t env1].
  destruct (_ =? 0)%Z.
  - unfold save_intermediate. intros Hsave.
    rewrite (save_state _ _ _ _ _ Hsave). cbn. repeat split. by exists record.
  - intros [= <- _]. cbn. repeat split. by exists record.
Qed.

(** The loop, however it ends: the window is kept, the accumulator has
    grown at its end by records with sorted keys, by no more than a bounded
    generator can yield. *)
Lemma for_loop_state fuel : forall pushshift g st env o stl env',
  for_loop fuel pushshift g st env = (o, stl, env') ->
  subreddit stl = subreddit st
  /\ max_submissions stl = max_submissions st
  /\ t_start_ms stl = t_start_ms st
  /\ before stl = before st
  /\ (forall st1, o = Completed st1 -> st1 = stl)
  /\ exists new,
       posts stl = (posts st ++ new)%list
       /\ Forall (fun record => deep_sorted record = true) new
       /\ (frame_bounded (gframe g) -> frame_ok (gframe g) ->
           (length new <= yield_budget (gframe g))%nat).
Proof.
  induction fuel as [|fuel IH]; intros pushshift g st env o stl env'.
  - intros [= <- <- _]. repeat split; [done|]. exists []. rewrite app_nil_r.
    repeat split; [constructor|]. cbn. lia.
  - cbn [for_loop].
    destruct (step pushshift g (world env)) as [[[r g'] pushshift'] w'] eqn:Hstep.
    apply step_of_reddit_utils in Hstep.
    destruct (step_cases _ _ _ _ _ _ _ Hstep) as [_ Hcase].
    destruct r as [item| | |e].
    + destruct (loop_body st item (set_world w' env)) as [[st'|e] env1] eqn:Hbody.
      2:{ intros [= <- <- _]. repeat split; [done|]. exists []. rewrite app_nil_r.
          repeat split; [constructor|]. cbn. lia. }
      destruct (loop_body_state _ _ _ _ _ Hbody)
        as (Hs & Hm & Ht & Hb & record & Hrec & Hposts).
      intros Hloop.
      destruct (IH _ _ _ _ _ _ _ Hloop)
        as (Hs' & Hm' & Ht' & Hb' & Hdone & new & Hnew & Hsorted & Hlen).
      rewrite Hs', Hm', Ht', Hb'. repeat split; try done.
      exists (record :: new). rewrite Hnew, Hposts, <- app_assoc.
      split; [done|]. split.
      * constructor; [exact (enrich_sorted _ _ _ Hrec)|done].
      * destruct Hcase as (_ & _ & pend & bf & rest & v & Hg & Hg').
        rewrite Hg. rewrite Hg' in Hlen. destruct pend as [|m]; [done|].
        intros _ Hok. cbn [length frame_ok frame_bounded yield_budget pending_dec] in *.
        specialize (Hlen I ltac:(lia)). lia.
    + intros Hloop.
      destruct (IH _ _ _ _ _ _ _ Hloop)
        as (Hs' & Hm' & Ht' & Hb' & Hdone & new & Hnew & Hsorted & Hlen).
      repeat split; try done. exists new. split; [done|]. split; [done|].
      destruct Hcase as [(_ & _ & count & bf & Hg & Hg')
                        |(pend & bf & x & l & rq & d & Hg & Hpos & Hg' & _)];
        rewrite Hg; rewrite Hg' in Hlen.
      * destruct count as [n|]; [|done]. intros _ _. apply Hlen; cbn; [done|lia].
      * destruct pend as [|m]; [done|]. intros _ _.
        cbn in Hpos. apply Z.ltb_lt in Hpos.
        cbn [frame_ok frame_bounded yield_budget slice_upto] in *.
        apply Hlen; [done|]. rewrite length_take. lia.
    + intros [= <- <- _]. repeat split; [by intros ? [= <-]|]. exists [].
      rewrite app_nil_r. repeat split; [constructor|]. cbn. lia.
    + intros [= <- <- _]. repeat split; [done|]. exists []. rewrite app_nil_r.
      repeat split; [constructor|]. cbn. lia.
Qed.

(** A completed session has kept its window and its records.  The final
    state has the subreddit, the bound and the start of the window with
    which the session began (fresh or resumed), and its accumulator is the
    one the session began with, followed by the records appended, all with
    sorted keys. *)
Theorem session_keeps_window fuel sub choice prompted env st env' st0 env0 :
  main fuel sub choice prompted env = (Completed st, env') ->
  resolve_resume sub choice prompted env = (Ok st0, env0) ->
  subreddit st = subreddit st0
  /\ max_submissions st = max_submissions st0
  /\ t_start_ms st = t_start_ms st0
  /\ exists new,
       posts st = (posts st0 ++ new)%list
       /\ Forall (fun record => deep_sorted record = true) new.
Proof.
  unfold main. intros Hmain Hres. rewrite Hres in Hmain.
  destruct (remaining_count _ _) as [count|e]; [|done].
  destruct (for_loop _ _ _ _ _) as [[o stl] env2] eqn:Hloop.
  destruct (for_loop_state _ _ _ _ _ _ _ _ Hloop)
    as (Hs & Hm & Ht & _ & Hdone & new & Hnew & Hsorted & _).
  destruct o as [st1|e|]; try done.
  rewrite (Hdone st1 eq_refl) in Hmain.
  destruct (save_final stl env2) as [[st2|e] env3] eqn:Hsave; [|done].
  injection Hmain as <- <-. unfold save_final in Hsave.
  rewrite (save_state _ _ _ _ _ Hsave). cbn. repeat split; try done.
  by exists new.
Qed.

Lemma session_keeps_window_witness :
  exists st st0 env0,
    (sample_run = (Completed st, sample_run.2)
     /\ resolve_resume "x" None (Some 50) sample_env = (Ok st0, env0))
    /\ max_submissions st = Some 50
    /\ t_start_ms st = 5
    /\ exists new, posts st = ([] ++ new)%list
                   /\ Forall (fun record => deep_sorted record = true) new.
Proof.
  set (st := match sample_run.1 with
             | Completed st => st
             | _ => mkLocals "" None 0 0 JNull [] None
             end).
  assert (H : main 20 "x" None (Some 50) sample_env = (Completed st, sample_run.2))
    by (vm_compute; reflexivity).
  exists st. eexists _, _.
  assert (Hres : resolve_resume "x" None (Some 50) sample_env = (Ok _, _)) by reflexivity.
  split; [split; [exact H|exact Hres]|].
  destruct (session_keeps_window 20 "x" None (Some 50) sample_env _ _ _ _ H Hres)
    as (_ & Hm & Ht & new & Hnew & Hsorted).
  split; [exact Hm|]. split; [exact Ht|]. exists new. split; [exact Hnew|exact Hsorted].
Defined.

(** A session does not take more than it was asked for.  When a session
    completes, the number of records appended is at most the count that
    was asked of the client, [max_submissions - len(posts)] at the start,
    and none when that count is not positive; so the accumulator never
    exceeds the larger of the bound and what the session began with. *)
Theorem session_respects_bound fuel sub choice prompted env st env' st0 env0 n :
  main fuel sub choice prompted env = (Completed st, env') ->
  resolve_resume sub choice prompted env = (Ok st0, env0) ->
  max_submissions st0 = Some n ->
  Z.of_nat (length (posts st)) <= Z.max n (Z.of_nat (length (posts st0))).
Proof.
  unfold main. intros Hmain Hres Hmax. rewrite Hres in Hmain.
  rewrite Hmax in Hmain. cbn [remaining_count] in Hmain.
  destruct (for_loop _ _ _ _ _) as [[o stl] env2] eqn:Hloop.
  destruct (for_loop_state _ _ _ _ _ _ _ _ Hloop)
    as (_ & _ & _ & _ & Hdone & new & Hnew & _ & Hlen).
  destruct o as [st1|e|]; try done.
  rewrite (Hdone st1 eq_refl) in Hmain.
  destruct (save_final stl env2) as [[st2|e] env3] eqn:Hsave; [|done].
  injection Hmain as <- <-. unfold save_final in Hsave.
  rewrite (save_posts _ _ _ _ _ Hsave), Hnew, length_app.
  specialize (Hlen I I). cbn in Hlen. lia.
Qed.

Lemma session_respects_bound_witness :
  exists st st0 env0,
    (main 20 "x" None (Some 3) sample_env = (Completed st, (main 20 "x" None (Some 3) sample_env).2)
     /\ resolve_resume "x" None (Some 3) sample_env = (Ok st0, env0)
     /\ max_submissions st0 = Some 3)
    /\ Z.of_nat (length (posts st)) <= Z.max 3 (Z.of_nat (length (posts st0))).
Proof.
  set (st := match (main 20 "x" None (Some 3) sample_env).1 with
             | Completed st => st
             | _ => mkLocals "" None 0 0 JNull [] None
             end).
  assert (H : main 20 "x" None (Some 3) sample_env
              = (Completed st, (main 20 "x" None (Some 3) sample_env).2))
    by (vm_compute; reflexivity).
  exists st. eexists _, _.
  assert (Hres : resolve_resume "x" None (Some 3) sample_env = (Ok _, _)) by reflexivity.
  split; [split; [exact H|split; [exact Hres|reflexivity]]|].
  exact (session_respects_bound 20 "x" None (Some 3) sample_env _ _ _ _ 3 H Hres eq_refl).
Defined.

(** Nothing left to fetch.  When the bound is already reached at the
    start (the remaining count is not positive), the driver makes no
    request, sleeps for nothing, appends nothing, and goes straight to the
    final save of the records it began with. *)
Theorem nothing_left_to_fetch fuel sub choice prompted env st0 env0 count :
  resolve_resume sub choice prompted env = (Ok st0, env0) ->
  remaining_count (max_submissions st0) (posts st0) = Ok count ->
  count <= 0 ->
  (2 <= fuel)%nat ->
  main fuel sub choice prompted env
  = match save_final st0 env0 with
    | (Ok st2, env3) => (Completed st2, env3)
    | (Raise e, env3) => (Failed e, env3)
    end
  /\ world (main fuel sub choice prompted env).2 = world env0.
Proof.
  intros Hres Hcount Hle Hfuel.
  assert (Hmain : main fuel sub choice prompted env
                  = match save_final st0 env0 with
                    | (Ok st2, env3) => (Completed st2, env3)
                    | (Raise e, env3) => (Failed e, env3)
                    end).
  { unfold main. rewrite Hres, Hcount.
    destruct fuel as [|[|fuel]]; [lia|lia|].
    cbn [for_loop]. unfold query_submissions, _query_items, step at 1.
    cbn [gframe item_type subreddit_or_id String.eqb Ascii.eqb Bool.eqb orb].
    unfold step at 1. cbn [gframe item_type subreddit_or_id pending_pos].
    rewrite (proj2 (Z.ltb_ge 0 count) Hle).
    assert (Henv : set_world (world (set_world (world env0) env0))
                             (set_world (world env0) env0) = env0)
      by by destruct env0.
    by rewrite Henv. }
  split; [exact Hmain|]. rewrite Hmain.
  unfold save_final, save. destruct (archive_file st0) as [old|]; [|reflexivity].
  unfold unlink. destruct (files _ !! old); reflexivity.
Qed.

Lemma nothing_left_to_fetch_witness :
  exists st0 env0,
    (resolve_resume "x" None (Some 0) sample_env = (Ok st0, env0)
     /\ remaining_count (max_submissions st0) (posts st0) = Ok 0
     /\ 0 <= 0 /\ (2 <= 2)%nat)
    /\ served (world empty_run.2) = []
    /\ fs_log empty_run.2 = [WriteText "x_0_5_5.json"].
Proof.
  eexists _, _.
  assert (Hres : resolve_resume "x" None (Some 0) sample_env = (Ok _, _)) by reflexivity.
  split; [split; [exact Hres|split; [reflexivity|split; [lia|lia]]]|].
  destruct (nothing_left_to_fetch 2 "x" None (Some 0) sample_env _ _ 0 Hres eq_refl
              ltac:(lia) ltac:(lia)) as [Hmain Hworld].
  split.
  - unfold empty_run. rewrite Hworld. reflexivity.
  - unfold empty_run. rewrite Hmain. reflexivity.
Defined.


End SessionInvariants.

(** * The names that a session writes *)

Section NamesWritten.
Import reddit_utils archive_subreddit.







End NamesWritten.

(** * The choice of an archive to continue from *)

Section PromptChoice.
Import archive_subreddit.

Variable isdigit : string -> bool.
Variable int_text : string -> option Z.
Variable fromtimestamp_ms : string -> prompted string.

Lemma list_index_elem_of {A : Type} (xs : list A) (i : Z) (x : A) :
  list_index xs i = Some x -> x ∈ xs.
Proof.
  unfold list_index. destruct (i <? 0)%Z.
  - destruct (i + Z.of_nat (length xs) <? 0)%Z; [done|]. apply list_elem_of_lookup_2.
  - apply list_elem_of_lookup_2.
Qed.


Lemma choose_answer existing stdin file rest :
  choose isdigit int_text existing stdin = (Answer (Some file), rest) ->
  file ∈ existing /\ rest `suffix_of` stdin.
Proof.
  induction stdin as [|choice stdin IH]; cbn [choose]; [done|].
  destruct (String.eqb choice ""); [done|].
  assert (Hrec : choose isdigit int_text existing stdin = (Answer (Some file), rest) ->
                 file ∈ existing /\ rest `suffix_of` choice :: stdin).
  { intros [? ?]%IH. split; [done|]. by apply suffix_cons_r. }
  destruct (isdigit choice); cbn [negb]; [|done].
  destruct (int_text choice) as [n|]; [|done].
  destruct ((1 <=? n)%Z && (n <=? Z.of_nat (length existing))%Z); cbn [negb]; [|done].
  destruct (list_index existing (n - 1)) as [f|] eqn:Hf; [|done].
  intros [= -> ->]. split; [by eapply list_index_elem_of|].
  apply suffix_cons_r. done.
Qed.


Lemma list_archives_shown subreddit existing file :
  list_archives int_text fromtimestamp_ms subreddit existing = Answer tt ->
  file ∈ existing ->
  exists g s e, pattern_match subreddit file = Some (g, s, e) /\ is_Some (int_text g).
Proof.
  induction existing as [|f existing IH]; intros Hl Hin; [by apply elem_of_nil in Hin|].
  cbn [list_archives] in Hl.
  destruct (pattern_match subreddit f) as [[[g s] e]|] eqn:Hm; [|done].
  destruct (int_text g) as [n|] eqn:Hg; [|done].
  destruct (fromtimestamp_ms s); [|done].
  destruct (fromtimestamp_ms e); [|done].
  apply elem_of_cons in Hin as [->|Hin]; [|by apply IH].
  exists g, s, e. by rewrite Hg.
Qed.

(** What the prompt returns.  A file returned by [prompt_archive_choice]
    is one of the directory whose name matches the pattern of the
    subreddit, the operator's lines are read from the front, and, as
    [int] does not read ['inf'], the file is never a checkpoint of an
    unbounded session. *)
Theorem chosen_archive_is_listed subreddit names stdin file rest :
  int_text "inf" = None ->
  prompt_archive_choice isdigit int_text fromtimestamp_ms subreddit names stdin
  = (Answer (Some file), rest) ->
  file ∈ names
  /\ rest `suffix_of` stdin
  /\ exists g s e, pattern_match subreddit file = Some (g, s, e) /\ g <> "inf".
Proof.
  intros Hinf. unfold prompt_archive_choice.
  set (existing := filter _ names).
  destruct existing as [|f0 existing'] eqn:He; [done|]. rewrite <- He.
  destruct (list_archives _ _ _ existing) as [[]|] eqn:Hl; [|done].
  intros [Hin Hsuf]%choose_answer.
  destruct (list_archives_shown _ _ _ Hl Hin) as (g & s & e & Hm & Hg).
  split; [|split; [done|]].
  - subst existing. by apply list_elem_of_filter in Hin as [_ ?].
  - exists g, s, e. split; [done|]. intros ->. rewrite Hinf in Hg. by destruct Hg.
Qed.

Lemma list_archives_inf subreddit existing file s e :
  int_text "inf" = None ->
  file ∈ existing ->
  pattern_match subreddit file = Some ("inf", s, e) ->
  exists err, list_archives int_text fromtimestamp_ms subreddit existing = Uncaught err.
Proof.
  intros Hinf Hin Hm.
  destruct (list_archives _ _ _ existing) as [[]|err] eqn:Hl; [|by exists err].
  destruct (list_archives_shown _ _ _ Hl Hin) as (g & s' & e' & Hm' & Hg).
  rewrite Hm in Hm'. injection Hm' as <- <- <-. rewrite Hinf in Hg. by destruct Hg.
Qed.

(** A checkpoint named [inf] breaks the prompt.  The pattern accepts
    [inf] for the bound, but the list of archives is printed with
    [int(max_submissions)]: when the directory holds such a file for the
    subreddit, [prompt_archive_choice] raises before it asks anything. *)
Theorem unbounded_checkpoint_breaks_prompt subreddit names stdin file s e :
  int_text "inf" = None ->
  file ∈ names ->
  pattern_match subreddit file = Some ("inf", s, e) ->
  exists err,
    prompt_archive_choice isdigit int_text fromtimestamp_ms subreddit names stdin
    = (Uncaught err, stdin).
Proof.
  intros Hinf Hin Hm. unfold prompt_archive_choice.
  set (existing := filter _ names).
  assert (Hin' : file ∈ existing).
  { subst existing. apply list_elem_of_filter. split; [|done]. by rewrite Hm. }
  destruct (list_archives_inf subreddit existing file s e Hinf Hin' Hm) as [err Hl].
  rewrite Hl. exists err.
  destruct existing; [by apply elem_of_nil in Hin'|done].
Qed.

End PromptChoice.

Lemma chosen_archive_is_listed_witness :
  ascii_int "inf" = None
  /\ archive_subreddit.prompt_archive_choice ascii_isdigit ascii_int plain_date "x"
       sample_names ["7"; "two"; "2"; "1"]
     = (archive_subreddit.Answer (Some "intermediate_x_300_5_9.json"), ["1"])
  /\ "intermediate_x_300_5_9.json" ∈ sample_names.
Proof.
  split; [reflexivity|]. split; [vm_compute; reflexivity|].
  refine (proj1 (chosen_archive_is_listed ascii_isdigit ascii_int plain_date "x"
                   sample_names ["7"; "two"; "2"; "1"] _ ["1"] eq_refl _)).
  vm_compute. reflexivity.
Defined.

Lemma unbounded_checkpoint_breaks_prompt_witness :
  ascii_int "inf" = None
  /\ checkpoint_inf ∈ checkpoint_150 :: checkpoint_inf :: nil
  /\ archive_subreddit.pattern_match "x" checkpoint_inf = Some ("inf", "5", "7")
  /\ exists err,
       archive_subreddit.prompt_archive_choice ascii_isdigit ascii_int plain_date "x"
         (checkpoint_150 :: checkpoint_inf :: nil) ["1"]
       = (archive_subreddit.Uncaught err, ["1"]).
Proof.
  assert (Hin : checkpoint_inf ∈ checkpoint_150 :: checkpoint_inf :: nil) by set_solver.
  split; [reflexivity|]. split; [exact Hin|]. split; [reflexivity|].
  exact (unbounded_checkpoint_breaks_prompt ascii_isdigit ascii_int plain_date "x"
           (checkpoint_150 :: checkpoint_inf :: nil) ["1"] checkpoint_inf "5" "7"
           eq_refl Hin eq_refl).
Defined.

(** * Excerpts around a keyword *)

Section Excerpts.
Import experiment_1.

Lemma prefix_spec p : forall s, String.prefix p s = true <-> exists r, s = p ++ r.
Proof.
  induction p as [|a p IH]; intros s.
  - split; [intros _; by exists s|]. by destruct s.
  - destruct s as [|b s]; cbn [String.prefix].
    + split; [done|]. by intros [r Hr].
    + destruct (ascii_dec a b) as [->|Hne].
      * rewrite IH. split; intros [r Hr]; exists r.
        -- by rewrite append_cons, <- Hr.
        -- rewrite append_cons in Hr. by injection Hr.
      * split; [done|]. intros [r Hr]. rewrite append_cons in Hr. by injection Hr.
Qed.

Lemma contains_spec sub : forall s,
  contains sub s = true <-> exists a b, s = a ++ sub ++ b.
Proof.
  intros s. split.
  - induction s as [|c s IH]; cbn [contains]; intros [Hp|Hc]%orb_prop.
    + apply prefix_spec in Hp as [r ->]. by exists "", r.
    + done.
    + apply prefix_spec in Hp as [r ->]. by exists "", r.
    + destruct (IH Hc) as (a & b & ->). exists (String c a), b. by rewrite append_cons.
  - intros (a & b & ->). induction a as [|c a IH].
    + rewrite append_nil_l.
      assert (Hp : String.prefix sub (sub ++ b) = true) by (apply prefix_spec; by exists b).
      destruct (sub ++ b); cbn [contains]; by rewrite Hp.
    + rewrite append_cons. cbn [contains]. rewrite IH. apply orb_true_r.
Qed.

Lemma contains_refl s : contains s s = true.
Proof. apply contains_spec. exists "", "". by rewrite append_nil_l, append_nil_r. Qed.

Lemma contains_trans a b c :
  contains a b = true -> contains b c = true -> contains a c = true.
Proof.
  intros (x & y & ->)%contains_spec (u & v & ->)%contains_spec.
  apply contains_spec. exists (u ++ x), (y ++ v). by rewrite !append_assoc.
Qed.

Lemma contains_empty s : contains "" s = true.
Proof. apply contains_spec. by exists "", s. Qed.

(** ** [split] and [join] *)

Lemma split_nonempty sep t : exists s ss, split sep t = s :: ss.
Proof.
  induction t as [|c t (s & ss & IH)]; cbn [split]; [by eexists _, _|].
  destruct (Ascii.eqb c sep); [by eexists _, _|]. rewrite IH. by eexists _, _.
Qed.

Lemma concat_cons_head sep c s ss :
  String.concat sep (String c s :: ss) = String c (String.concat sep (s :: ss)).
Proof. by destruct ss. Qed.

Lemma concat_cons sep s s' ss :
  String.concat sep (s :: s' :: ss) = s ++ sep ++ String.concat sep (s' :: ss).
Proof. reflexivity. Qed.

Lemma join_split sep t : String.concat (String sep "") (split sep t) = t.
Proof.
  induction t as [|c t IH]; [done|]. cbn [split].
  destruct (split_nonempty sep t) as (s & ss & Hs). rewrite Hs in *.
  destruct (Ascii.eqb_spec c sep) as [->|_].
  - by rewrite concat_cons, IH.
  - by rewrite concat_cons_head, IH.
Qed.

Lemma concat_app sep l1 l2 :
  l1 <> [] -> l2 <> [] ->
  String.concat sep (l1 ++ l2) = String.concat sep l1 ++ sep ++ String.concat sep l2.
Proof.
  intros H1 H2. induction l1 as [|s l1 IH]; [done|].
  destruct l1 as [|s' l1].
  - destruct l2 as [|s2 l2]; [done|]. reflexivity.
  - change ((s :: s' :: l1) ++ l2)%list with (s :: (s' :: (l1 ++ l2)))%list.
    rewrite !concat_cons.
    change (s' :: (l1 ++ l2))%list with ((s' :: l1) ++ l2)%list.
    rewrite IH by done. by rewrite !append_assoc.
Qed.

(** The text joined from some of the elements in a row is a part of the
    text joined from all. *)
Lemma contains_concat sep l1 m l2 :
  contains (String.concat sep m) (String.concat sep (l1 ++ m ++ l2)) = true.
Proof.
  destruct m as [|x m]; [apply contains_empty|].
  apply contains_spec.
  destruct l1 as [|y l1], l2 as [|z l2].
  - exists "", "". by rewrite app_nil_r, append_nil_l, append_nil_r.
  - exists "", (sep ++ String.concat sep (z :: l2)).
    cbn [app]. change (x :: (m ++ z :: l2))%list with ((x :: m) ++ z :: l2)%list.
    by rewrite concat_app.
  - exists (String.concat sep (y :: l1) ++ sep), "".
    rewrite app_nil_r, append_nil_r, concat_app by done. by rewrite append_assoc.
  - exists (String.concat sep (y :: l1) ++ sep), (sep ++ String.concat sep (z :: l2)).
    rewrite concat_app by done.
    rewrite (concat_app sep (x :: m) (z :: l2)) by done.
    by rewrite !append_assoc.
Qed.

Lemma slice_part {A : Type} (xs : list A) start stop :
  exists l1 l2, xs = (l1 ++ slice xs start stop ++ l2)%list.
Proof.
  unfold slice.
  set (i := Z.to_nat _). set (k := Z.to_nat _).
  exists (take k xs), (drop i (drop k xs)).
  by rewrite !take_drop.
Qed.

(** The excerpt is a part of the text.  Whatever the keyword, the number
    of sentences asked for and the mode, what [sentences_around_keyword]
    returns occurs in the text as it stands: in the mode that ignores
    case, too, the excerpt has the letters of the text. *)
Theorem excerpt_is_part_of_text casefold text keyword n case_sensitive :
  contains (sentences_around_keyword casefold text keyword n case_sensitive) text = true.
Proof.
  unfold sentences_around_keyword.
  destruct (first_match _ 0 _) as [i|]; [|apply contains_empty].
  set (start := Z.max _ _). set (stop := Z.min _ _).
  destruct (slice_part (split "." text) start stop) as (l1 & l2 & Hs).
  rewrite <- (join_split "." text) at 2. rewrite Hs at 2.
  apply contains_concat.
Qed.

(** ** Sentences hold no full stop *)

Lemma contains_dot_cons c s :
  contains "." (String c s) = Ascii.eqb "." c || contains "." s.
Proof.
  cbn [contains String.prefix].
  destruct (ascii_dec "." c) as [<-|Hne].
  - by destruct s.
  - by destruct (Ascii.eqb_spec "." c).
Qed.

Lemma split_dot_free t : forall s, s ∈ split "." t -> contains "." s = false.
Proof.
  induction t as [|c t IH]; cbn [split]; intros s Hs.
  - apply list_elem_of_singleton in Hs as ->. reflexivity.
  - destruct (split_nonempty "." t) as (s0 & ss & Ht). rewrite Ht in *.
    destruct (Ascii.eqb_spec c ".") as [->|Hne].
    + apply elem_of_cons in Hs as [->|Hs]; [reflexivity|by apply IH].
    + apply elem_of_cons in Hs as [->|Hs].
      * rewrite contains_dot_cons, (IH s0) by (by left).
        by destruct (Ascii.eqb_spec "." c) as [<-|].
      * apply IH. by right.
Qed.

Lemma split_app_dot_free k b :
  contains "." k = false ->
  split "." (k ++ b)
  = match split "." b with
    | s :: ss => (k ++ s) :: ss
    | [] => [k]
    end.
Proof.
  induction k as [|c k IH]; intros Hk.
  - rewrite append_nil_l. by destruct (split_nonempty "." b) as (s & ss & ->).
  - rewrite contains_dot_cons in Hk. apply orb_false_elim in Hk as [Hc Hk].
    rewrite append_cons. cbn [split]. rewrite (IH Hk).
    destruct (Ascii.eqb_spec c ".") as [->|_]; [done|].
    by destruct (split_nonempty "." b) as (s & ss & ->).
Qed.

(** A keyword without a full stop that is in the text is in one of its
    sentences. *)
Lemma contains_split keyword text :
  contains "." keyword = false ->
  contains keyword text = true ->
  exists sentence, sentence ∈ split "." text /\ contains keyword sentence = true.
Proof.
  intros Hk (a & b & ->)%contains_spec.
  induction a as [|c a (s & Hin & Hs)].
  - rewrite append_nil_l, (split_app_dot_free _ _ Hk).
    destruct (split_nonempty "." b) as (s0 & ss & ->).
    exists (keyword ++ s0). split; [by left|].
    apply contains_spec. by exists "", s0.
  - rewrite append_cons. cbn [split].
    destruct (split_nonempty "." (a ++ keyword ++ b)) as (s0 & ss & Ht).
    rewrite Ht in *.
    destruct (Ascii.eqb c ".").
    + exists s. split; [by right|done].
    + apply elem_of_cons in Hin as [->|Hin].
      * exists (String c s0). split; [by left|].
        cbn [contains]. rewrite Hs. apply orb_true_r.
      * exists s. split; [by right|done].
Qed.

(** ** The window *)

Lemma first_match_None test : forall i sentences,
  first_match test i sentences = None <->
  forall sentence, sentence ∈ sentences -> test sentence = false.
Proof.
  intros i sentences. revert i.
  induction sentences as [|s l IH]; intros i; cbn [first_match].
  - split; [|done]. intros _ s Hs. by apply elem_of_nil in Hs.
  - destruct (test s) eqn:Hs.
    + split; [done|]. intros H. rewrite (H s) in Hs by (by left). done.
    + rewrite IH. split.
      * intros H x [->|Hx]%elem_of_cons; [done|by apply H].
      * intros H x Hx. apply H. by right.
Qed.

Lemma first_match_Some test : forall sentences i j,
  first_match test i sentences = Some j ->
  exists (k : nat) sentence,
    j = i + Z.of_nat k /\ sentences !! k = Some sentence /\ test sentence = true.
Proof.
  induction sentences as [|s l IH]; intros i j; cbn [first_match]; [done|].
  destruct (test s) eqn:Hs.
  - intros [= <-]. exists 0%nat, s. split; [lia|done].
  - intros (k & x & -> & Hk & Hx)%IH. exists (S k), x. split; [lia|done].
Qed.

Lemma slice_window {A : Type} (xs : list A) (k : nat) (x : A) (n : Z) :
  0 <= n ->
  xs !! k = Some x ->
  let start := Z.max 0 (Z.of_nat k - n) in
  let stop := Z.min (Z.of_nat (length xs)) (Z.of_nat k + n + 1) in
  x ∈ slice xs start stop
  /\ Z.of_nat (length (slice xs start stop)) <= 2 * n + 1.
Proof.
  intros Hn Hk start stop.
  pose proof (lookup_lt_Some _ _ _ Hk) as Hlt.
  unfold slice, slice_bound.
  assert (Hs : (start <? 0)%Z = false) by (apply Z.ltb_ge; lia).
  assert (Ht : (stop <? 0)%Z = false) by (apply Z.ltb_ge; lia).
  rewrite Hs, Ht. split.
  - apply (list_elem_of_lookup_2 _ (k - Z.to_nat start)).
    rewrite lookup_take_lt by lia. rewrite lookup_drop.
    replace (Z.to_nat (Z.min start (Z.of_nat (length xs))) + (k - Z.to_nat start))%nat
      with k by lia.
    done.
  - rewrite length_take. lia.
Qed.

Lemma contains_elem sep (x : string) l :
  x ∈ l -> contains x (String.concat sep l) = true.
Proof.
  intros (l1 & l2 & ->)%list_elem_of_split.
  change (x :: l2)%list with ([x] ++ l2)%list. apply (contains_concat sep l1 [x] l2).
Qed.

(** The excerpt holds the keyword.  In the mode that respects case, for
    a keyword without a full stop that is in the text and at least no
    sentence around it asked for, the excerpt holds the keyword. *)
Theorem excerpt_holds_keyword casefold text keyword n :
  0 <= n ->
  contains "." keyword = false ->
  contains keyword text = true ->
  contains keyword (sentences_around_keyword casefold text keyword n true) = true.
Proof.
  intros Hn Hk Ht. unfold sentences_around_keyword. cbn [negb].
  destruct (first_match _ 0 _) as [i|] eqn:Hf.
  - apply first_match_Some in Hf as (k & s & -> & Hs & Hks).
    destruct (slice_window _ k s n Hn Hs) as [Hin _].
    rewrite Z.add_0_l.
    eapply contains_trans; [exact Hks|]. by apply contains_elem.
  - destruct (contains_split _ _ Hk Ht) as (s & Hin & Hs).
    rewrite first_match_None in Hf. rewrite (Hf s Hin) in Hs. done.
Qed.

(** A keyword with a full stop is never found.  In the mode that
    respects case the text is searched sentence by sentence, and no
    sentence holds a full stop: for such a keyword the excerpt is empty,
    whether the text holds the keyword or not. *)
Theorem keyword_with_full_stop_is_not_found casefold text keyword n :
  contains "." keyword = true ->
  sentences_around_keyword casefold text keyword n true = "".
Proof.
  intros Hk. unfold sentences_around_keyword. cbn [negb].
  destruct (first_match _ 0 _) as [i|] eqn:Hf; [|done].
  apply first_match_Some in Hf as (k & s & _ & Hs & Hks).
  apply list_elem_of_lookup_2, split_dot_free in Hs.
  by rewrite (contains_trans _ _ _ Hk Hks) in Hs.
Qed.

(** ** Counting the sentences of the excerpt *)

Lemma split_concat l : forall s,
  (forall x, x ∈ s :: l -> contains "." x = false) ->
  split "." (String.concat "." (s :: l)) = s :: l.
Proof.
  induction l as [|s' l IH]; intros s Hfree.
  - cbn [String.concat].
    rewrite <- (append_nil_r s) at 1.
    rewrite split_app_dot_free by (apply Hfree; by left).
    cbn [split]. by rewrite append_nil_r.
  - rewrite concat_cons, split_app_dot_free by (apply Hfree; by left).
    change ("." ++ String.concat "." (s' :: l)) with (String "." (String.concat "." (s' :: l))).
    cbn [split Ascii.eqb Bool.eqb]. rewrite IH.
    + by rewrite append_nil_r.
    + intros x Hx. apply Hfree. by right.
Qed.

(** The excerpt has at most [2 n + 1] sentences, in either mode. *)
Theorem excerpt_sentence_count casefold text keyword n case_sensitive :
  0 <= n ->
  Z.of_nat (length (split "." (sentences_around_keyword casefold text keyword n
                                                          case_sensitive)))
  <= 2 * n + 1.
Proof.
  intros Hn. unfold sentences_around_keyword.
  destruct (first_match _ 0 _) as [i|] eqn:Hf; [|cbn; lia].
  apply first_match_Some in Hf as (k & s & -> & Hs & _).
  destruct (slice_window _ k s n Hn Hs) as [Hin Hlen].
  rewrite Z.add_0_l.
  set (window := slice _ _ _) in *.
  assert (Hfree : forall x, x ∈ window -> contains "." x = false).
  { intros x Hx. apply (split_dot_free text).
    destruct (slice_part (split "." text) (Z.max 0 (Z.of_nat k - n))
                (Z.min (Z.of_nat (length (split "." text))) (Z.of_nat k + n + 1)))
      as (l1 & l2 & Hp).
    rewrite Hp. fold window. set_solver. }
  destruct window as [|w ws]; [by apply elem_of_nil in Hin|].
  by rewrite split_concat.
Qed.

End Excerpts.

Lemma excerpt_holds_keyword_witness :
  (0 <= 1
   /\ experiment_1.contains "." " Tate" = false
   /\ experiment_1.contains " Tate" sample_text = true)
  /\ experiment_1.sentences_around_keyword ascii_casefold sample_text " Tate" 1 true
     = "Intro here. A man called Tate spoke. He left"
  /\ experiment_1.contains " Tate"
       (experiment_1.sentences_around_keyword ascii_casefold sample_text " Tate" 1 true)
     = true.
Proof.
  split; [split; [lia|split; reflexivity]|]. split; [vm_compute; reflexivity|].
  apply (excerpt_holds_keyword ascii_casefold sample_text " Tate" 1);
    [lia|reflexivity|reflexivity].
Defined.

Lemma keyword_with_full_stop_is_not_found_witness :
  experiment_1.contains "." "spoke. He" = true
  /\ experiment_1.contains "spoke. He" sample_text = true
  /\ experiment_1.sentences_around_keyword ascii_casefold sample_text "spoke. He" 1 true
     = "".
Proof.
  split; [reflexivity|]. split; [vm_compute; reflexivity|].
  apply (keyword_with_full_stop_is_not_found ascii_casefold sample_text "spoke. He" 1).
  reflexivity.
Defined.

Lemma excerpt_sentence_count_witness :
  0 <= 1
  /\ Z.of_nat (length (experiment_1.split "."
       (experiment_1.sentences_around_keyword ascii_casefold sample_text " tate" 1 false)))
     <= 2 * 1 + 1.
Proof.
  split; [lia|].
  apply (excerpt_sentence_count ascii_casefold sample_text " tate" 1 false). lia.
Defined.

(** * Flattening an archive *)

Section Flatten.
Import reddit_utils archive_subreddit experiment_1.

Lemma pop_snoc {A : Type} (l : list A) (x : A) : pop (l ++ [x]) = Some (x, l).
Proof. unfold pop. by rewrite last_snoc, removelast_last. Qed.

Lemma pop_nil {A : Type} : pop (@nil A) = None.
Proof. reflexivity. Qed.

Lemma dict_get_dict_del_ne k k' l :
  k <> k' -> dict_get k (dict_del k' l) = dict_get k l.
Proof.
  intros Hne. induction l as [|[k0 v0] l IH]; [done|].
  cbn [dict_del dict_get].
  destruct (String.eqb_spec k' k0) as [<-|_].
  - by destruct (String.eqb_spec k k').
  - cbn [dict_get]. by rewrite IH.
Qed.

Lemma record_keys_nodup submission v :
  NoDup (map fst (dict_set "comments" v (submission_to_dict submission))).
Proof. apply (bool_decide_unpack _). by vm_compute. Qed.

Lemma record_get k submission v :
  dict_get k (sorted_items (dict_set "comments" v (submission_to_dict submission)))
  = if String.eqb k "comments" then Some v
    else dict_get k (submission_to_dict submission).
Proof.
  destruct (sorted_items_lookup _ (record_keys_nodup submission v)) as [_ ->].
  apply dict_get_dict_set.
Qed.

Lemma map_node_dict_replies comments :
  map node_dict (map Reply comments) = map comment_to_dict comments.
Proof. by rewrite map_map. Qed.

(** One turn of the loop on the record of a submission. *)
Lemma flatten_post fuel ns submission comments subs coms :
  exists out,
    flatten (S fuel) (map node_dict (ns ++ [Post submission comments])) subs coms
    = flatten fuel (map node_dict (ns ++ map Reply comments)) (subs ++ [out]) coms
    /\ item_id out = some_id (Submission.id submission).
Proof.
  rewrite !map_app, map_node_dict_replies. cbn [map flatten]. rewrite pop_snoc.
  cbn [node_dict record_of fst snd].
  set (kvs := sorted_items _).
  assert (Hc : dict_get "comments" kvs = Some (JArr (map comment_to_dict comments))).
  { subst kvs. by rewrite record_get. }
  assert (Hr : dict_get "replies" kvs = None).
  { subst kvs. by rewrite record_get. }
  assert (Hs : forall kvs', (forall k, k <> "comments" -> dict_get k kvs' = dict_get k kvs) ->
               has_key "selftext" kvs' = true
               /\ dict_get "id" kvs' = some_id (Submission.id submission)).
  { intros kvs' Hk. unfold has_key. rewrite !Hk by done. subst kvs.
    by rewrite !record_get. }
  unfold unfold_item, get_true. rewrite Hc, Hr.
  destruct comments as [|c cs]; cbn [truthy map iterate].
  - destruct (Hs kvs) as [-> Hid]; [done|].
    exists (JObj kvs). by rewrite !app_nil_r.
  - destruct (Hs (dict_del "comments" kvs)) as [-> Hid].
    { intros k Hk. by apply dict_get_dict_del_ne. }
    by exists (JObj (dict_del "comments" kvs)).
Qed.

(** One turn of the loop on the dict of a comment. *)
Lemma flatten_reply fuel ns comment subs coms :
  exists out,
    flatten (S fuel) (map node_dict (ns ++ [Reply comment])) subs coms
    = flatten fuel (map node_dict (ns ++ map Reply (Comment.replies comment)))
              subs (coms ++ [out])
    /\ item_id out = some_id (Comment.id comment).
Proof.
  rewrite !map_app, map_node_dict_replies. cbn [map flatten]. rewrite pop_snoc.
  destruct comment as [author body created distinguished edited id is_submitter
                       link_id parent_id permalink replies score stickied].
  cbn [node_dict comment_to_dict Comment.replies Comment.id].
  destruct replies as [|r rs].
  - eexists. split.
    + cbn [map]. rewrite !app_nil_r. reflexivity.
    + reflexivity.
  - eexists. split.
    + reflexivity.
    + reflexivity.
Qed.

Lemma stack_weight_app ns ms :
  stack_weight (ns ++ ms) = (stack_weight ns + stack_weight ms)%nat.
Proof. unfold stack_weight. by rewrite map_app, list_sum_app. Qed.

Lemma stack_weight_replies comments :
  stack_weight (map Reply comments) = length (forest_ids comments).
Proof.
  unfold stack_weight, forest_ids. rewrite map_map.
  induction comments as [|c cs IH]; [done|].
  cbn [map list_sum flat_map]. rewrite length_app, <- IH. reflexivity.
Qed.

Lemma node_weight_children n : node_weight n = S (stack_weight (node_children n)).
Proof.
  destruct n as [s cs|c]; cbn [node_weight node_children].
  - by rewrite stack_weight_replies.
  - rewrite stack_weight_replies. by destruct c.
Qed.

Lemma comment_ids_replies comments :
  flat_map node_comment_ids (map Reply comments) = forest_ids comments.
Proof.
  unfold forest_ids. induction comments as [|c cs IH]; [done|].
  cbn [map flat_map node_comment_ids]. by rewrite IH.
Qed.

Lemma post_ids_replies comments : flat_map node_post_ids (map Reply comments) = [].
Proof. by induction comments. Qed.

Lemma comment_ids_unfold comment :
  comment_ids comment = Comment.id comment :: forest_ids (Comment.replies comment).
Proof. by destruct comment. Qed.

(** The loop on a stack of records and comment dicts. *)
Lemma flatten_nodes : forall fuel ns subs coms,
  (stack_weight ns < fuel)%nat ->
  exists S C,
    flatten fuel (map node_dict ns) subs coms = Flattened (subs ++ S) (coms ++ C)
    /\ map item_id S = reverse (map some_id (flat_map node_post_ids ns))
    /\ map item_id C ≡ₚ map some_id (flat_map node_comment_ids ns).
Proof.
  induction fuel as [|fuel IH]; intros ns subs coms Hfuel; [lia|].
  destruct ns as [|n ns _] using rev_ind.
  - exists [], []. by rewrite !app_nil_r.
  - assert (Hone : stack_weight [n] = S (stack_weight (node_children n))).
    { rewrite <- node_weight_children. unfold stack_weight, list_sum.
      cbn [map fold_right]. lia. }
    rewrite stack_weight_app, Hone in Hfuel.
    assert (Hnext : (stack_weight (ns ++ node_children n) < fuel)%nat).
    { rewrite stack_weight_app. lia. }
    rewrite !flat_map_app. cbn [flat_map]. rewrite !app_nil_r.
    destruct n as [s cs|c]; cbn [node_children node_post_ids node_comment_ids] in *.
    + destruct (flatten_post fuel ns s cs subs coms) as (out & -> & Hid).
      destruct (IH _ (subs ++ [out])%list coms Hnext) as (S' & C & -> & HS & HC).
      rewrite !flat_map_app, post_ids_replies, comment_ids_replies, app_nil_r in *.
      exists (out :: S'), C. split; [by rewrite <- app_assoc|]. split; [|done].
      cbn [map]. by rewrite HS, Hid, map_app, reverse_app.
    + destruct (flatten_reply fuel ns c subs coms) as (out & -> & Hid).
      destruct (IH _ subs (coms ++ [out])%list Hnext) as (S' & C & -> & HS & HC).
      rewrite !flat_map_app, post_ids_replies, comment_ids_replies, app_nil_r in *.
      exists S', (out :: C). split; [by rewrite <- app_assoc|]. split; [done|].
      cbn [map]. rewrite HC, Hid, comment_ids_unfold, !map_app. cbn [map].
      by rewrite Permutation_middle.
Qed.

(** The loop finds every submission and every comment of an archive.
    For the records that the driver writes for any submissions and their
    comment forests, the loop ends without an exception once it has a
    turn for every submission and comment; [submissions] holds the
    submissions from the last record to the first, and
    [comments_and_replies] holds one dict for every comment of every
    forest, replies at any depth included. *)
Theorem flatten_archive pairs fuel :
  (length pairs + length (flat_map (fun p => forest_ids p.2) pairs) < fuel)%nat ->
  exists submissions comments_and_replies,
    flatten fuel (map record_of pairs) [] [] = Flattened submissions comments_and_replies
    /\ map item_id submissions
       = reverse (map (fun p => some_id (Submission.id p.1)) pairs)
    /\ map item_id comments_and_replies
       ≡ₚ map some_id (flat_map (fun p => forest_ids p.2) pairs).
Proof.
  intros Hfuel.
  set (ns := map (fun p => Post p.1 p.2) pairs).
  assert (Hd : map record_of pairs = map node_dict ns).
  { subst ns. rewrite map_map. apply map_ext. by intros [s cs]. }
  assert (Hp : flat_map node_post_ids ns = map (fun p => Submission.id p.1) pairs).
  { subst ns. clear. induction pairs as [|p ps IHp]; [done|].
    cbn [map flat_map node_post_ids app]. by rewrite IHp. }
  assert (Hc : flat_map node_comment_ids ns = flat_map (fun p => forest_ids p.2) pairs).
  { subst ns. clear. induction pairs as [|p ps IHp]; [done|].
    cbn [map flat_map node_comment_ids]. by rewrite IHp. }
  assert (Hw : stack_weight ns
               = (length pairs + length (flat_map (fun p => forest_ids p.2) pairs))%nat).
  { subst ns. unfold stack_weight, list_sum. clear.
    induction pairs as [|p ps IHp]; [done|].
    cbn [map fold_right node_weight flat_map length]. rewrite IHp, length_app. lia. }
  destruct (flatten_nodes fuel ns [] []) as (S & C & Hf & HS & HC); [lia|].
  exists S, C. rewrite Hd, Hf. split; [done|].
  rewrite HS, HC, Hp, Hc. by rewrite map_map.
Qed.

Lemma flatten_archive_witness :
  (length [(sample_submission (JStr "a"), [sample_comment])]
   + length (flat_map (fun p => forest_ids p.2) [(sample_submission (JStr "a"), [sample_comment])])
   < 5)%nat
  /\ exists submissions comments_and_replies,
       flatten 5 (map record_of [(sample_submission (JStr "a"), [sample_comment])]) [] []
       = Flattened submissions comments_and_replies
       /\ map item_id submissions = [some_id "a"]
       /\ length comments_and_replies = 2%nat.
Proof.
  assert (Hfuel : (length [(sample_submission (JStr "a"), [sample_comment])]
                   + length (flat_map (fun p => forest_ids p.2)
                                      [(sample_submission (JStr "a"), [sample_comment])]) < 5)%nat)
    by (vm_compute; lia).
  split; [exact Hfuel|].
  destruct (flatten_archive [(sample_submission (JStr "a"), [sample_comment])] 5 Hfuel)
    as (S & C & Hf & HS & HC).
  exists S, C. split; [exact Hf|]. split; [exact HS|].
  apply Permutation_length in HC. rewrite length_map in HC. exact HC.
Defined.

(** ** The loop ends on every input *)

Lemma data_weight_app xs ys : data_weight (xs ++ ys) = (data_weight xs + data_weight ys)%nat.
Proof. unfold data_weight. by rewrite map_app, list_sum_app. Qed.

Lemma data_weight_snoc xs x : data_weight (xs ++ [x]) = (data_weight xs + json_weight x)%nat.
Proof. rewrite data_weight_app. unfold data_weight, list_sum. cbn [map fold_right]. lia. Qed.

Lemma json_weight_dict_get k kvs v :
  dict_get k kvs = Some v -> (S (json_weight v) < json_weight (JObj kvs))%nat.
Proof.
  cbn [json_weight]. unfold list_sum.
  induction kvs as [|[k' v'] kvs IH]; cbn [dict_get map fold_right snd]; [done|].
  destruct (String.eqb k k').
  - intros [= ->]. lia.
  - intros H%IH. lia.
Qed.

(** After a string or a dict has been pushed, the next turn ends the loop. *)
Lemma flatten_text_on_top fuel stack t subs coms :
  flatten (S fuel) (stack ++ [JStr t]) subs coms = Error "AttributeError".
Proof. cbn [flatten]. by rewrite pop_snoc. Qed.

Lemma flatten_texts fuel stack xs subs coms :
  xs <> [] ->
  Forall (fun x => exists t, x = JStr t) xs ->
  flatten (S fuel) (stack ++ xs) subs coms = Error "AttributeError".
Proof.
  intros Hne Hall. destruct xs as [|x xs _] using rev_ind; [done|].
  apply Forall_app in Hall as [_ Hx]. apply Forall_singleton in Hx as [t ->].
  rewrite app_assoc. apply flatten_text_on_top.
Qed.

Lemma flatten_pushed fuel stack v xs subs coms :
  truthy v = true ->
  iterate v = Some xs ->
  (data_weight stack + S (json_weight v) < S fuel)%nat ->
  (data_weight (stack ++ xs) < fuel)%nat
  \/ flatten fuel (stack ++ xs) subs coms = Error "AttributeError".
Proof.
  intros Ht Hi Hfuel. destruct fuel as [|fuel]; [lia|].
  destruct v as [| | | |t|ys|kvs]; try done; injection Hi as <-.
  - right. apply flatten_texts.
    + by destruct t.
    + apply Forall_map, Forall_forall. intros c _. by eexists.
  - left. rewrite data_weight_app. cbn [json_weight] in Hfuel.
    unfold data_weight at 2. lia.
  - right. apply flatten_texts.
    + by destruct kvs.
    + apply Forall_map, Forall_forall. intros kv _. by eexists.
Qed.

(** The loop ends.  Whatever JSON data the archive file holds, the loop
    of lines 35 to 48 comes to its end, with the two lists or with an
    exception, within a number of turns fixed by the data. *)
Theorem flatten_ends : forall fuel stack submissions comments_and_replies,
  (data_weight stack < fuel)%nat ->
  flatten fuel stack submissions comments_and_replies <> OutOfFuel.
Proof.
  induction fuel as [|fuel IH]; intros stack subs coms Hfuel; [lia|].
  destruct stack as [|x stack _] using rev_ind; [done|].
  rewrite data_weight_snoc in Hfuel.
  cbn [flatten]. rewrite pop_snoc.
  destruct x as [| | | | | |s]; try done.
  assert (Hnext : forall stack' s' (b : bool),
            unfold_item stack s = Some (stack', s') ->
            flatten fuel stack' (subs ++ (if b then [JObj s'] else []))%list
                    (coms ++ (if b then [] else [JObj s']))%list <> OutOfFuel).
  { intros stack' s' b Hu. unfold unfold_item, get_true in Hu.
    assert (Hpush : forall k v xs,
              dict_get k s = Some v -> truthy v = true -> iterate v = Some xs ->
              flatten fuel (stack ++ xs)
                      (subs ++ (if b then [JObj (dict_del k s)] else []))%list
                      (coms ++ (if b then [] else [JObj (dict_del k s)]))%list
              <> OutOfFuel).
    { intros k v xs Hk Hv Hx.
      pose proof (json_weight_dict_get _ _ _ Hk) as Hw.
      destruct (flatten_pushed fuel stack v xs
                  (subs ++ (if b then [JObj (dict_del k s)] else []))%list
                  (coms ++ (if b then [] else [JObj (dict_del k s)]))%list Hv Hx)
        as [Hlt| ->]; [lia|by apply IH|done]. }
    destruct (dict_get "comments" s) as [v|] eqn:Hc.
    - destruct (truthy v) eqn:Hv.
      + destruct (iterate v) as [xs|] eqn:Hx; [|done].
        injection Hu as <- <-. by eapply Hpush.
      + destruct (dict_get "replies" s) as [v'|] eqn:Hr.
        * destruct (truthy v') eqn:Hv'.
          -- destruct (iterate v') as [xs|] eqn:Hx; [|done].
             injection Hu as <- <-. by eapply Hpush.
          -- injection Hu as <- <-. apply IH. cbn [json_weight] in Hfuel. lia.
        * injection Hu as <- <-. apply IH. cbn [json_weight] in Hfuel. lia.
    - destruct (dict_get "replies" s) as [v'|] eqn:Hr.
      * destruct (truthy v') eqn:Hv'.
        -- destruct (iterate v') as [xs|] eqn:Hx; [|done].
           injection Hu as <- <-. by eapply Hpush.
        -- injection Hu as <- <-. apply IH. cbn [json_weight] in Hfuel. lia.
      * injection Hu as <- <-. apply IH. cbn [json_weight] in Hfuel. lia. }
  destruct (unfold_item stack s) as [[stack' s']|]; [|done].
  destruct (has_key "selftext" s').
  - rewrite <- (app_nil_r coms). apply (Hnext stack' s' true eq_refl).
  - destruct (has_key "body" s'); [|done].
    rewrite <- (app_nil_r subs). apply (Hnext stack' s' false eq_refl).
Qed.

Lemma flatten_ends_witness :
  (data_weight [JObj [("comments", JStr "ab"); ("body", JNull)]] < 8)%nat
  /\ flatten 8 [JObj [("comments", JStr "ab"); ("body", JNull)]] [] [] <> OutOfFuel.
Proof.
  assert (H : (data_weight [JObj [("comments", JStr "ab"); ("body", JNull)]] < 8)%nat)
    by (vm_compute; lia).
  split; [exact H|]. exact (flatten_ends 8 _ [] [] H).
Defined.

End Flatten.
